(** * The image-URL pipeline of the Pinterest wallpaper scraper

    A shallow embedding of the URL normaliser and classifier
    ([pinterest_scraper.py], [dev_tools.py]), of the two de-duplication
    loops, and of the batched liveness validator ([validate_images.py]),
    together with the properties their specification states.  The second
    half of the development follows the code further: the rest of a
    search and of the validator's [main], the cache tools of
    [dev_tools.py], the tester of [test_extension.py] and the flow of
    [setup.py].

    Conventions.
    - A Python [str] is a [string], the UTF-8 text of its code points;
      every pattern the code looks for is ASCII, so an occurrence in the
      bytes is an occurrence in the code points.  [lower] folds the
      letters A to Z.  Python's [str.lower] also rewrites code points
      outside ASCII, two of them into ASCII letters: U+212A into k, and
      U+0130 into i followed by U+0307.  No pattern of this program
      holds a k, and none has an i that is not followed by another
      character of the pattern, so neither can take part in a match.
    - A value read by [json.load] is a [pyval].
    - A Python call that may raise returns an [outcome].
    - What the validator does to the outside world (the client session,
      the batches it awaits, its pauses, the files it renames and writes)
      is recorded as a list of [event]s, oldest first. *)

From Stdlib Require Import ZArith QArith Ascii.
From stdpp Require Import base list strings gmap.

Local Open Scope Z_scope.

(** ** Python strings *)

Module Str.

(** [s.startswith(p)] *)
Fixpoint startswith (s p : string) {struct p} : bool :=
  match p, s with
  | EmptyString, _ => true
  | String _ _, EmptyString => false
  | String a p', String b s' => Ascii.eqb a b && startswith s' p'
  end.

(** [p in s] *)
Fixpoint contains (p s : string) : bool :=
  startswith s p ||
  match s with
  | EmptyString => false
  | String _ s' => contains p s'
  end.

(** [s.endswith(e)] *)
Fixpoint endswith (s e : string) : bool :=
  String.eqb s e ||
  match s with
  | EmptyString => false
  | String _ s' => endswith s' e
  end.

(** [s[n:]] *)
Fixpoint drop (n : nat) (s : string) : string :=
  match n, s with
  | O, _ => s
  | S _, EmptyString => EmptyString
  | S k, String _ s' => drop k s'
  end.

Definition lower_ascii (c : ascii) : ascii :=
  let n := nat_of_ascii c in
  if (65 <=? n)%nat && (n <=? 90)%nat then ascii_of_nat (n + 32) else c.

(** [s.lower()] *)
Fixpoint lower (s : string) : string :=
  match s with
  | EmptyString => EmptyString
  | String c s' => String (lower_ascii c) (lower s')
  end.

(** The scan behind [re.sub(old, new, s)] for a pattern [old] that is a
    non-empty literal (no regular-expression operator occurs in any
    pattern of this program), which is also [s.replace(old, new)]:
    matches are taken leftmost first and do not overlap.  [skip] counts
    the characters of the current match still to be consumed. *)
Fixpoint replace_from (old new : string) (skip : nat) (s : string) : string :=
  match s with
  | EmptyString => EmptyString
  | String c s' =>
      match skip with
      | S k => replace_from old new k s'
      | O =>
          if startswith s old
          then new +:+ replace_from old new (String.length old - 1) s'
          else String c (replace_from old new 0 s')
      end
  end.

Definition replace (old new s : string) : string := replace_from old new 0 s.

(** Specification-side notions, stated with concatenation only. *)
Definition is_prefix (p s : string) : Prop := ∃ t, s = p +:+ t.
Definition is_suffix (e s : string) : Prop := ∃ t, s = t +:+ e.
Definition occurs (p s : string) : Prop := ∃ a b, s = a +:+ p +:+ b.

End Str.

(** ** Python values and exceptions *)

Local Unset Elimination Schemes.

(** What [json.load] can return.  A [dict] is kept as its items in
    insertion order, duplicate keys already resolved by the parser; a
    [float] is kept as the rational it denotes. *)
Inductive pyval : Type :=
  | PyNone
  | PyBool (b : bool)
  | PyInt (n : Z)
  | PyFloat (q : Q)
  | PyStr (s : string)
  | PyList (l : list pyval)
  | PyDict (items : list (string * pyval)).

Local Set Elimination Schemes.

(** The exception classes that occur.  [KeyboardInterrupt] and
    [CancelledError] derive from [BaseException] only; an
    [except Exception] clause does not catch them. *)
Inductive exn : Type :=
  | AttributeError
  | TypeError
  | ValueError
  | JSONDecodeError
  | OSError
  | TimeoutError
  | ClientConnectorError
  | ClientConnectorDNSError
  | ClientPayloadError
  | KeyboardInterrupt
  | CancelledError.

Inductive outcome (A : Type) : Type :=
  | Ret (a : A)
  | Raise (e : exn).
Arguments Ret {A} a.
Arguments Raise {A} e.

Module Py.

Definition is_Exception (e : exn) : bool :=
  match e with
  | KeyboardInterrupt | CancelledError => false
  | _ => true
  end.

Definition bind {A B : Type} (m : outcome A) (k : A → outcome B) : outcome B :=
  match m with
  | Ret a => k a
  | Raise e => Raise e
  end.

(** [try: body / except Exception: handler] *)
Definition try_except {A : Type} (body : outcome A) (handler : exn → outcome A)
  : outcome A :=
  match body with
  | Ret a => Ret a
  | Raise e => if is_Exception e then handler e else Raise e
  end.

(** [bool(v)] *)
Definition truthy (v : pyval) : bool :=
  match v with
  | PyNone => false
  | PyBool b => b
  | PyInt n => negb (n =? 0)
  | PyFloat q => negb (Qeq_bool q 0)
  | PyStr s => negb (String.eqb s "")
  | PyList l => match l with [] => false | _ :: _ => true end
  | PyDict items => match items with [] => false | _ :: _ => true end
  end.

Definition isinstance_str (v : pyval) : bool :=
  match v with PyStr _ => true | _ => false end.

(** [a or b] *)
Definition or_ (a b : pyval) : pyval := if truthy a then a else b.

(** [d.get(k)] on a dict *)
Fixpoint dict_get (k : string) (items : list (string * pyval)) : pyval :=
  match items with
  | [] => PyNone
  | (k', v) :: rest => if String.eqb k k' then v else dict_get k rest
  end.

(** [v.get(k)]: only a [dict] has the method. *)
Definition get (v : pyval) (k : string) : outcome pyval :=
  match v with
  | PyDict items => Ret (dict_get k items)
  | _ => Raise AttributeError
  end.

(** The number a value compares as: [True == 1 == 1.0]. *)
Definition as_number (v : pyval) : option Q :=
  match v with
  | PyBool b => Some (if b then 1%Q else 0%Q)
  | PyInt n => Some (inject_Z n)
  | PyFloat q => Some q
  | _ => None
  end.

(** [a == b] on hashable values *)
Definition eqb (a b : pyval) : bool :=
  match as_number a, as_number b with
  | Some x, Some y => Qeq_bool x y
  | None, None =>
      match a, b with
      | PyNone, PyNone => true
      | PyStr s, PyStr t => String.eqb s t
      | _, _ => false
      end
  | _, _ => false
  end.

(** [hash(v)] succeeds on everything but lists and dicts. *)
Definition hashable (v : pyval) : bool :=
  match v with
  | PyList _ | PyDict _ => false
  | _ => true
  end.

(** [v in s] for a [set] [s], kept as the list of its members *)
Definition set_contains (s : list pyval) (v : pyval) : outcome bool :=
  if hashable v then Ret (existsb (eqb v) s) else Raise TypeError.

(** [len(v)] *)
Definition len (v : pyval) : outcome nat :=
  match v with
  | PyStr s => Ret (String.length s)
  | PyList l => Ret (length l)
  | PyDict items => Ret (length items)
  | _ => Raise TypeError
  end.

Fixpoint chars (s : string) : list pyval :=
  match s with
  | EmptyString => []
  | String c s' => PyStr (String c EmptyString) :: chars s'
  end.

(** [for x in v]: the values a loop over [v] visits; a string yields its
    characters, a dict its keys. *)
Definition iter (v : pyval) : outcome (list pyval) :=
  match v with
  | PyStr s => Ret (chars s)
  | PyList l => Ret l
  | PyDict items => Ret ((λ kv, PyStr kv.1) <$> items)
  | _ => Raise TypeError
  end.

End Py.

#[global] Instance outcome_ret : MRet outcome := @Ret.
#[global] Instance outcome_bind : MBind outcome := λ A B k m, Py.bind m k.

(** ** Cache entries *)

Module Cache.

(** [entry.get('media') or entry.get('url')], the expression by which
    both [validate_images.py] and [dev_tools.py] resolve the URL of an
    entry; the second lookup is made only when the first value is
    falsy. *)
Definition entry_url (entry : pyval) : outcome pyval :=
  m ← Py.get entry "media";
  if Py.truthy m then mret m else Py.get entry "url".

(** An entry has a URL: the expression above returns a truthy value. *)
Definition has_url (entry : pyval) : Prop :=
  ∃ url, entry_url entry = Ret url ∧ Py.truthy url = true.

(** [bool(entry.get('media') or entry.get('url'))] on a record *)
Definition with_url (entry : pyval) : bool :=
  match entry_url entry with
  | Ret url => Py.truthy url
  | Raise _ => false
  end.

(** An entry-like record: a JSON object. *)
Definition is_record (v : pyval) : bool :=
  match v with PyDict _ => true | _ => false end.

(** A well-formed cache: an array of records. *)
Definition well_formed (v : pyval) : Prop :=
  ∃ entries, v = PyList entries ∧ Forall (λ e, is_record e = true) entries.

End Cache.

(** ** [urllib.parse.urlparse(url).path]

    The standard-library function is not part of the repository; every
    general statement below takes it as a parameter [urlparse_path].
    [Urllib.urlparse_path] follows [urlsplit] and [urlparse] of CPython
    3.12 and serves to evaluate the validity check on concrete URLs:
    leading blanks and control characters are stripped, tabs and line
    breaks removed, a host with an unbalanced bracket is refused, and so
    is a bracketed host that cannot be an IP literal.  Two checks of
    CPython are left out: a bracketed host that holds a colon is taken
    for a well-formed IPv6 address, and a host name outside ASCII is not
    normalised; no URL below is of either kind. *)

Module Urllib.

(** The text before the first character satisfying [f], and the text
    from that character on. *)
Fixpoint break_at (f : ascii → bool) (s : string) : string * string :=
  match s with
  | EmptyString => (EmptyString, EmptyString)
  | String c s' =>
      if f c then (EmptyString, s)
      else let '(a, b) := break_at f s' in (String c a, b)
  end.

Definition is_char (c : ascii) : ascii → bool := Ascii.eqb c.

Definition is_alpha (c : ascii) : bool :=
  let n := nat_of_ascii c in
  ((65 <=? n) && (n <=? 90) || (97 <=? n) && (n <=? 122))%nat.

Definition is_scheme_char (c : ascii) : bool :=
  let n := nat_of_ascii c in
  (is_alpha c || (48 <=? n) && (n <=? 57))%nat
  || is_char "+" c || is_char "-" c || is_char "." c.

Fixpoint all_chars (f : ascii → bool) (s : string) : bool :=
  match s with
  | EmptyString => true
  | String c s' => f c && all_chars f s'
  end.

(** [scheme, url = url[:i].lower(), url[i+1:]] when the text before the
    first colon is a scheme. *)
Definition split_scheme (url : string) : string * string :=
  match break_at (is_char ":") url with
  | (String c0 pre, String _ rest) =>
      if is_alpha c0 && all_chars is_scheme_char (String c0 pre)
      then (Str.lower (String c0 pre), rest)
      else (EmptyString, url)
  | _ => (EmptyString, url)
  end.

Definition is_delim (c : ascii) : bool :=
  is_char "/" c || is_char "?" c || is_char "#" c.

(** [_splitnetloc(url, 2)] when [url[:2] == '//'] *)
Definition split_netloc (url : string) : string * string :=
  match url with
  | String "/" (String "/" rest) => break_at is_delim rest
  | _ => (EmptyString, url)
  end.

Definition uses_params : list string :=
  [""; "ftp"; "hdl"; "prospero"; "http"; "imap"; "https"; "shttp"; "rtsp";
   "rtspu"; "sip"; "sips"; "mms"; "sftp"; "tel"].

(** The text up to and including the last slash, and the text after it. *)
Fixpoint rsplit_slash (s : string) : option (string * string) :=
  match s with
  | EmptyString => None
  | String c s' =>
      match rsplit_slash s' with
      | Some (a, b) => Some (String c a, b)
      | None => if is_char "/" c then Some (String c EmptyString, s') else None
      end
  end.

(** [_splitparams(url)[0]] *)
Definition strip_params (url : string) : string :=
  match rsplit_slash url with
  | Some (dir, last) => dir +:+ fst (break_at (is_char ";") last)
  | None => fst (break_at (is_char ";") url)
  end.

(** [url.lstrip(_WHATWG_C0_CONTROL_OR_SPACE)]: the characters up to
    the space. *)
Fixpoint lstrip_c0 (url : string) : string :=
  match url with
  | EmptyString => EmptyString
  | String c url' =>
      if (nat_of_ascii c <=? 32)%nat then lstrip_c0 url' else url
  end.

(** Tab, line feed and carriage return, which [urlsplit] removes
    wherever they are. *)
Definition is_unsafe (c : ascii) : bool :=
  let n := nat_of_ascii c in ((n =? 9) || (n =? 10) || (n =? 13))%nat.

Fixpoint remove_unsafe (url : string) : string :=
  match url with
  | EmptyString => EmptyString
  | String c url' =>
      if is_unsafe c then remove_unsafe url' else String c (remove_unsafe url')
  end.

(** [netloc.partition('[')[2].partition(']')[0]] *)
Definition bracketed_host (netloc : string) : string :=
  match snd (break_at (is_char "[") netloc) with
  | String _ after => fst (break_at (is_char "]") after)
  | EmptyString => EmptyString
  end.

Definition is_hex (c : ascii) : bool :=
  let n := nat_of_ascii c in
  ((48 <=? n) && (n <=? 57) || (65 <=? n) && (n <=? 70)
   || (97 <=? n) && (n <=? 102))%nat.

(** The text after the longest run of hexadecimal digits. *)
Fixpoint after_hex (s : string) : string :=
  match s with
  | String c s' => if is_hex c then after_hex s' else s
  | EmptyString => EmptyString
  end.

(** The form of an IPvFuture address, on a host that starts with
    [v]: one hexadecimal digit or more, a dot, one character or
    more. *)
Definition is_ipvfuture (host : string) : bool :=
  match host with
  | String _ (String h rest) =>
      is_hex h &&
      match after_hex rest with
      | String "." (String _ _) => true
      | _ => false
      end
  | _ => false
  end.

(** [_check_bracketed_host]: the host must be an IPvFuture or an IPv6
    address; what holds no colon is no IPv6 address. *)
Definition check_bracketed_host (host : string) : outcome unit :=
  if Str.startswith host "v"
  then if is_ipvfuture host then Ret tt else Raise ValueError
  else if Str.contains ":" host then Ret tt else Raise ValueError.

Definition urlparse_path (url : string) : outcome string :=
  let url0 := remove_unsafe (lstrip_c0 url) in
  let '(scheme, url1) := split_scheme url0 in
  let '(netloc, url2) := split_netloc url1 in
  if xorb (Str.contains "[" netloc) (Str.contains "]" netloc)
  then Raise ValueError
  else
    _ ← (if Str.contains "[" netloc
         then check_bracketed_host (bracketed_host netloc)
         else Ret tt);
    let url3 := fst (break_at (is_char "#") url2) in
    let url4 := fst (break_at (is_char "?") url3) in
    if bool_decide (scheme ∈ uses_params) && Str.contains ";" url4
    then Ret (strip_params url4)
    else Ret url4.

End Urllib.

(** ** [pinterest_scraper.py]: the normaliser and the validity check *)

Module Scraper.

Definition patterns : list (string * string) :=
  [("/236x/", "/originals/");
   ("/474x/", "/originals/");
   ("/564x/", "/originals/");
   ("/736x/", "/originals/");
   ("/originals/", "/originals/")].

(** [PinterestScraper.convert_to_original_url] *)
Definition convert_to_original_url (url : string) : string :=
  if String.eqb url "" || negb (Str.contains "pinimg.com" url) then url
  else fold_left (λ u pr, Str.replace pr.1 pr.2 u) patterns url.

Definition invalid_patterns : list string :=
  ["blob:"; "data:"; "video-thumbnails"; "storypin"; ".gif"].

Definition valid_extensions : list string :=
  [".jpg"; ".jpeg"; ".png"; ".webp"].

(** [any(p in s for p in ps)] *)
Definition any_in (ps : list string) (s : string) : bool :=
  existsb (λ p, Str.contains p s) ps.

(** [any(s.endswith(e) for e in es)] *)
Definition any_endswith (s : string) (es : list string) : bool :=
  existsb (Str.endswith s) es.

Section Validity.
Variable urlparse_path : string → outcome string.

(** [PinterestScraper.is_valid_image_url] *)
Definition is_valid_image_url (url : pyval) : outcome bool :=
  if negb (Py.truthy url) || negb (Py.isinstance_str url) then mret false
  else match url with
       | PyStr u =>
           if any_in invalid_patterns (Str.lower u) then mret false
           else if negb (Str.contains "pinimg.com" u) then mret false
           else
             path ← urlparse_path u;
             let url_path := Str.lower path in
             if negb (any_endswith url_path valid_extensions) then mret false
             else mret true
       | _ => mret false
       end.
End Validity.

(** The dict [extract_pins_from_page] appends for a pin; all four
    values are strings. *)
Record pin : Type := Pin {
  title : string;
  url : string;
  media : string;
  quality : string
}.

(** What the page yields for one pin element: the image source ([src],
    else the last [srcset] candidate; [None] without either), the title
    text and the pin link, the latter two already defaulted and joined. *)
Record candidate : Type := Candidate {
  img_src : option string;
  pin_title : string;
  pin_url : string
}.

(** The de-duplication loop of [scrape_search] (and of [scrape_board]),
    entered with [seen_urls = set()] and [unique_pins = []]. *)
Fixpoint unique_loop (max_pins : Z) (pins : list pin)
    (seen_urls : gset string) (unique_pins : list pin) : list pin :=
  match pins with
  | [] => unique_pins
  | p :: rest =>
      if decide (media p ∈ seen_urls)
      then unique_loop max_pins rest seen_urls unique_pins
      else
        let seen_urls' := seen_urls ∪ {[media p]} in
        let unique_pins' := unique_pins ++ [p] in
        if Z.of_nat (length unique_pins') >=? max_pins
        then unique_pins'
        else unique_loop max_pins rest seen_urls' unique_pins'
  end.

Definition unique_pins (max_pins : Z) (pins : list pin) : list pin :=
  unique_loop max_pins pins ∅ [].

Section Scrape.
Variable urlparse_path : string → outcome string.

(** One turn of the loop of [extract_pins_from_page]: [None] where the
    source runs [continue].  An [Exception] raised inside the turn is
    caught there and the pin is skipped. *)
Definition extract_pin (c : candidate) : outcome (option pin) :=
  Py.try_except
    (match img_src c with
     | None => mret None
     | Some src =>
         if String.eqb src "" then mret None
         else
           let original_url := convert_to_original_url src in
           ok ← is_valid_image_url urlparse_path (PyStr original_url);
           if negb ok then mret None
           else mret (Some {| title := pin_title c;
                              url := pin_url c;
                              media := original_url;
                              quality := "hd-original" |})
     end)
    (λ _, mret None).

Fixpoint extract_pins_from_page (cs : list candidate) : outcome (list pin) :=
  match cs with
  | [] => mret []
  | c :: rest =>
      o ← extract_pin c;
      pins ← extract_pins_from_page rest;
      mret (match o with Some p => p :: pins | None => pins end)
  end.

(** [scrape_search], from the extracted candidates on. *)
Definition scrape_search (cs : list candidate) (max_pins : Z)
  : outcome (list pin) :=
  Py.try_except
    (pins ← extract_pins_from_page cs; mret (unique_pins max_pins pins))
    (λ _, mret []).
End Scrape.

(** The entries of a list in the order of their first occurrence,
    one per [media] value: an entry is kept, and the later entries with
    its key are dropped from what follows. *)
Fixpoint first_occurrences (pins : list pin) : list pin :=
  match pins with
  | [] => []
  | p :: rest => p :: filter (λ q, media q ≠ media p) (first_occurrences rest)
  end.

End Scraper.

(** ** [dev_tools.py]: the classifier of [analyze_cache] *)

Module DevTools.

Inductive domain : Type := Pinimg | Pinterest | OtherDomain.
Inductive url_type : Type := Original | Thumbnail | Unknown.

Definition thumbnail_sizes : list string :=
  ["/236x/"; "/474x/"; "/564x/"; "/736x/"].

Definition classify_domain (url : string) : domain :=
  if Str.contains "pinimg.com" url then Pinimg
  else if Str.contains "pinterest.com" url then Pinterest
  else OtherDomain.

Definition classify_type (url : string) : url_type :=
  if Str.contains "/originals/" url then Original
  else if existsb (λ size, Str.contains size url) thumbnail_sizes then Thumbnail
  else Unknown.

(** The loop of [remove_duplicates]. *)
Fixpoint dedup_loop (data : list pyval) (seen_urls unique_data : list pyval)
  : outcome (list pyval) :=
  match data with
  | [] => mret unique_data
  | item :: rest =>
      url ← Cache.entry_url item;
      if Py.truthy url then
        dup ← Py.set_contains seen_urls url;
        if negb dup
        then dedup_loop rest (url :: seen_urls) (unique_data ++ [item])
        else dedup_loop rest seen_urls unique_data
      else dedup_loop rest seen_urls unique_data
  end.

(** [remove_duplicates], from the loaded JSON value to the list it
    writes back. *)
Definition remove_duplicates (data : pyval) : outcome (list pyval) :=
  _ ← Py.len data;
  items ← Py.iter data;
  dedup_loop items [] [].

End DevTools.


(** ** [validate_images.py]: the validation engine *)

(** What a run does to the outside world. *)
Inductive event : Type :=
  | SessionOpened
  | SessionClosed
  | BatchIssued (tasks : list nat)
  | BatchJoined (tasks : list nat)
  | Slept (seconds : Q)
  | Renamed (src dst : string)
  | Written (path : string) (entries : list pyval).

(** A computation that leaves a trace and returns or raises. *)
Definition io (A : Type) : Type := list event * outcome A.

Module Io.

Definition ret {A : Type} (a : A) : io A := ([], Ret a).

Definition bind {A B : Type} (m : io A) (k : A → io B) : io B :=
  match m with
  | (t, Ret a) => let '(t', r) := k a in (t ++ t', r)
  | (t, Raise e) => (t, Raise e)
  end.

Definition emit (ev : event) : io unit := ([ev], Ret tt).

Definition lift {A : Type} (o : outcome A) : io A := ([], o).

Definition trace {A : Type} (m : io A) : list event := m.1.
Definition result {A : Type} (m : io A) : outcome A := m.2.

Definition raises {A : Type} (m : io A) : Prop := ∃ e, result m = Raise e.

End Io.

#[global] Instance io_ret : MRet io := @Io.ret.
#[global] Instance io_bind : MBind io := λ A B k m, Io.bind m k.

Module Validator.

(** What a request answers: the status and the [Content-Type] header,
    [None] when the header is absent. *)
Record response : Type := Response {
  status : Z;
  content_type : option string
}.

(** [response.headers.get('Content-Type', '')] *)
Definition header_content_type (r : response) : string :=
  default "" (content_type r).

(** The client session, as the remote side answers it.  The same URL
    may be answered differently from one probe to the next, so an
    answer depends on the probing task (its position in [tasks]) as
    well as on the URL. *)
Record session : Type := Session {
  head : nat → string → outcome response;
  get : nat → string → outcome response
}.

(** [ImageValidator.check_url], run by task [task] *)
Definition check_url (s : session) (task : nat) (url : pyval) : outcome bool :=
  if negb (Py.truthy url) || negb (Py.isinstance_str url) then mret false
  else match url with
       | PyStr u =>
           Py.try_except
             (let fallback : outcome bool :=
                response ← get s task u;
                if status response <? 400
                then mret (Str.contains "image"
                             (Str.lower (header_content_type response)))
                else mret false in
              response ← head s task u;
              if status response <? 400 then
                if Str.contains "image" (Str.lower (header_content_type response))
                then mret true
                else fallback
              else fallback)
             (λ _, mret false)
       | _ => mret false
       end.

(** [ImageValidator.validate_entry] *)
Definition validate_entry (s : session) (task : nat) (entry : pyval)
  : outcome (pyval * bool) :=
  url ← Cache.entry_url entry;
  is_valid ← check_url s task url;
  mret (entry, is_valid).

(** The loop that creates the tasks: one per entry with a URL. *)
Fixpoint make_tasks (cache_data : list pyval) : outcome (list pyval) :=
  match cache_data with
  | [] => mret []
  | entry :: rest =>
      url ← Cache.entry_url entry;
      tasks ← make_tasks rest;
      mret (if Py.truthy url then entry :: tasks else tasks)
  end.

Definition batch_size : nat := 10.

(** [range(0, stop, step)] *)
Definition range_step (stop step : nat) : list nat :=
  (λ k, k * step)%nat <$> seq 0 ((stop + step - 1) / step)%nat.

(** [await asyncio.gather] over a batch, the first task of the batch being
    task number [first]: the results in the order of the batch, or the
    exception that escapes a task. *)
Fixpoint gather (s : session) (first : nat) (batch : list pyval)
  : outcome (list (pyval * bool)) :=
  match batch with
  | [] => mret []
  | entry :: rest =>
      r ← validate_entry s first entry;
      rs ← gather s (S first) rest;
      mret (r :: rs)
  end.

(** The loop over the batches, [starts] being what is left of
    [range(0, len(tasks), batch_size)]. *)
Fixpoint run_batches (s : session) (tasks : list pyval) (starts : list nat)
    (valid_entries : list pyval) : io (list pyval) :=
  match starts with
  | [] => mret valid_entries
  | i :: rest =>
      let batch := take batch_size (drop i tasks) in
      let ids := seq i (length batch) in
      _ ← Io.emit (BatchIssued ids);
      results ← Io.lift (gather s i batch);
      _ ← Io.emit (BatchJoined ids);
      let valid_entries' :=
        valid_entries ++ (fst <$> filter (λ r, r.2 = true) results) in
      _ ← Io.emit (Slept (1 # 2));
      run_batches s tasks rest valid_entries'
  end.

(** What [validate_cache] finds at the path of the cache file. *)
Inductive file_state : Type :=
  | Missing
  | Unreadable
  | NotJson
  | Holds (cache_data : pyval).

(** [open] and [json.load] on a file that exists *)
Definition load (f : file_state) : outcome pyval :=
  match f with
  | Missing | Unreadable => Raise OSError
  | NotJson => Raise JSONDecodeError
  | Holds cache_data => Ret cache_data
  end.

(** [ImageValidator.validate_cache] *)
Definition validate_cache (f : file_state) (s : session) : io (list pyval) :=
  match f with
  | Missing => mret []
  | _ =>
      cache_data ← Io.lift (load f);
      _ ← Io.lift (Py.len cache_data);
      _ ← Io.emit SessionOpened;
      entries ← Io.lift (Py.iter cache_data);
      tasks ← Io.lift (make_tasks entries);
      valid_entries ←
        run_batches s tasks (range_step (length tasks) batch_size) [];
      _ ← Io.emit SessionClosed;
      mret valid_entries
  end.

Definition FILES_TO_VALIDATE : list string :=
  ["pinterest_cache.json"; "extension/data/pinterest_cache.json"].

(** The loop of [main] over the files.  [fs] is the state of each path
    when the loop reaches it and [net] the session of the run on it; the
    two paths and their backups are pairwise distinct, so no run reads
    what an earlier one wrote. *)
Fixpoint main_loop (fs : string → file_state) (net : string → session)
    (files : list string) : io unit :=
  match files with
  | [] => mret tt
  | cache_file :: rest =>
      match fs cache_file with
      | Missing => main_loop fs net rest
      | f =>
          valid_entries ← validate_cache f (net cache_file);
          _ ← match valid_entries with
              | [] => mret tt
              | _ :: _ =>
                  let backup_file :=
                    Str.replace ".json" "_backup.json" cache_file in
                  _ ← Io.emit (Renamed cache_file backup_file);
                  Io.emit (Written cache_file valid_entries)
              end;
          main_loop fs net rest
      end
  end.

Definition main (fs : string → file_state) (net : string → session) : io unit :=
  main_loop fs net FILES_TO_VALIDATE.

(** *** Notions the properties are stated with *)

(** No request of the session raises anything but an [Exception]. *)
Definition raises_exceptions_only (s : session) : Prop :=
  ∀ task u e,
    (head s task u = Raise e ∨ get s task u = Raise e) →
    Py.is_Exception e = true.

(** The probe of task [task] on [entry] succeeded. *)
Definition probe_succeeded (s : session) (task : nat) (entry : pyval) : bool :=
  match validate_entry s task entry with
  | Ret (_, is_valid) => is_valid
  | Raise _ => false
  end.

(** The tasks whose probe succeeded, in the order of the tasks; [first]
    is the number of the first task of the list. *)
Fixpoint survivors (s : session) (first : nat) (tasks : list pyval)
  : list pyval :=
  match tasks with
  | [] => []
  | entry :: rest =>
      if probe_succeeded s first entry
      then entry :: survivors s (S first) rest
      else survivors s (S first) rest
  end.

(** The task numbers of batch [k] among [n] tasks, and the trace of a
    run of [m] batches from batch [a] on, none of which raises. *)
Definition batch_ids (n k : nat) : list nat :=
  seq (k * batch_size) (Nat.min batch_size (n - k * batch_size)).

Definition batch_events (n a m : nat) : list event :=
  k ← seq a m;
  [BatchIssued (batch_ids n k); BatchJoined (batch_ids n k); Slept (1 # 2)].

Definition batch_count (n : nat) : nat := ((n + batch_size - 1) / batch_size)%nat.


(** The batches a trace issues, in order. *)
Fixpoint issued (tr : list event) : list (list nat) :=
  match tr with
  | [] => []
  | BatchIssued ids :: tr' => ids :: issued tr'
  | _ :: tr' => issued tr'
  end.

Definition is_session_event (ev : event) : bool :=
  match ev with SessionOpened | SessionClosed => true | _ => false end.

(** The session events of a trace, in order. *)
Fixpoint session_events (tr : list event) : list event :=
  match tr with
  | [] => []
  | ev :: tr' =>
      if is_session_event ev then ev :: session_events tr'
      else session_events tr'
  end.

Definition is_file_event (ev : event) : bool :=
  match ev with Renamed _ _ | Written _ _ => true | _ => false end.

(** The inputs on which the run is fatal. *)
Inductive fatal : file_state → Prop :=
  | fatal_unreadable : fatal Unreadable
  | fatal_not_json : fatal NotJson
  | fatal_unsized v : Py.len v = Raise TypeError → fatal (Holds v)
  | fatal_element v entries x :
      Py.iter v = Ret entries → x ∈ entries → Cache.is_record x = false →
      fatal (Holds v).

(** A session on which every request times out, and one interrupted
    from the keyboard. *)
Definition dead_session : session :=
  {| head := λ _ _, Raise TimeoutError; get := λ _ _, Raise TimeoutError |}.

Definition interrupted_session : session :=
  {| head := λ _ _, Raise KeyboardInterrupt;
     get := λ _ _, Raise KeyboardInterrupt |}.

(** A session that answers 200 with an image but times out on the URLs
    of [dead]. *)
Definition scripted_session (dead : list string) : session :=
  let answer (_ : nat) (u : string) : outcome response :=
    if bool_decide (u ∈ dead) then Raise TimeoutError
    else Ret (Response 200 (Some "image/jpeg")) in
  {| head := answer; get := answer |}.

End Validator.

(** ** More on strings *)

Module Chars.

(** No character of [w] occurs in [s]. *)
Fixpoint foreign (w s : string) : bool :=
  match w with
  | EmptyString => true
  | String c w' => negb (Str.contains (String c EmptyString) s) && foreign w' s
  end.

(** No occurrence of [old] in [a +:+ t] lies across the end of [a]. *)
Definition no_straddle (old a t : string) : Prop :=
  ∀ a1 k1 k2 r,
    a = a1 +:+ k1 → t = k2 +:+ r → old = k1 +:+ k2 → k1 = "" ∨ k2 = "".

End Chars.

(** ** [pinterest_scraper.py]: the rest of a search *)

Module Crawl.

(** [search_url] of [scrape_search]: only spaces are escaped. *)
Definition search_url (keyword : string) : string :=
  "https://www.pinterest.com/search/pins/?q=" +:+ Str.replace " " "%20" keyword.

(** The keyword with every space turned into [%20] and every other
    character left where it is. *)
Fixpoint escape_spaces (keyword : string) : string :=
  match keyword with
  | EmptyString => EmptyString
  | String c rest =>
      if Ascii.eqb c " " then "%20" +:+ escape_spaces rest
      else String c (escape_spaces rest)
  end.

(** [num_scrolls = min(5, (max_pins // 10) + 1)] *)
Definition num_scrolls (max_pins : Z) : Z := Z.min 5 (max_pins / 10 + 1).

(** What [scroll_page] does to the page. *)
Inductive page_event : Type :=
  | Scrolled
  | Waited (seconds : Q).

(** [scroll_page]: [range(scrolls)] turns, none for a negative count. *)
Definition scroll_page (scrolls : Z) : list page_event :=
  _ ← seq 0 (Z.to_nat scrolls); [Scrolled; Waited (3 # 2)].

(** [scrape_search] with [self.results]: the pins it returns and the
    results afterwards.  The results are extended on the returning path
    only; the handler returns [[]] and leaves them as they are. *)
Definition scrape_search_results (urlparse_path : string → outcome string)
    (results : list Scraper.pin) (cs : list Scraper.candidate) (max_pins : Z)
  : outcome (list Scraper.pin * list Scraper.pin) :=
  Py.try_except
    (pins ← Scraper.extract_pins_from_page urlparse_path cs;
     let unique_pins := Scraper.unique_pins max_pins pins in
     mret (unique_pins, results ++ unique_pins))
    (λ _, mret ([], results)).

Definition PINS_PER_KEYWORD : Z := 30.

(** The loop of [main] over the keywords, [pages] holding what the
    page of each keyword yields; the results at the end. *)
Fixpoint scrape_keywords (urlparse_path : string → outcome string)
    (results : list Scraper.pin) (pages : list (list Scraper.candidate))
  : outcome (list Scraper.pin) :=
  match pages with
  | [] => mret results
  | cs :: rest =>
      r ← scrape_search_results urlparse_path results cs PINS_PER_KEYWORD;
      scrape_keywords urlparse_path r.2 rest
  end.

(** The entry [save_results] writes for a pin and [json.load] reads
    back. *)
Definition to_entry (p : Scraper.pin) : pyval :=
  PyDict [("title", PyStr (Scraper.title p));
          ("url", PyStr (Scraper.url p));
          ("media", PyStr (Scraper.media p));
          ("quality", PyStr (Scraper.quality p))].

End Crawl.

(** ** The file system

    What the operating system answers to the operations the tools
    perform on a cache file.  Each may fail: [Path.with_suffix] raises on
    a path without a file name, a rename or a write raises when the
    system refuses it. *)

Module Os.

Record disk : Type := Disk {
  (** [Path(path).with_suffix(suffix)], as a string *)
  with_suffix : string → string → outcome string;
  (** [Path(src).rename(dst)] *)
  rename : string → string → outcome unit;
  (** the making of the parent directory, where the tool makes it,
      [open(path, 'w')] and [json.dump(entries, f)] *)
  dump : string → list pyval → outcome unit
}.

(** A disk on which every rename and every write succeeds. *)
Definition reliable (d : disk) : Prop :=
  (∀ src dst, rename d src dst = Ret tt) ∧
  (∀ path entries, dump d path entries = Ret tt).

End Os.

(** ** [dev_tools.py]: the rest of [remove_duplicates] *)

Module Dedup.

(** The entry is a record whose URL is falsy or can be a member of a
    set. *)
Definition keyable (entry : pyval) : bool :=
  match Cache.entry_url entry with
  | Ret url => negb (Py.truthy url) || Py.hashable url
  | Raise _ => false
  end.

(** The URLs of two entries are equal, as Python compares them. *)
Definition same_url (x y : pyval) : bool :=
  match Cache.entry_url x, Cache.entry_url y with
  | Ret u, Ret v => Py.eqb u v
  | _, _ => false
  end.

(** The URL of the entry is a member of the set. *)
Definition seen (seen_urls : list pyval) (x : pyval) : bool :=
  match Cache.entry_url x with
  | Ret u => existsb (Py.eqb u) seen_urls
  | Raise _ => false
  end.

(** The entries with a URL, in the order of their first occurrence, one
    per URL. *)
Fixpoint first_by_url (data : list pyval) : list pyval :=
  match data with
  | [] => []
  | item :: rest =>
      if Cache.with_url item
      then item :: filter (λ x, same_url item x = false) (first_by_url rest)
      else first_by_url rest
  end.

(** [remove_duplicates] on the file at [filepath], of which [f] tells
    what it holds: the file is renamed to its backup, read from there,
    and written anew.  An event is recorded when the operation has
    succeeded. *)
Definition remove_duplicates_file (d : Os.disk) (filepath : string)
    (f : Validator.file_state) : io unit :=
  match f with
  | Validator.Missing => mret tt
  | _ =>
      backup_path ← Io.lift (Os.with_suffix d filepath ".backup.json");
      _ ← Io.lift (Os.rename d filepath backup_path);
      _ ← Io.emit (Renamed filepath backup_path);
      data ← Io.lift (Validator.load f);
      unique_data ← Io.lift (DevTools.remove_duplicates data);
      _ ← Io.lift (Os.dump d filepath unique_data);
      Io.emit (Written filepath unique_data)
  end.

End Dedup.

(** ** [validate_images.py]: notions for the probe and for [main] *)

Module Probe.
Import Validator.

(** The test both requests of [check_url] put their answer to: a status
    below 400 and a content type with [image] in it, in any case. *)
Definition accepts (r : response) : bool :=
  (status r <? 400) && Str.contains "image" (Str.lower (header_content_type r)).

(** The remote side answers a URL the same way whichever task asks. *)
Definition stable (s : session) : Prop :=
  ∀ i j u, head s i u = head s j u ∧ get s i u = get s j u.

(** No lightweight request gets an answer. *)
Definition offline (s : session) : Prop :=
  ∀ task u, ∃ e, head s task u = Raise e.

(** The renames and writes of a trace, in order. *)
Definition file_events (tr : list event) : list event :=
  filter (λ ev, is_file_event ev = true) tr.

(** [cache_file.replace('.json', '_backup.json')] *)
Definition backup_file (cache_file : string) : string :=
  Str.replace ".json" "_backup.json" cache_file.

(** What [main] does to a file whose run returned [valid_entries]. *)
Definition saved (cache_file : string) (valid_entries : list pyval)
  : list event :=
  match valid_entries with
  | [] => []
  | _ :: _ => [Renamed cache_file (backup_file cache_file);
               Written cache_file valid_entries]
  end.

End Probe.

(** ** [validate_images.py]: [main] on a file system that may fail *)

Module Store.
Import Validator.

(** [ImageValidator.save_validated_cache] *)
Definition save_validated_cache (d : Os.disk) (entries : list pyval)
    (output_file : string) : io unit :=
  _ ← Io.lift (Os.dump d output_file entries);
  Io.emit (Written output_file entries).

(** The loop of [main] over the files, the rename and the write being
    what the file system makes of them. *)
Fixpoint main_loop (d : Os.disk) (fs : string → file_state)
    (net : string → session) (files : list string) : io unit :=
  match files with
  | [] => mret tt
  | cache_file :: rest =>
      match fs cache_file with
      | Missing => main_loop d fs net rest
      | f =>
          valid_entries ← validate_cache f (net cache_file);
          _ ← match valid_entries with
              | [] => mret tt
              | _ :: _ =>
                  let backup_file :=
                    Str.replace ".json" "_backup.json" cache_file in
                  _ ← Io.lift (Os.rename d cache_file backup_file);
                  _ ← Io.emit (Renamed cache_file backup_file);
                  save_validated_cache d valid_entries cache_file
              end;
          main_loop d fs net rest
      end
  end.

Definition main (d : Os.disk) (fs : string → file_state)
    (net : string → session) : io unit :=
  main_loop d fs net FILES_TO_VALIDATE.

(** What [main] does to the files when nothing fails: for each file
    that holds an array, what it does with the survivors. *)
Definition file_plan (fs : string → file_state) (net : string → session)
    (files : list string) : list event :=
  f ← files;
  match fs f with
  | Holds (PyList l) =>
      Probe.saved f (survivors (net f) 0 (filter (λ e, Cache.with_url e = true) l))
  | _ => []
  end.

End Store.

(** ** [dev_tools.py]: the structure test and the analysis of a cache *)

Module CacheTools.

(** [needle in v] for a string [needle]: a substring of a string, an
    element of a list, a key of a dict; nothing else is a container. *)
Definition str_in (needle : string) (v : pyval) : outcome bool :=
  match v with
  | PyStr s => Ret (Str.contains needle s)
  | PyList l => Ret (existsb (Py.eqb (PyStr needle)) l)
  | PyDict items => Ret (existsb (λ kv, String.eqb needle kv.1) items)
  | _ => Raise TypeError
  end.

(** [all(field in v for field in fields)] *)
Fixpoint all_in (fields : list string) (v : pyval) : outcome bool :=
  match fields with
  | [] => mret true
  | field :: rest =>
      b ← str_in field v;
      if negb b then mret false else all_in rest v
  end.

(** [any(field in v for field in fields)] *)
Fixpoint any_in (fields : list string) (v : pyval) : outcome bool :=
  match fields with
  | [] => mret false
  | field :: rest =>
      b ← str_in field v;
      if negb b then any_in rest v else mret true
  end.

(** [test_cache_structure], on what is found at the path of the
    cache. *)
Definition test_cache_structure (f : Validator.file_state) : outcome bool :=
  match f with
  | Validator.Missing => mret false
  | _ =>
      match Validator.load f with
      | Raise JSONDecodeError => mret false
      | Raise e => Raise e
      | Ret data =>
          match data with
          | PyList l =>
              match l with
              | [] => mret false
              | first_entry :: _ =>
                  _ ← all_in ["media"; "title"] first_entry;
                  _ ← all_in ["url"; "type"] first_entry;
                  first_url ← Cache.entry_url first_entry;
                  if Py.truthy first_url then
                    _ ← str_in "pinimg.com" first_url;
                    blob ← str_in "blob:" first_url;
                    if negb blob then
                      _ ← str_in "/originals/" first_url;
                      mret true
                    else mret false
                  else mret true
              end
          | _ => mret false
          end
      end
  end.

(** [item[key]], reached only where [key in item] holds: the value of
    the key in a dict; a string or a list takes no string index. *)
Definition subscript (item : pyval) (key : string) : outcome pyval :=
  match item with
  | PyDict items => Ret (Py.dict_get key items)
  | _ => Raise TypeError
  end.

Fixpoint dict_get_default (k : string) (default : pyval)
    (items : list (string * pyval)) : pyval :=
  match items with
  | [] => default
  | (k', v) :: rest =>
      if String.eqb k k' then v else dict_get_default k default rest
  end.

(** [item.get(key, default)] *)
Definition get_default (item : pyval) (key : string) (default : pyval)
  : outcome pyval :=
  match item with
  | PyDict items => Ret (dict_get_default key default items)
  | _ => Raise AttributeError
  end.

(** The two classifications of the loop of [analyze_cache], on whatever
    value the entry holds. *)
Definition classify_domain (url : pyval) : outcome DevTools.domain :=
  a ← str_in "pinimg.com" url;
  if negb a then
    b ← str_in "pinterest.com" url;
    mret (if negb b then DevTools.OtherDomain else DevTools.Pinterest)
  else mret DevTools.Pinimg.

Definition classify_type (url : pyval) : outcome DevTools.url_type :=
  a ← str_in "/originals/" url;
  if negb a then
    b ← any_in DevTools.thumbnail_sizes url;
    mret (if negb b then DevTools.Unknown else DevTools.Thumbnail)
  else mret DevTools.Original.

(** The counters and lists of the loop. *)
Record tally : Type := Tally {
  has_media : Z;
  has_url_field : Z;
  url_domains : list DevTools.domain;
  url_types : list DevTools.url_type
}.

Definition empty_tally : tally := Tally 0 0 [] [].

(** The URL the loop looks at, [None] where it goes on to the next
    item; the flag tells the [media] branch from the [url] branch. *)
Definition picked_url (item : pyval) : outcome (option (bool * pyval)) :=
  m ← str_in "media" item;
  if negb m then
    u ← str_in "url" item;
    if negb u then mret None
    else url ← get_default item "url" (PyStr ""); mret (Some (false, url))
  else url ← subscript item "media"; mret (Some (true, url)).

Fixpoint analyze_loop (data : list pyval) (t : tally) : outcome tally :=
  match data with
  | [] => mret t
  | item :: rest =>
      o ← picked_url item;
      match o : option (bool * pyval) with
      | None => analyze_loop rest t
      | Some (from_media, url) =>
          d ← classify_domain url;
          ty ← classify_type url;
          analyze_loop rest
            (Tally (if from_media then has_media t + 1 else has_media t)
                   (if from_media then has_url_field t else has_url_field t + 1)
                   (url_domains t ++ [d])
                   (url_types t ++ [ty]))
      end
  end.

Section Analyze.
(** [str(v)] is Python's. *)
Variable py_str : pyval → string.

(** [sum(1 for item in data if word in str(item.get('media', '') or
    item.get('url', '')))] *)
Fixpoint count_mentions (word : string) (data : list pyval) : outcome Z :=
  match data with
  | [] => mret 0
  | item :: rest =>
      m ← get_default item "media" (PyStr "");
      u ← (if Py.truthy m then mret m else get_default item "url" (PyStr ""));
      n ← count_mentions word rest;
      mret (if Str.contains word (py_str u) then 1 + n else n)
  end.

(** What [analyze_cache] prints, as numbers and lists. *)
Record report : Type := Report {
  total : nat;
  counted : tally;
  blob_urls : Z;
  video_urls : Z;
  thumbnails : Z
}.

(** [sum(1 for t in url_types if t == 'thumbnail')] *)
Fixpoint count_thumbnails (types : list DevTools.url_type) : Z :=
  match types with
  | [] => 0
  | DevTools.Thumbnail :: rest => 1 + count_thumbnails rest
  | _ :: rest => count_thumbnails rest
  end.

(** [analyze_cache]: [None] where it finds no file and returns at
    once. *)
Definition analyze_cache (f : Validator.file_state) : outcome (option report) :=
  match f with
  | Validator.Missing => mret None
  | _ =>
      data ← Validator.load f;
      n ← Py.len data;
      items ← Py.iter data;
      t ← analyze_loop items empty_tally;
      blob ← count_mentions "blob:" items;
      video ← count_mentions "video" items;
      mret (Some (Report n t blob video (count_thumbnails (url_types t))))
  end.
End Analyze.

(** *** Notions the properties are stated with *)

(** The counters and the lists of a tally move together. *)
Definition balanced (t : tally) : Prop :=
  0 ≤ has_media t ∧ 0 ≤ has_url_field t ∧
  has_media t + has_url_field t = Z.of_nat (length (url_domains t)) ∧
  length (url_domains t) = length (url_types t).

Definition is_container (v : pyval) : bool :=
  match v with PyStr _ | PyList _ | PyDict _ => true | _ => false end.

Definition has_key (k : string) (items : list (string * pyval)) : bool :=
  existsb (λ kv, String.eqb k kv.1) items.

(** An item the analysis gets through: a record whose [media] value,
    or else whose [url] value, if it has one of the keys, is a string, a
    list or a dict. *)
Definition analyzable (item : pyval) : bool :=
  match item with
  | PyDict items =>
      if has_key "media" items then is_container (Py.dict_get "media" items)
      else if has_key "url" items then is_container (Py.dict_get "url" items)
      else true
  | _ => false
  end.

End CacheTools.

(** ** [test_extension.py]: the extension tester *)

Module Tester.

(** What the tester records.  A message with a formatted part keeps
    the value formatted. *)
Inductive message : Type :=
  | Text (s : string)
  | OnlyEntries (n : nat)
  | UrlNotFromPinterest (url : pyval)
  | InvalidJson (prefix : string).

Record tester : Type := Tester {
  errors : list message;
  warnings : list message;
  tests_passed : Z;
  tests_total : Z
}.

(** [ExtensionTester()] *)
Definition init : tester := Tester [] [] 0 0.

(** [bool(msg)] for an optional message *)
Definition given (msg : option message) : bool :=
  match msg with
  | None => false
  | Some (Text s) => negb (String.eqb s "")
  | Some _ => true
  end.

Definition the (msg : option message) : message := default (Text "") msg.

(** [ExtensionTester.test] *)
Definition test (name : string) (condition : bool)
    (error_msg warning_msg : option message) (t : tester) : tester * bool :=
  let t := Tester (errors t) (warnings t) (tests_passed t) (tests_total t + 1) in
  if condition then
    (Tester (errors t) (warnings t) (tests_passed t + 1) (tests_total t), true)
  else if given error_msg then
    (Tester (errors t ++ [the error_msg]) (warnings t)
       (tests_passed t) (tests_total t), false)
  else if given warning_msg then
    (Tester (errors t) (warnings t ++ [the warning_msg])
       (tests_passed t) (tests_total t), false)
  else (t, false).

Section Files.
(** What is found at each path. *)
Variable fs : string → Validator.file_state.

(** [Path(filepath).exists()] *)
Definition path_exists (filepath : string) : bool :=
  match fs filepath with Validator.Missing => false | _ => true end.

(** [ExtensionTester.test_file_exists] *)
Definition test_file_exists (filepath : string) (required : bool)
    (t : tester) : tester * bool :=
  let name := "File exists: " +:+ filepath in
  let t' :=
    if required then
      (test name (path_exists filepath)
         (Some (Text ("Required file missing: " +:+ filepath))) None t).1
    else
      (test name (path_exists filepath) None
         (Some (Text ("Optional file missing: " +:+ filepath))) t).1 in
  (t', path_exists filepath).

(** A loop of [test_file_exists] over a list of paths. *)
Fixpoint test_files (paths : list string) (required : bool) (t : tester)
  : tester :=
  match paths with
  | [] => t
  | filepath :: rest =>
      test_files rest required (test_file_exists filepath required t).1
  end.

Definition required_files : list string :=
  ["extension/background.js"; "extension/newtab.html"; "extension/newtab.js";
   "extension/popup.html"; "extension/popup.js"; "extension/styles.css"].

Definition icon_files : list string :=
  ["extension/icons/icon16.png"; "extension/icons/icon48.png";
   "extension/icons/icon128.png"].

Definition tools : list string :=
  ["pinterest_scraper.py"; "validate_images.py"; "quick_fix.py";
   "dev_tools.py"; "requirements.txt"].

Definition test_extension_files (t : tester) : tester :=
  test_files required_files true t.
Definition test_icons (t : tester) : tester := test_files icon_files false t.
Definition test_python_tools (t : tester) : tester :=
  test_files tools false t.

Definition manifest_path : string := "extension/manifest.json".
Definition cache_path : string := "extension/data/pinterest_cache.json".

Definition required_fields : list string :=
  ["manifest_version"; "name"; "version"; "permissions"; "background";
   "chrome_url_overrides"].

(** The loop over the required fields of the manifest. *)
Fixpoint test_fields (fields : list string) (manifest : pyval) (t : tester)
  : outcome tester :=
  match fields with
  | [] => mret t
  | field :: rest =>
      present ← CacheTools.str_in field manifest;
      test_fields rest manifest
        (test ("Manifest has '" +:+ field +:+ "'") present
           (Some (Text ("Missing required field in manifest: " +:+ field)))
           None t).1
  end.

(** The loop over the required permissions. *)
Fixpoint test_perms (required_perms : list string) (perms : pyval)
    (t : tester) : outcome tester :=
  match required_perms with
  | [] => mret t
  | perm :: rest =>
      present ← CacheTools.str_in perm perms;
      test_perms rest perms
        (test ("Has permission: " +:+ perm) present
           (Some (Text ("Missing permission: " +:+ perm))) None t).1
  end.

(** [a and b], the second operand evaluated where the first holds. *)
Definition and_then (a : outcome bool) (b : outcome bool) : outcome bool :=
  x ← a; if negb x then mret false else b.

(** [a or b], the second operand evaluated where the first fails. *)
Definition or_else (a : outcome bool) (b : outcome bool) : outcome bool :=
  x ← a; if negb x then b else mret true.

(** [ExtensionTester.test_manifest] *)
Definition test_manifest (t : tester) : outcome tester :=
  let '(t, found) := test_file_exists manifest_path true t in
  if negb found then mret t
  else
    match Validator.load (fs manifest_path) with
    | Raise JSONDecodeError =>
        mret (test "Valid JSON in manifest" false
                (Some (InvalidJson "Invalid JSON in manifest.json: ")) None t).1
    | Raise e => Raise e
    | Ret manifest =>
        t ← test_fields required_fields manifest t;
        version ← Py.get manifest "manifest_version";
        let t := (test "Manifest version 3" (Py.eqb version (PyInt 3))
                    (Some (Text "Must use manifest version 3")) None t).1 in
        csp ← CacheTools.get_default manifest "content_security_policy"
                (PyDict []);
        t ← match csp with
            | PyDict _ =>
                ext_pages ← CacheTools.get_default csp "extension_pages"
                              (PyStr "");
                allowed ← and_then (CacheTools.str_in "https:" ext_pages)
                                   (CacheTools.str_in "img-src" ext_pages);
                mret (test "CSP allows HTTPS images" allowed None
                        (Some (Text "CSP may not allow external images")) t).1
            | _ => mret t
            end;
        perms ← CacheTools.get_default manifest "permissions" (PyList []);
        test_perms ["storage"; "alarms"] perms t
    end.

(** [ExtensionTester.test_cache] *)
Definition test_cache (t : tester) : outcome tester :=
  let '(t, found) := test_file_exists cache_path true t in
  if negb found then
    mret (Tester (errors t ++ [Text "Run: python pinterest_scraper.py"])
            (warnings t) (tests_passed t) (tests_total t))
  else
    match Validator.load (fs cache_path) with
    | Raise JSONDecodeError =>
        mret (test "Valid JSON in cache" false
                (Some (InvalidJson "Invalid JSON in cache: ")) None t).1
    | Raise e => Raise e
    | Ret cache =>
        match cache with
        | PyList l =>
            let t := (test "Cache is JSON array" true
                        (Some (Text "Cache must be a JSON array")) None t).1 in
            match l with
            | [] =>
                mret (test "Cache has entries" false
                        (Some (Text "Cache is empty - run pinterest_scraper.py"))
                        None t).1
            | first :: _ =>
                let t := (test "Cache has entries" true
                            (Some (Text "Cache is empty - run pinterest_scraper.py"))
                            None t).1 in
                let t := (test "Cache has 10+ entries" (10 <=? length l)%nat
                            None (Some (OnlyEntries (length l))) t).1 in
                has_media ← CacheTools.str_in "media" first;
                has_url ← CacheTools.str_in "url" first;
                let t := (test "Entries have image URL" (has_media || has_url)
                            (Some (Text "Entries missing 'media' or 'url' field"))
                            None t).1 in
                url ← Cache.entry_url first;
                if Py.truthy url then
                  from_pinterest ←
                    or_else (CacheTools.str_in "pinimg.com" url)
                            (CacheTools.str_in "pinterest.com" url);
                  let t := (test "URL is from Pinterest" from_pinterest None
                              (Some (UrlNotFromPinterest url)) t).1 in
                  blob ← CacheTools.str_in "blob:" url;
                  let t := (test "URL is not blob" (negb blob)
                              (Some (Text "Cache contains blob URLs (won't work)"))
                              None t).1 in
                  original ← CacheTools.str_in "/originals/" url;
                  mret (test "URL is original quality" original None
                          (Some (Text "URLs are thumbnails - run quick_fix.py"))
                          t).1
                else mret t
            end
        | _ =>
            mret (test "Cache is JSON array" false
                    (Some (Text "Cache must be a JSON array")) None t).1
        end
    end.

(** [ExtensionTester.run_all_tests]: the tester at the end, and whether
    the run ends in [sys.exit(1)]. *)
Definition run_all_tests (t : tester) : outcome (tester * bool) :=
  t ← test_manifest t;
  let t := test_extension_files t in
  t ← test_cache t;
  let t := test_icons t in
  let t := test_python_tools t in
  mret (t, match errors t with [] => false | _ :: _ => true end).
End Files.

(** *** Notions the properties are stated with *)

(** The failures so far, and the state of a tester that is sound: it
    never counts more passes than tests, and it has something to report
    only after a failure. *)
Definition sound (t : tester) : Prop :=
  0 ≤ tests_passed t ≤ tests_total t ∧
  (tests_passed t = tests_total t → errors t = [] ∧ warnings t = []).

(** The paths whose absence is a warning only. *)
Definition optional_paths : list string := icon_files ++ tools.

End Tester.

(** ** [setup.py]: the set-up flow *)

Module Setup.

(** The programs the script starts with [subprocess.check_call]. *)
Inductive command : Type :=
  | PipInstall
  | PlaywrightInstall
  | RunScraper
  | RunValidator.

(** What the script tells the user about the scrape. *)
Inductive verdict : Type :=
  | ScrapingCompleted
  | ScrapingFailed.

(** What the script does, in order; the other lines it prints are left
    out. *)
Inductive step : Type :=
  | Ran (c : command)
  | Asked
  | Reported (v : verdict)
  | MadeDataDir.

(** The machine and the user the script meets.  A command either
    returns or ends in [CalledProcessError]. *)
Record world : Type := World {
  major : Z;
  minor : Z;
  succeeds : command → bool;
  file_exists : string → bool;
  scrape_answer : string;
  validate_answer : string
}.

(** [sys.version_info < (3, 8)] *)
Definition too_old (w : world) : bool :=
  (major w <? 3) || ((major w =? 3) && (minor w <? 8)).

(** [install_dependencies] and [install_playwright_browsers] *)
Definition install (c : command) (w : world) : list step * bool :=
  ([Ran c], succeeds w c).

Definition required_files : list string :=
  ["extension/manifest.json"; "extension/background.js";
   "extension/newtab.html"; "extension/newtab.js"; "extension/popup.html";
   "extension/popup.js"; "extension/styles.css"].

(** [check_extension_structure] *)
Definition check_extension_structure (w : world) : bool :=
  let missing := filter (λ file, file_exists w file = false) required_files in
  match missing with
  | [] => true
  | _ :: _ => false
  end.

(** [response.lower() in ['y', 'yes']] *)
Definition agreed (response : string) : bool :=
  let r := Str.lower response in String.eqb r "y" || String.eqb r "yes".

(** [run_scraper] *)
Definition run_scraper (w : world) : list step :=
  Asked ::
  if agreed (scrape_answer w) then
    Ran RunScraper ::
    if succeeds w RunScraper then
      Reported ScrapingCompleted :: Asked ::
      if agreed (validate_answer w) then
        Ran RunValidator ::
        if succeeds w RunValidator then [] else [Reported ScrapingFailed]
      else []
    else [Reported ScrapingFailed]
  else [].

(** [main]: what it does, and the status [sys.exit] ends it with, if it
    does. *)
Definition main (w : world) : list step * option Z :=
  if too_old w then ([], Some 1)
  else
    let '(s1, ok1) := install PipInstall w in
    if negb ok1 then (s1, Some 1)
    else
      let '(s2, ok2) := install PlaywrightInstall w in
      if negb ok2 then (s1 ++ s2, Some 1)
      else if negb (check_extension_structure w) then (s1 ++ s2, Some 1)
      else (s1 ++ s2 ++ MadeDataDir :: run_scraper w, None).

(** *** Notions the properties are stated with *)

(** The commands a run starts, in order. *)
Fixpoint commands (steps : list step) : list command :=
  match steps with
  | [] => []
  | Ran c :: rest => c :: commands rest
  | _ :: rest => commands rest
  end.

(** Everything [main] checks before it creates or scrapes anything. *)
Definition ready (w : world) : bool :=
  negb (too_old w) && succeeds w PipInstall && succeeds w PlaywrightInstall
  && forallb (file_exists w) required_files.

End Setup.
(** ** Facts about the string operations *)

Section StrFacts.
Import Str.

Lemma sapp_nil_l (s : string) : "" +:+ s = s.
Proof. reflexivity. Qed.

Lemma sapp_cons (c : ascii) (s t : string) :
  String c s +:+ t = String c (s +:+ t).
Proof. reflexivity. Qed.

Lemma sapp_nil_r (s : string) : s +:+ "" = s.
Proof. induction s as [|c s IH]; [done | by rewrite sapp_cons, IH]. Qed.

Lemma sapp_assoc (a b c : string) : (a +:+ b) +:+ c = a +:+ b +:+ c.
Proof. induction a as [|x a IH]; [done | by rewrite !sapp_cons, IH]. Qed.

Lemma sapp_length (a b : string) :
  String.length (a +:+ b) = (String.length a + String.length b)%nat.
Proof. induction a as [|x a IH]; [done | rewrite sapp_cons; simpl; by rewrite IH]. Qed.

Lemma startswith_spec (s p : string) : startswith s p = true ↔ is_prefix p s.
Proof.
  revert s. induction p as [|a p IH]; intros s; simpl.
  - split; [intros _; exists s; reflexivity | reflexivity].
  - destruct s as [|b s].
    + split; [done | intros [t Ht]; discriminate].
    + rewrite andb_true_iff, Ascii.eqb_eq, IH. split.
      * intros [-> [t ->]]. by exists t.
      * intros [t Ht]. rewrite sapp_cons in Ht. injection Ht as -> ->.
        split; [done | by exists t].
Qed.

Lemma contains_spec (p s : string) : contains p s = true ↔ occurs p s.
Proof.
  induction s as [|c s IH]; simpl.
  - rewrite orb_false_r, startswith_spec. split.
    + intros [t Ht]. exists "", t. by rewrite sapp_nil_l.
    + intros [a [b Hab]]. destruct a; [by exists b | discriminate].
  - rewrite orb_true_iff, startswith_spec, IH. split.
    + intros [[t Ht] | [a [b Hab]]].
      * exists "", t. by rewrite sapp_nil_l.
      * exists (String c a), b. by rewrite sapp_cons, Hab.
    + intros [a [b Hab]]. destruct a as [|x a].
      * left. by exists b.
      * right. rewrite sapp_cons in Hab. injection Hab as -> ->. by exists a, b.
Qed.

Lemma endswith_spec (s e : string) : endswith s e = true ↔ is_suffix e s.
Proof.
  induction s as [|c s IH].
  - change (endswith "" e) with (String.eqb "" e || false).
    rewrite orb_false_r, String.eqb_eq. split.
    + intros <-. exists "". reflexivity.
    + intros [t Ht]. destruct t; [done | discriminate].
  - change (endswith (String c s) e)
      with (String.eqb (String c s) e || endswith s e).
    rewrite orb_true_iff, String.eqb_eq, IH. split.
    + intros [<- | [t ->]]; [exists ""; reflexivity | exists (String c t); reflexivity].
    + intros [t Ht]. destruct t as [|x t].
      * by left.
      * right. rewrite sapp_cons in Ht. injection Ht as -> ->. by exists t.
Qed.

Lemma lower_app (a b : string) : lower (a +:+ b) = lower a +:+ lower b.
Proof.
  induction a as [|x a IH]; [done|].
  rewrite sapp_cons. simpl. by rewrite IH, sapp_cons.
Qed.

Lemma occurs_app_l (p a b : string) : occurs p a → occurs p (a +:+ b).
Proof.
  intros [x [y ->]]. exists x, (y +:+ b). by rewrite !sapp_assoc.
Qed.

Lemma occurs_app_r (p a b : string) : occurs p b → occurs p (a +:+ b).
Proof.
  intros [x [y ->]]. exists (a +:+ x), y. by rewrite !sapp_assoc.
Qed.

Lemma occurs_cons (p : string) (c : ascii) (s : string) :
  occurs p s → occurs p (String c s).
Proof. apply (occurs_app_r p (String c "") s). Qed.

(** Consuming the rest of a match. *)
Lemma replace_from_skip (old new a t : string) :
  replace_from old new (String.length a) (a +:+ t) = replace_from old new 0 t.
Proof.
  induction a as [|x a IH]; [done|]. by rewrite sapp_cons.
Qed.

Lemma replace_from_0 (old new : string) (c : ascii) (s : string) :
  replace_from old new 0 (String c s) =
  if startswith (String c s) old
  then new +:+ replace_from old new (String.length old - 1) s
  else String c (replace_from old new 0 s).
Proof. reflexivity. Qed.

(** The two equations of the scan. *)
Lemma replace_match (old new t : string) :
  old ≠ "" → replace old new (old +:+ t) = new +:+ replace old new t.
Proof.
  intros Hne. destruct old as [|c old]; [done|].
  unfold replace. rewrite sapp_cons, replace_from_0.
  assert (startswith (String c (old +:+ t)) (String c old) = true) as ->.
  { apply startswith_spec. by exists t. }
  change (String.length (String c old) - 1)%nat with (String.length old - 0)%nat.
  by rewrite Nat.sub_0_r, replace_from_skip.
Qed.

Lemma replace_no_match (old new : string) (c : ascii) (s : string) :
  startswith (String c s) old = false →
  replace old new (String c s) = String c (replace old new s).
Proof. intros H. unfold replace. by rewrite replace_from_0, H. Qed.

(** Without an occurrence of the pattern nothing changes. *)
Lemma replace_absent (old new s : string) :
  contains old s = false → replace old new s = s.
Proof.
  induction s as [|c s IH]; [done|].
  intros H. simpl in H. apply orb_false_iff in H as [H1 H2].
  rewrite replace_no_match by done. by rewrite IH.
Qed.

(** With one, the replacement text occurs in the result. *)
Lemma replace_present (old new s : string) :
  old ≠ "" → contains old s = true → occurs new (replace old new s).
Proof.
  intros Hne. induction s as [|c s IH]; intros H.
  - simpl in H. rewrite orb_false_r in H. destruct old; [done | discriminate].
  - destruct (startswith (String c s) old) eqn:Hs.
    + apply startswith_spec in Hs as [t ->].
      rewrite replace_match by done.
      exists "", (replace old new t). reflexivity.
    + rewrite replace_no_match by done.
      simpl in H. rewrite Hs in H. simpl in H.
      apply occurs_cons. by apply IH.
Qed.

End StrFacts.

Example urlparse_path_photo :
  Urllib.urlparse_path "https://i.pinimg.com/originals/ab/cd/photo.jpg?x=1;y#top"
  = Ret "/originals/ab/cd/photo.jpg".
Proof. vm_compute. reflexivity. Qed.

(** [urlparse] rejects a host with an unbalanced bracket; the validity
    check then raises, which [extract_pins_from_page] catches. *)
Example is_valid_image_url_bad_host :
  Scraper.is_valid_image_url Urllib.urlparse_path
    (PyStr "https://[i.pinimg.com/originals/ab/cd/photo.jpg") = Raise ValueError.
Proof. vm_compute. reflexivity. Qed.

Example convert_thumb :
  Scraper.convert_to_original_url "https://i.pinimg.com/236x/ab/cd/photo.jpg"
  = "https://i.pinimg.com/originals/ab/cd/photo.jpg".
Proof. vm_compute. reflexivity. Qed.

(** ** The validity check *)

Section ValidityFacts.
Import Str Scraper.
Variable urlparse_path : string → outcome string.

Lemma any_in_spec (ps : list string) (s : string) :
  any_in ps s = true ↔ ∃ p, p ∈ ps ∧ occurs p s.
Proof.
  unfold any_in. rewrite existsb_exists. split.
  - intros [p [Hin Hp]]. exists p. split; [by apply list_elem_of_In|].
    by apply contains_spec.
  - intros [p [Hin Hp]]. exists p. split; [by apply list_elem_of_In|].
    by apply contains_spec.
Qed.

Lemma any_endswith_spec (s : string) (es : list string) :
  any_endswith s es = true ↔ ∃ e, e ∈ es ∧ is_suffix e s.
Proof.
  unfold any_endswith. rewrite existsb_exists. split.
  - intros [e [Hin He]]. exists e. split; [by apply list_elem_of_In|].
    by apply endswith_spec.
  - intros [e [Hin He]]. exists e. split; [by apply list_elem_of_In|].
    by apply endswith_spec.
Qed.

Lemma occurs_lower (p s : string) : occurs p s → occurs (lower p) (lower s).
Proof. intros [a [b ->]]. exists (lower a), (lower b). by rewrite !lower_app. Qed.

Lemma invalid_patterns_lower (p : string) :
  p ∈ invalid_patterns → lower p = p.
Proof.
  unfold invalid_patterns. intros H.
  repeat (apply elem_of_cons in H as [-> | H]; [by vm_compute|]).
  by apply elem_of_nil in H.
Qed.

(** The check on a string, as one cascade. *)
Lemma is_valid_image_url_str (u : string) :
  is_valid_image_url urlparse_path (PyStr u) =
  if String.eqb u "" then Ret false
  else if any_in invalid_patterns (lower u) then Ret false
  else if negb (contains "pinimg.com" u) then Ret false
  else path ← urlparse_path u;
       if negb (any_endswith (lower path) valid_extensions) then Ret false
       else Ret true.
Proof.
  unfold is_valid_image_url. simpl Py.truthy. simpl Py.isinstance_str.
  by destruct (String.eqb u "").
Qed.

Lemma is_valid_image_url_non_str (url : pyval) :
  (∀ u, url ≠ PyStr u) → is_valid_image_url urlparse_path url = Ret false.
Proof.
  intros H. unfold is_valid_image_url.
  destruct url; try (by rewrite orb_true_r). by destruct (H s).
Qed.

Lemma is_valid_image_url_denied (u pat : string) :
  pat ∈ invalid_patterns → occurs pat (lower u) →
  is_valid_image_url urlparse_path (PyStr u) = Ret false.
Proof.
  intros Hin Hocc. rewrite is_valid_image_url_str.
  destruct (String.eqb u ""); [done|].
  assert (any_in invalid_patterns (lower u) = true) as ->; [|done].
  apply any_in_spec. by exists pat.
Qed.

Lemma is_valid_image_url_accepts (url : pyval) :
  is_valid_image_url urlparse_path url = Ret true →
  ∃ u path ext,
    url = PyStr u ∧ u ≠ "" ∧
    (∀ pat, pat ∈ invalid_patterns → ¬ occurs pat (lower u)) ∧
    occurs "pinimg.com" u ∧
    urlparse_path u = Ret path ∧
    ext ∈ valid_extensions ∧ is_suffix ext (lower path).
Proof.
  intros H.
  destruct (Py.isinstance_str url) eqn:Hstr.
  2:{ rewrite is_valid_image_url_non_str in H; [done|].
      intros u ->. done. }
  destruct url as [| | | |u| |]; try done.
  rewrite is_valid_image_url_str in H.
  destruct (String.eqb u "") eqn:Hu; [done|].
  destruct (any_in invalid_patterns (lower u)) eqn:Hdeny; [done|].
  destruct (contains "pinimg.com" u) eqn:Hcdn; [|done].
  unfold negb, mbind, outcome_bind, Py.bind in H.
  destruct (urlparse_path u) as [path|e] eqn:Hpath; [|done].
  destruct (any_endswith (lower path) valid_extensions) eqn:Hext; [|done].
  apply any_endswith_spec in Hext as [ext [Hin Hsuf]].
  exists u, path, ext. repeat split; try done.
  - intros ->. done.
  - intros pat Hpat Hocc.
    assert (any_in invalid_patterns (lower u) = true); [|congruence].
    apply any_in_spec. by exists pat.
  - by apply contains_spec.
Qed.

(** Past the first three checks the answer is [urlparse]'s: the test
    of the extension on the path it returns, or the error it raises. *)
Lemma is_valid_image_url_raises (u : string) (e : exn) :
  u ≠ "" →
  (∀ pat, pat ∈ invalid_patterns → ¬ occurs pat (lower u)) →
  occurs "pinimg.com" u →
  urlparse_path u = Raise e →
  is_valid_image_url urlparse_path (PyStr u) = Raise e.
Proof.
  intros Hu Hdeny Hcdn Hpath. rewrite is_valid_image_url_str.
  apply String.eqb_neq in Hu. rewrite Hu.
  destruct (any_in invalid_patterns (lower u)) eqn:Hd.
  - apply any_in_spec in Hd as (pat & Hin & Hocc). by destruct (Hdeny pat Hin).
  - apply contains_spec in Hcdn. rewrite Hcdn. simpl negb. cbv iota.
    by rewrite Hpath.
Qed.

(** The check answers, unless [urlparse] raises, and then it raises the
    same. *)
Lemma is_valid_image_url_outcome (url : pyval) :
  (∃ b, is_valid_image_url urlparse_path url = Ret b) ∨
  ∃ u e, url = PyStr u ∧ urlparse_path u = Raise e ∧
         is_valid_image_url urlparse_path url = Raise e.
Proof.
  destruct (Py.isinstance_str url) eqn:Hstr.
  2:{ left. exists false. apply is_valid_image_url_non_str.
      intros u ->. done. }
  destruct url as [| | | |u| |]; try done.
  rewrite is_valid_image_url_str.
  destruct (String.eqb u ""); [left; by eexists|].
  destruct (any_in invalid_patterns (lower u)); [left; by eexists|].
  destruct (negb (contains "pinimg.com" u)); [left; by eexists|].
  destruct (urlparse_path u) as [path|e] eqn:Hpath.
  - left. unfold mbind, outcome_bind, Py.bind.
    destruct (negb (any_endswith (lower path) valid_extensions)); by eexists.
  - right. by exists u, e.
Qed.

End ValidityFacts.

(** C4, as stated, fails: [urlparse] refuses a host with an unbalanced
    bracket, and on such a URL that passes the first three checks the
    validity check raises [ValueError] where the claim has it return
    [False]. *)
Lemma is_valid_image_url_raises_on_bad_host :
  Scraper.is_valid_image_url Urllib.urlparse_path
    (PyStr "https://[i.pinimg.com/originals/ab/cd/photo.txt") = Raise ValueError ∧
  ¬ (∀ (urlparse_path : string → outcome string) (u : string),
       (∀ path ext,
          urlparse_path u = Ret path → ext ∈ Scraper.valid_extensions →
          ¬ Str.is_suffix ext (Str.lower path)) →
       Scraper.is_valid_image_url urlparse_path (PyStr u) = Ret false).
Proof.
  split; [by vm_compute|]. intros H.
  specialize (H Urllib.urlparse_path
                "https://[i.pinimg.com/originals/ab/cd/photo.txt").
  assert (Scraper.is_valid_image_url Urllib.urlparse_path
            (PyStr "https://[i.pinimg.com/originals/ab/cd/photo.txt")
          = Raise ValueError) as Hraise by by vm_compute.
  rewrite Hraise in H. discriminate H.
  intros path ext Hpath. vm_compute in Hpath. discriminate Hpath.
Qed.

(** C4, amended.  [is_valid_image_url] never answers [True] unless all
    five checks pass.  Whatever [urlparse] does, the check returns
    [False] for every value that is not a non-empty string, for every URL
    in which a deny-list pattern occurs (as written or after lower-casing,
    wherever and on whatever domain), for every URL in which the CDN host
    does not occur, and for every URL that [urlparse] splits and whose
    path, lower-cased, ends in none of .jpg, .jpeg, .png, .webp.  A URL
    that passes the first three checks and that [urlparse] refuses makes
    the check raise what [urlparse] raises; this is the only way in which
    it does not answer.  It accepts
    https://i.pinimg.com/originals/ab/cd/photo.jpg and rejects
    https://i.pinimg.com/originals/ab/cd/photo.gif. *)
Theorem is_valid_image_url_fails_closed :
  (∀ urlparse_path : string → outcome string,
     (∀ url, (∀ u, url ≠ PyStr u) ∨ url = PyStr "" →
        Scraper.is_valid_image_url urlparse_path url = Ret false) ∧
     (∀ u pat, pat ∈ Scraper.invalid_patterns →
        Str.occurs pat u ∨ Str.occurs pat (Str.lower u) →
        Scraper.is_valid_image_url urlparse_path (PyStr u) = Ret false) ∧
     (∀ u, ¬ Str.occurs "pinimg.com" u →
        Scraper.is_valid_image_url urlparse_path (PyStr u) = Ret false) ∧
     (∀ u path, urlparse_path u = Ret path →
        (∀ ext, ext ∈ Scraper.valid_extensions →
           ¬ Str.is_suffix ext (Str.lower path)) →
        Scraper.is_valid_image_url urlparse_path (PyStr u) = Ret false) ∧
     (∀ u e, u ≠ "" →
        (∀ pat, pat ∈ Scraper.invalid_patterns →
           ¬ Str.occurs pat (Str.lower u)) →
        Str.occurs "pinimg.com" u →
        urlparse_path u = Raise e →
        Scraper.is_valid_image_url urlparse_path (PyStr u) = Raise e) ∧
     (∀ url,
        (∃ b, Scraper.is_valid_image_url urlparse_path url = Ret b) ∨
        ∃ u e, url = PyStr u ∧ urlparse_path u = Raise e ∧
               Scraper.is_valid_image_url urlparse_path url = Raise e) ∧
     (∀ url, Scraper.is_valid_image_url urlparse_path url = Ret true →
        ∃ u path ext,
          url = PyStr u ∧ u ≠ "" ∧
          (∀ pat, pat ∈ Scraper.invalid_patterns →
             ¬ Str.occurs pat (Str.lower u)) ∧
          Str.occurs "pinimg.com" u ∧
          urlparse_path u = Ret path ∧
          ext ∈ Scraper.valid_extensions ∧
          Str.is_suffix ext (Str.lower path)) ∧
     Scraper.is_valid_image_url urlparse_path
       (PyStr "https://i.pinimg.com/originals/ab/cd/photo.gif") = Ret false) ∧
  Scraper.is_valid_image_url Urllib.urlparse_path
    (PyStr "https://i.pinimg.com/originals/ab/cd/photo.jpg") = Ret true.
Proof.
  split; [|by vm_compute].
  intros urlparse_path. split_and!.
  - intros url [Hns | ->].
    + by apply is_valid_image_url_non_str.
    + by rewrite is_valid_image_url_str.
  - intros u pat Hin [Hocc | Hocc].
    + apply (is_valid_image_url_denied _ u pat Hin).
      rewrite <- (invalid_patterns_lower pat Hin). by apply occurs_lower.
    + by apply (is_valid_image_url_denied _ u pat Hin).
  - intros u Hno. rewrite is_valid_image_url_str.
    destruct (String.eqb u ""); [done|].
    destruct (Scraper.any_in _ _); [done|].
    destruct (Str.contains "pinimg.com" u) eqn:Hc; [|done].
    by apply contains_spec in Hc.
  - intros u path Hpath Hext. rewrite is_valid_image_url_str.
    destruct (String.eqb u ""); [done|].
    destruct (Scraper.any_in _ _); [done|].
    destruct (negb (Str.contains "pinimg.com" u)); [done|].
    rewrite Hpath. unfold mbind, outcome_bind, Py.bind.
    destruct (Scraper.any_endswith _ _) eqn:He; [|done].
    apply any_endswith_spec in He as [ext [Hin Hsuf]].
    by destruct (Hext ext Hin).
  - apply is_valid_image_url_raises.
  - apply is_valid_image_url_outcome.
  - apply is_valid_image_url_accepts.
  - apply (is_valid_image_url_denied _ _ ".gif").
    + unfold Scraper.invalid_patterns. set_solver.
    + apply contains_spec. by vm_compute.
Qed.

(** C10. The deny-list is matched against the whole lower-cased URL, not
    against its extension: a URL in which some spelling of ".gif" occurs
    anywhere, in any letter case, is rejected, whatever its path ends in. *)
Theorem gif_anywhere_any_case_rejected
    (urlparse_path : string → outcome string) (a g b : string) :
  Str.lower g = ".gif" →
  Scraper.is_valid_image_url urlparse_path (PyStr (a +:+ g +:+ b)) = Ret false.
Proof.
  intros Hg. apply (is_valid_image_url_denied _ _ ".gif").
  - unfold Scraper.invalid_patterns. set_solver.
  - rewrite !lower_app, Hg. by exists (Str.lower a), (Str.lower b).
Qed.

Lemma gif_anywhere_any_case_rejected_witness :
  Scraper.is_valid_image_url Urllib.urlparse_path
    (PyStr "https://i.pinimg.com/x.gifts/photo.jpg") = Ret false ∧
  Scraper.is_valid_image_url Urllib.urlparse_path
    (PyStr "https://i.pinimg.com/originals/ab/photo.GIF") = Ret false.
Proof.
  split.
  - apply (gif_anywhere_any_case_rejected Urllib.urlparse_path
             "https://i.pinimg.com/x" ".gif" "ts/photo.jpg").
    vm_compute. reflexivity.
  - apply (gif_anywhere_any_case_rejected Urllib.urlparse_path
             "https://i.pinimg.com/originals/ab/photo" ".GIF" "").
    vm_compute. reflexivity.
Defined.

(** ** The normaliser *)

Section NormaliserFacts.
Import Str Scraper DevTools.

Lemma drop_app (a t : string) : drop (String.length a) (a +:+ t) = t.
Proof. induction a as [|x a IH]; [by destruct t | by rewrite sapp_cons]. Qed.

(** Replacing a pattern by itself rebuilds the string. *)
Lemma replace_from_same (p : string) (s : string) :
  p ≠ "" → ∀ skip, replace_from p p skip s = drop skip s.
Proof.
  intros Hp. induction s as [|c s IH]; intros skip; [by destruct skip|].
  destruct skip as [|k]; [|apply IH].
  rewrite replace_from_0.
  destruct (startswith (String c s) p) eqn:Hs.
  - apply startswith_spec in Hs as [t Ht].
    destruct p as [|x p].
    + done.
    + rewrite sapp_cons in Ht. injection Ht as -> ->.
      rewrite IH, sapp_cons.
      change (String.length (String x p) - 1)%nat with (String.length p - 0)%nat.
      by rewrite Nat.sub_0_r, drop_app.
  - by rewrite IH.
Qed.

Lemma replace_same (p s : string) : p ≠ "" → replace p p s = s.
Proof. intros Hp. unfold replace. by rewrite replace_from_same. Qed.

(** What one pass of the loop does to the presence of "/originals/". *)
Lemma replace_hits (p s : string) :
  p ≠ "" → contains p s = true →
  contains "/originals/" (replace p "/originals/" s) = true.
Proof. intros Hp H. apply contains_spec. by apply replace_present. Qed.

Lemma replace_keeps (p s : string) :
  p ≠ "" → contains "/originals/" s = true →
  contains "/originals/" (replace p "/originals/" s) = true.
Proof.
  intros Hp H. destruct (contains p s) eqn:Hc.
  - by apply replace_hits.
  - by rewrite replace_absent.
Qed.

Lemma convert_to_original_url_cdn (u : string) :
  contains "pinimg.com" u = true →
  convert_to_original_url u =
  replace "/originals/" "/originals/"
    (replace "/736x/" "/originals/"
       (replace "/564x/" "/originals/"
          (replace "/474x/" "/originals/"
             (replace "/236x/" "/originals/" u)))).
Proof.
  intros H. unfold convert_to_original_url. rewrite H.
  destruct u as [|c u]; [done|]. reflexivity.
Qed.

Lemma convert_to_original_url_other (u : string) :
  contains "pinimg.com" u = false → convert_to_original_url u = u.
Proof.
  intros H. unfold convert_to_original_url. rewrite H.
  by rewrite orb_true_r.
Qed.

Lemma convert_to_original_url_has_originals (u : string) :
  contains "pinimg.com" u = true →
  existsb (λ size, contains size u) thumbnail_sizes = true →
  contains "/originals/" (convert_to_original_url u) = true.
Proof.
  intros Hcdn Hsize. rewrite convert_to_original_url_cdn by done.
  rewrite replace_same by done. simpl in Hsize.
  destruct (contains "/236x/" u) eqn:E1.
  { do 3 (apply replace_keeps; [done|]). by apply replace_hits. }
  rewrite (replace_absent "/236x/") by done.
  destruct (contains "/474x/" u) eqn:E2.
  { do 2 (apply replace_keeps; [done|]). by apply replace_hits. }
  rewrite (replace_absent "/474x/") by done.
  destruct (contains "/564x/" u) eqn:E3.
  { apply replace_keeps; [done|]. by apply replace_hits. }
  rewrite (replace_absent "/564x/") by done.
  destruct (contains "/736x/" u) eqn:E4; [|done].
  by apply replace_hits.
Qed.

(** Where the normaliser is idempotent: off the CDN, and wherever its
    result holds no thumbnail-size segment any more. *)
Lemma convert_to_original_url_idempotent_when_clean (u : string) :
  contains "pinimg.com" u = false ∨
  existsb (λ size, contains size (convert_to_original_url u)) thumbnail_sizes
    = false →
  convert_to_original_url (convert_to_original_url u)
  = convert_to_original_url u.
Proof.
  intros [Hoff | Hclean].
  - rewrite (convert_to_original_url_other u) by done.
    by apply convert_to_original_url_other.
  - set (v := convert_to_original_url u) in *.
    destruct (contains "pinimg.com" v) eqn:Hv.
    2:{ by apply convert_to_original_url_other. }
    rewrite convert_to_original_url_cdn by done.
    simpl in Hclean.
    apply orb_false_iff in Hclean as [H1 Hclean].
    apply orb_false_iff in Hclean as [H2 Hclean].
    apply orb_false_iff in Hclean as [H3 Hclean].
    apply orb_false_iff in Hclean as [H4 _].
    rewrite (replace_absent "/236x/") by done.
    rewrite (replace_absent "/474x/") by done.
    rewrite (replace_absent "/564x/") by done.
    rewrite (replace_absent "/736x/") by done.
    by apply replace_same.
Qed.

End NormaliserFacts.

(** C5.  The normaliser is not idempotent.  [re.sub] takes matches that do
    not overlap, so of two equal thumbnail segments sharing a slash only
    the first is rewritten; the second becomes a match once the first has
    been replaced, and a second application rewrites it. *)
Theorem convert_to_original_url_twice_differs :
  Scraper.convert_to_original_url "https://i.pinimg.com/236x/236x/a.jpg"
    = "https://i.pinimg.com/originals/236x/a.jpg" ∧
  Scraper.convert_to_original_url
    (Scraper.convert_to_original_url "https://i.pinimg.com/236x/236x/a.jpg")
    = "https://i.pinimg.com/originals/originals/a.jpg" ∧
  Scraper.convert_to_original_url
    (Scraper.convert_to_original_url "https://i.pinimg.com/236x/236x/a.jpg")
    ≠ Scraper.convert_to_original_url "https://i.pinimg.com/236x/236x/a.jpg".
Proof. split_and!; by vm_compute. Qed.

(** C6, as stated, fails off the CDN: the normaliser returns such a URL
    unchanged, thumbnail segment included. *)
Lemma thumbnail_off_cdn_stays_thumbnail :
  ¬ (∀ u : string,
       DevTools.classify_type u = DevTools.Thumbnail →
       DevTools.classify_type (Scraper.convert_to_original_url u)
       = DevTools.Original).
Proof.
  intros H. specialize (H "https://example.com/236x/ab/photo.jpg").
  vm_compute in H. by specialize (H eq_refl).
Qed.

(** C6, amended.  For every URL in which the CDN host occurs and one of
    the segments /236x/, /474x/, /564x/, /736x/ occurs, the normalised URL
    is classified [Original]. *)
Theorem thumbnail_on_cdn_becomes_original (u size : string) :
  Str.occurs "pinimg.com" u →
  size ∈ DevTools.thumbnail_sizes →
  Str.occurs size u →
  DevTools.classify_type (Scraper.convert_to_original_url u)
  = DevTools.Original.
Proof.
  intros Hcdn Hin Hocc. unfold DevTools.classify_type.
  rewrite convert_to_original_url_has_originals; [done| |].
  - by apply contains_spec.
  - apply existsb_exists. exists size. split.
    + by apply list_elem_of_In.
    + by apply contains_spec.
Qed.

Lemma thumbnail_on_cdn_becomes_original_witness :
  DevTools.classify_type "https://i.pinimg.com/564x/ab/cd/photo.jpg"
    = DevTools.Thumbnail ∧
  DevTools.classify_type
    (Scraper.convert_to_original_url "https://i.pinimg.com/564x/ab/cd/photo.jpg")
    = DevTools.Original.
Proof.
  split; [by vm_compute|].
  apply (thumbnail_on_cdn_becomes_original _ "/564x/").
  - exists "https://i.", "/564x/ab/cd/photo.jpg". reflexivity.
  - unfold DevTools.thumbnail_sizes. set_solver.
  - exists "https://i.pinimg.com", "ab/cd/photo.jpg". reflexivity.
Defined.

(** ** De-duplication in [scrape_search] *)

Section UniquePinsFacts.
Import Scraper.

Lemma first_occurrences_sublist (pins : list pin) :
  first_occurrences pins `sublist_of` pins.
Proof.
  induction pins as [|p rest IH]; [done|]. simpl.
  apply sublist_skip. etrans; [apply sublist_filter | exact IH].
Qed.

(** Every key of the input is a key of the result. *)
Lemma first_occurrences_keys (pins : list pin) (k : string) :
  k ∈ media <$> first_occurrences pins ↔ k ∈ media <$> pins.
Proof.
  split.
  - intros (p & -> & Hp)%list_elem_of_fmap. apply list_elem_of_fmap_2.
    eapply elem_of_sublist; [exact Hp | apply first_occurrences_sublist].
  - induction pins as [|p rest IH]; [done|].
    rewrite fmap_cons. intros [-> | Hk]%elem_of_cons; simpl.
    + apply elem_of_cons. by left.
    + destruct (decide (k = media p)) as [-> | Hne].
      * apply elem_of_cons. by left.
      * apply elem_of_cons. right.
        apply IH in Hk as (q & -> & Hq)%list_elem_of_fmap.
        apply list_elem_of_fmap_2. apply list_elem_of_filter. by split.
Qed.

(** No key occurs twice in the result. *)
Lemma first_occurrences_NoDup (pins : list pin) :
  NoDup (media <$> first_occurrences pins).
Proof.
  induction pins as [|p rest IH]; simpl; [constructor|].
  constructor.
  - intros (q & Hq & [Hne _]%list_elem_of_filter)%list_elem_of_fmap. done.
  - eapply sublist_NoDup; [exact IH|].
    apply fmap_sublist, sublist_filter.
Qed.

Lemma first_occurrences_filter (pins : list pin) (k : string) :
  first_occurrences (filter (λ q, media q ≠ k) pins)
  = filter (λ q, media q ≠ k) (first_occurrences pins).
Proof.
  induction pins as [|p rest IH]; [done|].
  destruct (decide (media p = k)) as [Hp | Hp].
  - rewrite filter_cons_False by (intros H; by apply H). simpl.
    rewrite filter_cons_False by (intros H; by apply H).
    rewrite IH, list_filter_filter.
    apply list_filter_iff. intros q. rewrite Hp. tauto.
  - rewrite filter_cons_True by done. simpl.
    rewrite filter_cons_True by done. f_equal.
    rewrite IH, !list_filter_filter. apply list_filter_iff.
    intros q. tauto.
Qed.

(** Scanning from the left: an entry is emitted exactly when no earlier
    entry has its key. *)
Lemma first_occurrences_snoc (pins : list pin) (p : pin) :
  first_occurrences (pins ++ [p])
  = first_occurrences pins
    ++ (if decide (media p ∈ media <$> pins) then [] else [p]).
Proof.
  induction pins as [|q rest IH]; [done|].
  rewrite <- app_comm_cons. cbn [first_occurrences]. rewrite IH, filter_app.
  rewrite <- app_comm_cons. f_equal. f_equal. rewrite fmap_cons.
  destruct (decide (media p ∈ media <$> rest)) as [Hin | Hnin];
    destruct (decide (media p ∈ media q :: (media <$> rest))) as [Hin' | Hnin'];
    try done.
  - destruct Hnin'. apply elem_of_cons. by right.
  - apply elem_of_cons in Hin' as [Heq | ?]; [|done].
    rewrite filter_cons_False; [done|]. intros H. by apply H.
  - rewrite filter_cons_True; [done|].
    intros Heq. apply Hnin'. apply elem_of_cons. by left.
Qed.

(** The loop, in closed form.  The cap is tested after an append only,
    so a first entry is emitted whatever [max_pins] is. *)
Lemma unique_loop_spec (max_pins : Z) (pins : list pin) :
  ∀ (seen_urls : gset string) (unique : list pin),
    Z.of_nat (length unique) < Z.max 1 max_pins →
    unique_loop max_pins pins seen_urls unique
    = take (Z.to_nat (Z.max 1 max_pins))
        (unique ++ filter (λ q, media q ∉ seen_urls) (first_occurrences pins)).
Proof.
  induction pins as [|p rest IH]; intros seen unique Hlen.
  - simpl. rewrite app_nil_r, take_ge; [done | lia].
  - cbn [unique_loop first_occurrences].
    destruct (decide (media p ∈ seen)) as [Hin | Hnin].
    + rewrite IH by done. f_equal. f_equal.
      rewrite filter_cons_False by (intros H; by apply H).
      rewrite list_filter_filter. apply list_filter_iff.
      intros q. split; [|tauto].
      intros Hq. split; [done|]. intros Heq. by rewrite Heq in Hq.
    + rewrite filter_cons_True by done.
      destruct (Z.of_nat (length (unique ++ [p])) >=? max_pins) eqn:Hcap.
      * rewrite length_app in Hcap. simpl in Hcap.
        apply Z.geb_le in Hcap.
        match goal with
        | |- _ = take _ (_ ++ _ :: ?t) =>
            replace (unique ++ p :: t) with ((unique ++ [p]) ++ t)
              by (by rewrite <- app_assoc)
        end.
        symmetry. apply take_app_length'.
        rewrite length_app. simpl. lia.
      * rewrite Z.geb_leb in Hcap. apply Z.leb_gt in Hcap.
        rewrite length_app in Hcap. simpl in Hcap.
        rewrite IH by (rewrite length_app; simpl; lia).
        f_equal. rewrite <- app_assoc. simpl. f_equal. f_equal.
        rewrite list_filter_filter. apply list_filter_iff.
        intros q. rewrite not_elem_of_union, not_elem_of_singleton. tauto.
Qed.

Lemma unique_pins_spec (max_pins : Z) (pins : list pin) :
  unique_pins max_pins pins
  = take (Z.to_nat (Z.max 1 max_pins)) (first_occurrences pins).
Proof.
  unfold unique_pins. rewrite unique_loop_spec by (simpl; lia).
  simpl. f_equal. 
  induction (first_occurrences pins) as [|q l IH]; [done|].
  rewrite filter_cons_True by apply not_elem_of_empty. by rewrite IH.
Qed.
(** For a positive cap: the first [max_pins] first occurrences, in the
    order of the input, each key once. *)
Lemma unique_pins_positive_cap (max_pins : Z) (pins : list pin) :
  1 ≤ max_pins →
  unique_pins max_pins pins = take (Z.to_nat max_pins) (first_occurrences pins) ∧
  unique_pins max_pins pins `sublist_of` pins ∧
  NoDup (media <$> unique_pins max_pins pins) ∧
  Z.of_nat (length (unique_pins max_pins pins)) ≤ max_pins.
Proof.
  intros Hpos. rewrite unique_pins_spec.
  replace (Z.max 1 max_pins) with max_pins by lia. split_and!.
  - done.
  - etrans; [apply sublist_take | apply first_occurrences_sublist].
  - eapply sublist_NoDup; [apply first_occurrences_NoDup|].
    apply fmap_sublist, sublist_take.
  - rewrite length_take. lia.
Qed.

Lemma unique_pins_sublist (max_pins : Z) (pins : list pin) :
  unique_pins max_pins pins `sublist_of` pins.
Proof.
  rewrite unique_pins_spec.
  etrans; [apply sublist_take | apply first_occurrences_sublist].
Qed.

End UniquePinsFacts.

(** C7.  The cap of the de-duplication loop is tested only after an
    entry has been appended, so with [max_pins = 0] the scan is not cut
    before its first entry: one entry is emitted where the cap allows
    none.  With a positive cap the same input is cut as stated. *)
Theorem unique_pins_zero_cap_emits_one :
  let a := Scraper.Pin "A" "" "https://i.pinimg.com/originals/a.jpg" "hd-original" in
  let b := Scraper.Pin "B" "" "https://i.pinimg.com/originals/b.jpg" "hd-original" in
  Scraper.unique_pins 0 [a; b; a] = [a] ∧
  (Z.of_nat (length (Scraper.unique_pins 0 [a; b; a])) > 0)%Z ∧
  Scraper.unique_pins 1 [a; b; a] = [a] ∧
  Scraper.unique_pins 2 [a; b; a] = [a; b] ∧
  Scraper.unique_pins 50 [a; b; a] = [a; b].
Proof. by vm_compute. Qed.

(** ** The exception monad *)

Lemma bind_ret {A B : Type} (a : A) (k : A → outcome B) :
  (Ret a ≫= k) = k a.
Proof. reflexivity. Qed.

Lemma bind_raise {A B : Type} (e : exn) (k : A → outcome B) :
  (Raise e ≫= k) = Raise e.
Proof. reflexivity. Qed.

Lemma bind_Ret_inv {A B : Type} (m : outcome A) (k : A → outcome B) (b : B) :
  (m ≫= k) = Ret b → ∃ a, m = Ret a ∧ k a = Ret b.
Proof. destruct m as [a|e]; [by exists a | done]. Qed.

Lemma try_except_Ret_inv {A : Type} (body : outcome A) (h : exn → outcome A) (a : A) :
  Py.try_except body h = Ret a →
  body = Ret a ∨ ∃ e, body = Raise e ∧ Py.is_Exception e = true ∧ h e = Ret a.
Proof.
  destruct body as [x|e]; simpl.
  - intros [= ->]. by left.
  - destruct (Py.is_Exception e) eqn:He; [|done]. intros H. right. by exists e.
Qed.

(** ** De-duplication never emits an entry without a URL *)

Section NoEmptyUrl.
Import Scraper.

Lemma dedup_loop_has_url (data : list pyval) :
  ∀ seen unique out,
    Forall Cache.has_url unique →
    DevTools.dedup_loop data seen unique = Ret out →
    Forall Cache.has_url out.
Proof.
  induction data as [|item rest IH]; intros seen unique out Hu Hrun.
  - by injection Hrun as <-.
  - cbn [DevTools.dedup_loop] in Hrun.
    apply bind_Ret_inv in Hrun as (url & Hurl & Hrun).
    destruct (Py.truthy url) eqn:Ht; [|by eapply IH].
    apply bind_Ret_inv in Hrun as (dup & Hdup & Hrun).
    destruct dup; simpl in Hrun; [by eapply IH|].
    eapply IH; [|exact Hrun].
    apply Forall_app. split; [done|].
    apply Forall_singleton. by exists url.
Qed.

Variable urlparse_path : string → outcome string.

Lemma extract_pin_media (c : candidate) (p : pin) :
  extract_pin urlparse_path c = Ret (Some p) → media p ≠ "".
Proof.
  unfold extract_pin. intros [H | (e & _ & _ & H)]%try_except_Ret_inv; [|done].
  destruct (img_src c) as [src|]; [|done].
  destruct (String.eqb src ""); [done|].
  apply bind_Ret_inv in H as (ok & Hok & H).
  destruct ok; [|done]. simpl in H. injection H as <-. simpl.
  apply is_valid_image_url_accepts in Hok as (u & ? & ? & [= <-] & Hne & _).
  done.
Qed.

Lemma extract_pins_from_page_media (cs : list candidate) :
  ∀ pins, extract_pins_from_page urlparse_path cs = Ret pins →
          Forall (λ p, media p ≠ "") pins.
Proof.
  induction cs as [|c rest IH]; intros pins H.
  - by injection H as <-.
  - cbn [extract_pins_from_page] in H.
    apply bind_Ret_inv in H as (o & Ho & H).
    apply bind_Ret_inv in H as (ps & Hps & H).
    injection H as <-. specialize (IH ps Hps).
    destruct o as [p|]; [|done].
    constructor; [by eapply extract_pin_media | done].
Qed.

Lemma scrape_search_media (cs : list candidate) (max_pins : Z) (out : list pin) :
  scrape_search urlparse_path cs max_pins = Ret out →
  Forall (λ p, media p ≠ "") out.
Proof.
  unfold scrape_search.
  intros [H | (e & _ & _ & H)]%try_except_Ret_inv.
  - apply bind_Ret_inv in H as (pins & Hpins & H). injection H as <-.
    apply extract_pins_from_page_media in Hpins.
    rewrite Forall_forall in Hpins |- *. intros p Hp. apply Hpins.
    eapply elem_of_sublist; [exact Hp | apply unique_pins_sublist].
  - injection H as <-. constructor.
Qed.

End NoEmptyUrl.

(** C8.  Neither de-duplication emits an entry without a URL.  Every
    entry [remove_duplicates] writes back is a dict whose
    [media]-or-[url] value is truthy, hence neither [None] nor the empty
    string; every pin [scrape_search] returns has a non-empty [media]. *)
Theorem dedupe_never_emits_empty_url :
  (∀ (data : pyval) (out : list pyval),
     DevTools.remove_duplicates data = Ret out →
     ∀ item, item ∈ out →
       ∃ url, Cache.entry_url item = Ret url ∧ Py.truthy url = true ∧
              url ≠ PyNone ∧ url ≠ PyStr "") ∧
  (∀ (urlparse_path : string → outcome string) (cs : list Scraper.candidate)
     (max_pins : Z) (out : list Scraper.pin),
     Scraper.scrape_search urlparse_path cs max_pins = Ret out →
     ∀ p, p ∈ out → Scraper.media p ≠ "").
Proof.
  split.
  - intros data out Hrun item Hitem. unfold DevTools.remove_duplicates in Hrun.
    apply bind_Ret_inv in Hrun as (n & _ & Hrun).
    apply bind_Ret_inv in Hrun as (items & _ & Hrun).
    apply dedup_loop_has_url in Hrun; [|constructor].
    rewrite Forall_forall in Hrun.
    destruct (Hrun item Hitem) as (url & Hurl & Ht).
    exists url. split_and!; try done; by intros ->.
  - intros urlparse_path cs max_pins out Hrun p Hp.
    apply scrape_search_media in Hrun. rewrite Forall_forall in Hrun. by apply Hrun.
Qed.

Example remove_duplicates_run :
  DevTools.remove_duplicates
    (PyList [PyDict [("media", PyStr "")];
             PyDict [("media", PyStr "A"); ("title", PyStr "first")];
             PyDict [("url", PyStr "B")];
             PyDict [("media", PyNone); ("url", PyStr "")];
             PyDict [("media", PyStr "A"); ("title", PyStr "second")];
             PyDict [("title", PyStr "no url at all")]])
  = Ret [PyDict [("media", PyStr "A"); ("title", PyStr "first")];
         PyDict [("url", PyStr "B")]].
Proof. by vm_compute. Qed.

(** Keys are compared as Python compares them ([1 == True == 1.0]); a
    list cannot be a member of a set. *)
Example remove_duplicates_numbers :
  DevTools.remove_duplicates
    (PyList [PyDict [("media", PyInt 1)];
             PyDict [("media", PyBool true)];
             PyDict [("media", PyFloat 1)];
             PyDict [("media", PyInt 0); ("url", PyStr "B")]])
  = Ret [PyDict [("media", PyInt 1)];
         PyDict [("media", PyInt 0); ("url", PyStr "B")]] ∧
  DevTools.remove_duplicates (PyList [PyDict [("media", PyList [PyInt 1])]])
  = Raise TypeError ∧
  DevTools.remove_duplicates (PyList [PyStr "https://i.pinimg.com/a.jpg"])
  = Raise AttributeError.
Proof. by vm_compute. Qed.

Example scrape_search_run :
  Scraper.scrape_search Urllib.urlparse_path
    [Scraper.Candidate (Some "https://i.pinimg.com/236x/ab/a.jpg") "A" "";
     Scraper.Candidate None "none" "";
     Scraper.Candidate (Some "") "empty" "";
     Scraper.Candidate (Some "https://i.pinimg.com/originals/ab/a.jpg") "A again" "";
     Scraper.Candidate (Some "https://[i.pinimg.com/564x/ab/b.jpg") "bad host" "";
     Scraper.Candidate (Some "https://i.pinimg.com/564x/ab/c.png") "C" ""]
    50
  = Ret [Scraper.Pin "A" "" "https://i.pinimg.com/originals/ab/a.jpg" "hd-original";
         Scraper.Pin "C" "" "https://i.pinimg.com/originals/ab/c.png" "hd-original"].
Proof. by vm_compute. Qed.

(** ** The validation engine *)

Section IoFacts.
Context {A B : Type}.

Lemma io_bind_emit (ev : event) (k : unit → io B) :
  (Io.emit ev ≫= k) = (ev :: (k tt).1, (k tt).2).
Proof.
  unfold mbind, io_bind, Io.bind, Io.emit. by destruct (k tt).
Qed.

Lemma io_bind_lift (o : outcome A) (k : A → io B) :
  (Io.lift o ≫= k) = match o with Ret a => k a | Raise e => ([], Raise e) end.
Proof.
  unfold mbind, io_bind, Io.bind, Io.lift.
  destruct o as [a|e]; [by destruct (k a) | done].
Qed.

Lemma io_bind_unfold (m : io A) (k : A → io B) :
  (m ≫= k) = match m.2 with
             | Ret a => (m.1 ++ (k a).1, (k a).2)
             | Raise e => (m.1, Raise e)
             end.
Proof.
  unfold mbind, io_bind, Io.bind. destruct m as [t [a|e]]; simpl; [|done].
  by destruct (k a).
Qed.
End IoFacts.

Section CheckUrlFacts.
Import Validator.
Variable s : session.

Lemma check_url_not_str (task : nat) (url : pyval) :
  Py.isinstance_str url = false → check_url s task url = Ret false.
Proof.
  intros H. unfold check_url. rewrite H. by rewrite orb_true_r.
Qed.

Lemma check_url_empty (task : nat) : check_url s task (PyStr "") = Ret false.
Proof. reflexivity. Qed.

(** A failure of the lightweight probe is answered [False]. *)
Lemma check_url_head_raises (task : nat) (u : string) (e : exn) :
  head s task u = Raise e → Py.is_Exception e = true →
  check_url s task (PyStr u) = Ret false.
Proof.
  intros Hh He. unfold check_url.
  destruct (negb (Py.truthy (PyStr u)) || negb (Py.isinstance_str (PyStr u)));
    [done|].
  rewrite Hh. unfold mbind, outcome_bind, Py.bind, Py.try_except. by rewrite He.
Qed.

(** So is a failure of the full fetch it falls back to. *)
Lemma check_url_get_raises (task : nat) (u : string) (r : response) (e : exn) :
  head s task u = Ret r →
  (status r <? 400) && Str.contains "image" (Str.lower (header_content_type r))
    = false →
  get s task u = Raise e → Py.is_Exception e = true →
  check_url s task (PyStr u) = Ret false.
Proof.
  intros Hh Hr Hg He. unfold check_url.
  destruct (negb (Py.truthy (PyStr u)) || negb (Py.isinstance_str (PyStr u)));
    [done|].
  rewrite Hh, Hg. unfold mbind, outcome_bind, Py.bind, Py.try_except.
  destruct (status r <? 400); [|by rewrite He].
  simpl in Hr. rewrite Hr. by rewrite He.
Qed.

(** Whatever the requests of one task raise within [Exception],
    [check_url] returns. *)
Lemma check_url_returns (task : nat) (url : pyval) :
  (∀ u e, head s task u = Raise e ∨ get s task u = Raise e →
          Py.is_Exception e = true) →
  ∃ b, check_url s task url = Ret b.
Proof.
  intros Hexc. unfold check_url.
  destruct (negb (Py.truthy url) || negb (Py.isinstance_str url));
    [by exists false|].
  destruct url as [| | | |u| |]; try by exists false.
  unfold mbind, outcome_bind, Py.bind, Py.try_except.
  destruct (head s task u) as [r|e] eqn:Hh.
  2:{ rewrite (Hexc u e) by by left. by exists false. }
  assert (∃ b,
    match
      match get s task u with
      | Ret a =>
          if status a <? 400
          then mret (Str.contains "image" (Str.lower (header_content_type a)))
          else mret false
      | Raise e => Raise e
      end
    with
    | Ret a => Ret a
    | Raise e => if Py.is_Exception e then mret false else Raise e
    end = Ret b) as Hfallback.
  { destruct (get s task u) as [r'|e'] eqn:Hg.
    - destruct (status r' <? 400); by eexists.
    - rewrite (Hexc u e') by by right. by eexists. }
  destruct (status r <? 400); [|done].
  destruct (Str.contains _ _); [by eexists | done].
Qed.

Lemma entry_url_record (entry : pyval) :
  Cache.is_record entry = true → ∃ url, Cache.entry_url entry = Ret url.
Proof.
  destruct entry as [| | | | | |items]; try done. intros _.
  unfold Cache.entry_url. simpl.
  destruct (Py.truthy (Py.dict_get "media" items)); by eexists.
Qed.

Lemma entry_url_not_record (entry : pyval) :
  Cache.is_record entry = false → Cache.entry_url entry = Raise AttributeError.
Proof. by destruct entry. Qed.

Lemma with_url_has_url (entry : pyval) :
  Cache.with_url entry = true ↔ Cache.has_url entry.
Proof.
  unfold Cache.with_url, Cache.has_url. split.
  - destruct (Cache.entry_url entry) as [url|]; [|done]. intros H. by exists url.
  - intros (url & -> & H). done.
Qed.

Lemma validate_entry_fst (task : nat) (entry : pyval) (r : pyval * bool) :
  validate_entry s task entry = Ret r → r.1 = entry.
Proof.
  unfold validate_entry.
  intros (url & _ & (b & _ & [= <-])%bind_Ret_inv)%bind_Ret_inv. done.
Qed.

Lemma validate_entry_returns (task : nat) (entry : pyval) :
  raises_exceptions_only s → Cache.is_record entry = true →
  ∃ b, validate_entry s task entry = Ret (entry, b).
Proof.
  intros Hexc (url & Hurl)%entry_url_record.
  destruct (check_url_returns task url) as [b Hb]; [by apply Hexc|].
  exists b. unfold validate_entry. by rewrite Hurl, bind_ret, Hb, bind_ret.
Qed.

End CheckUrlFacts.

Section BatchFacts.
Import Validator.
Variable s : session.

Lemma make_tasks_records (l : list pyval) :
  Forall (λ e, Cache.is_record e = true) l →
  make_tasks l = Ret (filter (λ e, Cache.with_url e = true) l).
Proof.
  induction 1 as [|entry rest Hrec _ IH]; [done|].
  cbn [make_tasks]. destruct (entry_url_record entry Hrec) as [url Hurl].
  assert (Cache.with_url entry = Py.truthy url) as Hw.
  { unfold Cache.with_url. by rewrite Hurl. }
  rewrite Hurl, bind_ret, IH, bind_ret, filter_cons.
  destruct (Py.truthy url).
  - by rewrite decide_True.
  - rewrite decide_False; [done | congruence].
Qed.

Lemma make_tasks_raises (l : list pyval) (x : pyval) :
  x ∈ l → Cache.is_record x = false → make_tasks l = Raise AttributeError.
Proof.
  intros Hx Hnr. induction l as [|entry rest IH]; [by apply elem_of_nil in Hx|].
  cbn [make_tasks]. destruct (Cache.is_record entry) eqn:Hrec.
  - destruct (entry_url_record entry Hrec) as [url ->]. rewrite bind_ret.
    apply elem_of_cons in Hx as [-> | Hx]; [congruence|].
    by rewrite IH.
  - by rewrite entry_url_not_record.
Qed.

Lemma make_tasks_Ret_inv (l tasks : list pyval) :
  make_tasks l = Ret tasks → Forall (λ e, Cache.is_record e = true) l.
Proof.
  intros H. apply Forall_forall. intros x Hx.
  destruct (Cache.is_record x) eqn:Hrec; [done|].
  by rewrite (make_tasks_raises l x) in H.
Qed.

(** What a joined batch appends to [valid_entries]. *)
Lemma gather_survivors (batch : list pyval) :
  ∀ first results,
    gather s first batch = Ret results →
    (fst <$> filter (λ r, r.2 = true) results) = survivors s first batch.
Proof.
  induction batch as [|entry rest IH]; intros first results H.
  - by injection H as <-.
  - cbn [gather] in H.
    apply bind_Ret_inv in H as (r & Hr & H).
    apply bind_Ret_inv in H as (rs & Hrs & [= <-]).
    cbn [survivors]. unfold probe_succeeded. rewrite Hr.
    pose proof (validate_entry_fst s _ _ _ Hr) as Hfst.
    destruct r as [e b]. simpl in Hfst. subst e.
    rewrite filter_cons. simpl. destruct b.
    + rewrite decide_True by done. rewrite fmap_cons. simpl.
      by rewrite (IH _ _ Hrs).
    + rewrite decide_False by done. by rewrite (IH _ _ Hrs).
Qed.

Lemma gather_returns (batch : list pyval) :
  raises_exceptions_only s →
  Forall (λ e, Cache.is_record e = true) batch →
  ∀ first, ∃ results, gather s first batch = Ret results.
Proof.
  intros Hexc. induction 1 as [|entry rest Hrec _ IH]; intros first.
  - by exists [].
  - destruct (validate_entry_returns s first entry Hexc Hrec) as [b Hb].
    destruct (IH (S first)) as [rs Hrs].
    exists ((entry, b) :: rs). cbn [gather].
    by rewrite Hb, bind_ret, Hrs, bind_ret.
Qed.

Lemma survivors_app (l1 l2 : list pyval) :
  ∀ first,
    survivors s first (l1 ++ l2)
    = survivors s first l1 ++ survivors s (first + length l1) l2.
Proof.
  induction l1 as [|e l1 IH]; intros first.
  - simpl. by rewrite Nat.add_0_r.
  - simpl. rewrite IH. replace (S first + length l1)%nat
      with (first + S (length l1))%nat by lia.
    by destruct (probe_succeeded s first e).
Qed.

Lemma survivors_sublist (l : list pyval) :
  ∀ first, survivors s first l `sublist_of` l.
Proof.
  induction l as [|e l IH]; intros first; [done|]. simpl.
  destruct (probe_succeeded s first e).
  - by apply sublist_skip.
  - by apply sublist_cons.
Qed.

Lemma elem_of_survivors (l : list pyval) (entry : pyval) :
  ∀ first,
    entry ∈ survivors s first l ↔
    ∃ i, l !! i = Some entry ∧ probe_succeeded s (first + i) entry = true.
Proof.
  induction l as [|e l IH]; intros first.
  - simpl. split; [by intros ?%elem_of_nil | by intros (i & ? & _)].
  - simpl. destruct (probe_succeeded s first e) eqn:Hp.
    + rewrite elem_of_cons, IH. split.
      * intros [-> | (i & Hi & Hpi)].
        -- exists 0%nat. by rewrite Nat.add_0_r.
        -- exists (S i). split; [done|]. by rewrite Nat.add_succ_r.
      * intros ([|i] & Hi & Hpi).
        -- left. by injection Hi as <-.
        -- right. exists i. split; [done|]. by rewrite Nat.add_succ_r in Hpi.
    + rewrite IH. split.
      * intros (i & Hi & Hpi). exists (S i). split; [done|].
        by rewrite Nat.add_succ_r.
      * intros ([|i] & Hi & Hpi).
        -- injection Hi as <-. rewrite Nat.add_0_r in Hpi. congruence.
        -- exists i. split; [done|]. by rewrite Nat.add_succ_r in Hpi.
Qed.

End BatchFacts.

Section RunBatchesFacts.
Import Validator.
Variable s : session.
Variable tasks : list pyval.

(** One turn of the loop, unfolded. *)
Lemma run_batches_cons (i : nat) (rest : list nat) (valid : list pyval) :
  run_batches s tasks (i :: rest) valid =
  let batch := take batch_size (drop i tasks) in
  let ids := seq i (length batch) in
  match gather s i batch with
  | Raise e => ([BatchIssued ids], Raise e)
  | Ret results =>
      let next :=
        run_batches s tasks rest
          (valid ++ (fst <$> filter (λ r, r.2 = true) results)) in
      (BatchIssued ids :: BatchJoined ids :: Slept (1 # 2) :: next.1, next.2)
  end.
Proof.
  cbn [run_batches]. rewrite io_bind_emit, io_bind_lift.
  destruct (gather s i _) as [results|e]; [|done].
  by rewrite io_bind_emit, io_bind_emit.
Qed.

(** A run of the loop that returns: what it returns and what it did. *)
Lemma run_batches_Ret (starts : list nat) :
  ∀ valid tr out,
    run_batches s tasks starts valid = (tr, Ret out) →
    out = valid ++ (i ← starts; survivors s i (take batch_size (drop i tasks))) ∧
    tr = (i ← starts;
          let ids := seq i (length (take batch_size (drop i tasks))) in
          [BatchIssued ids; BatchJoined ids; Slept (1 # 2)]).
Proof.
  induction starts as [|i rest IH]; intros valid tr out H.
  - injection H as <- <-. by rewrite app_nil_r.
  - rewrite run_batches_cons in H. cbv zeta in H.
    destruct (gather s i _) as [results|e] eqn:Hg; [|done].
    injection H as <- Hout.
    destruct (run_batches s tasks rest _) as [tr' r'] eqn:Hrest.
    simpl in Hout. subst r'.
    apply IH in Hrest as [-> ->].
    rewrite (gather_survivors s _ _ _ Hg).
    by rewrite !bind_cons, app_assoc.
Qed.

Lemma run_batches_returns (starts : list nat) :
  raises_exceptions_only s →
  Forall (λ e, Cache.is_record e = true) tasks →
  ∀ valid, ∃ tr out, run_batches s tasks starts valid = (tr, Ret out).
Proof.
  intros Hexc Hrec. induction starts as [|i rest IH]; intros valid.
  - by exists [], valid.
  - rewrite run_batches_cons. cbv zeta.
    destruct (gather_returns s (take batch_size (drop i tasks)) Hexc) with i
      as [results ->].
    { by apply Forall_take, Forall_drop. }
    edestruct IH as (tr & out & ->). by eexists _, _.
Qed.

(** The loop opens and closes no session and touches no file. *)
Lemma run_batches_events (starts : list nat) :
  ∀ valid,
    Forall (λ ev, is_session_event ev = false ∧ is_file_event ev = false)
      (run_batches s tasks starts valid).1.
Proof.
  induction starts as [|i rest IH]; intros valid; [constructor|].
  rewrite run_batches_cons. cbv zeta.
  destruct (gather s i _) as [results|e]; simpl.
  - repeat (constructor; [done|]). apply IH.
  - by repeat constructor.
Qed.



End RunBatchesFacts.

Section ValidateCacheFacts.
Import Validator.
Variable s : session.

Lemma batch_count_covers (n : nat) : (n ≤ batch_count n * batch_size)%nat.
Proof.
  unfold batch_count, batch_size.
  pose proof (Nat.div_mod_eq (n + 10 - 1) 10).
  pose proof (Nat.mod_upper_bound (n + 10 - 1) 10). lia.
Qed.

Lemma range_step_batches (n : nat) :
  range_step n batch_size = (λ k, k * batch_size)%nat <$> seq 0 (batch_count n).
Proof. reflexivity. Qed.

(** The survivors of consecutive batches are the survivors of the
    tasks the batches cover. *)
Lemma survivors_batches (tasks : list pyval) (m : nat) :
  ∀ a,
    (k ← seq a m;
     survivors s (k * batch_size) (take batch_size (drop (k * batch_size) tasks)))
    = survivors s (a * batch_size)
        (take (m * batch_size) (drop (a * batch_size) tasks)).
Proof.
  induction m as [|m IH]; intros a; [done|].
  cbn [seq]. rewrite bind_cons, IH.
  set (D := drop (a * batch_size) tasks).
  replace (S m * batch_size)%nat with (batch_size + m * batch_size)%nat by lia.
  rewrite <- (take_take_drop D), survivors_app.
  f_equal. unfold D at 2. rewrite drop_drop.
  replace (a * batch_size + batch_size)%nat with (S a * batch_size)%nat by lia.
  destruct (decide (batch_size ≤ length D)%nat) as [Hlong | Hshort].
  - rewrite length_take_le by done. f_equal. lia.
  - assert (drop (S a * batch_size) tasks = []) as ->.
    { apply drop_ge. unfold D in Hshort. rewrite length_drop in Hshort. lia. }
    by rewrite take_nil.
Qed.

Lemma batch_ids_length (tasks : list pyval) (k : nat) :
  seq (k * batch_size) (length (take batch_size (drop (k * batch_size) tasks)))
  = batch_ids (length tasks) k.
Proof. unfold batch_ids. by rewrite length_take, length_drop. Qed.

(** The loop over all the batches of [tasks], when it returns. *)
Lemma run_all_batches_Ret (tasks : list pyval) (tr : list event) (out : list pyval) :
  run_batches s tasks (range_step (length tasks) batch_size) [] = (tr, Ret out) →
  out = survivors s 0 tasks ∧
  tr = batch_events (length tasks) 0 (batch_count (length tasks)).
Proof.
  intros [-> ->]%run_batches_Ret. rewrite range_step_batches, !list_fmap_bind.
  split.
  - simpl. rewrite (survivors_batches tasks _ 0). simpl.
    rewrite take_ge; [done|]. apply batch_count_covers.
  - unfold batch_events. apply list_bind_ext; [|done].
    intros k. simpl. by rewrite batch_ids_length.
Qed.

(** [validate_cache] on a file that holds a JSON value, step by step. *)
Lemma validate_cache_Holds (v : pyval) :
  validate_cache (Holds v) s =
  match Py.len v with
  | Raise e => ([], Raise e)
  | Ret _ =>
      match Py.iter v ≫= make_tasks with
      | Raise e => ([SessionOpened], Raise e)
      | Ret tasks =>
          let run :=
            run_batches s tasks (range_step (length tasks) batch_size) [] in
          match run.2 with
          | Raise e => (SessionOpened :: run.1, Raise e)
          | Ret valid_entries =>
              (SessionOpened :: run.1 ++ [SessionClosed], Ret valid_entries)
          end
      end
  end.
Proof.
  unfold validate_cache. simpl load. rewrite io_bind_lift, io_bind_lift.
  destruct (Py.len v) as [n|e]; [|done].
  rewrite io_bind_emit, io_bind_lift.
  destruct (Py.iter v) as [entries|e]; [|done].
  rewrite bind_ret, io_bind_lift.
  destruct (make_tasks entries) as [tasks|e]; [|done].
  rewrite io_bind_unfold. cbv zeta.
  destruct (run_batches s tasks _ []) as [tr [valid|e]]; [|done].
  cbn [fst snd]. by rewrite io_bind_emit.
Qed.

(** On an array of records, with a session that raises nothing but
    [Exception]s, the run returns, and this is what it does. *)
Lemma validate_cache_records (l : list pyval) :
  Forall (λ e, Cache.is_record e = true) l →
  raises_exceptions_only s →
  let tasks := filter (λ e, Cache.with_url e = true) l in
  validate_cache (Holds (PyList l)) s =
  (SessionOpened ::
     batch_events (length tasks) 0 (batch_count (length tasks))
     ++ [SessionClosed],
   Ret (survivors s 0 tasks)).
Proof.
  intros Hrec Hexc tasks. rewrite validate_cache_Holds.
  simpl Py.len. simpl Py.iter. rewrite bind_ret, make_tasks_records by done.
  fold tasks. cbv zeta.
  assert (Forall (λ e, Cache.is_record e = true) tasks) as Htasks.
  { apply Forall_forall. intros x [_ Hx]%list_elem_of_filter.
    by apply (proj1 (Forall_forall _ _) Hrec). }
  destruct (run_batches_returns s tasks
              (range_step (length tasks) batch_size) Hexc Htasks [])
    as (tr & out & Hrun).
  rewrite Hrun. simpl.
  by apply run_all_batches_Ret in Hrun as [-> ->].
Qed.

End ValidateCacheFacts.

Section RunFacts.
Import Validator.
Variable s : session.



Lemma session_events_none (tr : list event) :
  Forall (λ ev, is_session_event ev = false ∧ is_file_event ev = false) tr →
  session_events tr = [].
Proof.
  induction 1 as [|ev tr [Hev _] _ IH]; [done|]. simpl. by rewrite Hev.
Qed.

Lemma session_events_app (a b : list event) :
  session_events (a ++ b) = session_events a ++ session_events b.
Proof.
  induction a as [|ev a IH]; [done|]. simpl.
  destruct (is_session_event ev); by rewrite IH.
Qed.

(** The session events of a run: opened and closed when it returns,
    opened and left open when it raises after the file has loaded. *)
Lemma validate_cache_session_events (f : file_state) :
  match Io.result (validate_cache f s) with
  | Ret _ =>
      f = Missing ∧ Io.trace (validate_cache f s) = [] ∨
      session_events (Io.trace (validate_cache f s))
      = [SessionOpened; SessionClosed]
  | Raise _ =>
      Io.trace (validate_cache f s) = [] ∨
      session_events (Io.trace (validate_cache f s)) = [SessionOpened]
  end.
Proof.
  destruct f as [| | |v]; try (simpl; by left).
  rewrite validate_cache_Holds.
  destruct (Py.len v); [|simpl; by left].
  destruct (Py.iter v ≫= make_tasks) as [tasks|e]; [|simpl; by right].
  cbv zeta.
  pose proof (session_events_none _
    (run_batches_events s tasks (range_step (length tasks) batch_size) []))
    as Hnone.
  destruct (run_batches s tasks _ []) as [tr [valid|e]];
    unfold Io.result, Io.trace; simpl in *; right.
  - by rewrite session_events_app, Hnone.
  - by rewrite Hnone.
Qed.

(** A run renames and writes nothing itself. *)
Lemma validate_cache_no_file_event (f : file_state) :
  Forall (λ ev, is_file_event ev = false) (Io.trace (validate_cache f s)).
Proof.
  destruct f as [| | |v]; try (by constructor).
  rewrite validate_cache_Holds.
  destruct (Py.len v); [|by constructor].
  destruct (Py.iter v ≫= make_tasks) as [tasks|e]; [|by repeat constructor].
  cbv zeta.
  pose proof (run_batches_events s tasks
                (range_step (length tasks) batch_size) []) as Hev.
  assert (Forall (λ ev, is_file_event ev = false)
            (run_batches s tasks (range_step (length tasks) batch_size) []).1)
    as Hrun.
  { eapply Forall_impl; [exact Hev|]. by intros ev [_ ?]. }
  destruct (run_batches s tasks _ []) as [tr [valid|e]];
    unfold Io.trace; simpl in *.
  - constructor; [done|]. apply Forall_app. split; [done | by repeat constructor].
  - by constructor.
Qed.


(** When a run raises. *)
Lemma fatal_raises (f : file_state) : fatal f → Io.raises (validate_cache f s).
Proof.
  unfold Io.raises, Io.result.
  destruct 1 as [| |v Hlen|v entries x Hiter Hx Hrec]; try (by eexists).
  - rewrite validate_cache_Holds, Hlen. by eexists.
  - rewrite validate_cache_Holds.
    destruct (Py.len v); [|by eexists].
    rewrite Hiter, bind_ret, (make_tasks_raises entries x) by done.
    by eexists.
Qed.

Lemma raises_fatal (f : file_state) :
  raises_exceptions_only s → Io.raises (validate_cache f s) → fatal f.
Proof.
  intros Hexc [e He]. unfold Io.result in He.
  destruct f as [| | |v]; [done | constructor | constructor |].
  rewrite validate_cache_Holds in He.
  destruct (Py.len v) as [n|e'] eqn:Hlen.
  2:{ apply fatal_unsized. by destruct v. }
  destruct (Py.iter v) as [entries|e'] eqn:Hiter; [|by destruct v].
  rewrite bind_ret in He.
  destruct (make_tasks entries) as [tasks|e'] eqn:Htasks.
  - exfalso. cbv zeta in He.
    pose proof (make_tasks_Ret_inv _ _ Htasks) as Hrec.
    rewrite make_tasks_records in Htasks by done. injection Htasks as <-.
    edestruct (run_batches_returns s) as (tr & out & Hrun); [done| |].
    2:{ rewrite Hrun in He. done. }
    apply Forall_forall. intros x [_ Hx]%list_elem_of_filter.
    by apply (proj1 (Forall_forall _ _) Hrec).
  - destruct (decide (Forall (λ e, Cache.is_record e = true) entries))
      as [Hall | Hnot].
    + rewrite (make_tasks_records entries Hall) in Htasks. discriminate.
    + apply not_Forall_Exists in Hnot; [|apply _].
      apply Exists_exists in Hnot as (x & Hx & Hrec).
      apply (fatal_element v entries x); [done | done |].
      by apply not_true_is_false.
Qed.

Lemma well_formed_not_fatal (v : pyval) :
  Cache.well_formed v → ¬ fatal (Holds v).
Proof.
  intros (entries & -> & Hrec) Hfatal. inversion Hfatal as [| |? Hlen|? es x Hiter Hx Hx'].
  - done.
  - simpl in Hiter. injection Hiter as <-.
    rewrite Forall_forall in Hrec. specialize (Hrec x Hx). congruence.
Qed.

(** An exception of a run leaves [main] before anything is renamed or
    written for the file. *)
Lemma main_loop_run_raises (fs : string → file_state) (net : string → session)
    (cache_file : string) (rest : list string) :
  net cache_file = s →
  Io.raises (validate_cache (fs cache_file) s) →
  Io.raises (main_loop fs net (cache_file :: rest)) ∧
  Forall (λ ev, is_file_event ev = false)
    (Io.trace (main_loop fs net (cache_file :: rest))).
Proof.
  intros Hnet [e He].
  pose proof (validate_cache_no_file_event (fs cache_file)) as Hev.
  cbn [main_loop]. rewrite Hnet.
  assert (fs cache_file ≠ Missing) as Hf.
  { intros Hm. by rewrite Hm in He. }
  unfold Io.raises, Io.result, Io.trace in *.
  destruct (fs cache_file) as [| | |v] eqn:Hfs; [done| | |];
    rewrite io_bind_unfold, He; simpl; (split; [by eexists | done]).
Qed.

End RunFacts.

(** ** The sessions of the examples *)

Lemma dead_session_exceptions :
  Validator.raises_exceptions_only Validator.dead_session.
Proof. intros task u e [H | H]; by injection H as <-. Qed.

Lemma scripted_session_exceptions (dead : list string) :
  Validator.raises_exceptions_only (Validator.scripted_session dead).
Proof.
  intros task u e [H | H]; simpl in H;
    (destruct (bool_decide (u ∈ dead)); [by injection H as <- | discriminate]).
Qed.

Lemma filter_all {A : Type} (P : A → Prop) `{!∀ x, Decision (P x)} (l : list A) :
  Forall P l → filter P l = l.
Proof.
  induction 1 as [|x l Hx _ IH]; [done|]. by rewrite filter_cons_True, IH.
Qed.


(** C2.  On an array of records, probed over a session whose requests
    raise nothing but [Exception]s, [validate_cache] returns the tasks
    (the entries with a URL) whose probe succeeded, in the order of the
    input: a subsequence of the input, holding exactly the tasks that
    were probed with success. *)
Theorem validate_cache_keeps_input_order
    (s : Validator.session) (l : list pyval) :
  Forall (λ e, Cache.is_record e = true) l →
  Validator.raises_exceptions_only s →
  let tasks := filter (λ e, Cache.with_url e = true) l in
  let out := Validator.survivors s 0 tasks in
  Io.result (Validator.validate_cache (Validator.Holds (PyList l)) s) = Ret out ∧
  out `sublist_of` l ∧
  (∀ entry, entry ∈ out ↔
     ∃ i, tasks !! i = Some entry ∧ Validator.probe_succeeded s i entry = true).
Proof.
  intros Hrec Hexc tasks out. split_and!.
  - unfold Io.result. by rewrite validate_cache_records.
  - etrans; [apply survivors_sublist | apply sublist_filter].
  - intros entry. unfold out. by rewrite elem_of_survivors.
Qed.

Lemma validate_cache_keeps_input_order_witness :
  Io.result
    (Validator.validate_cache
       (Validator.Holds
          (PyList [PyDict [("media", PyStr "https://i.pinimg.com/originals/a.jpg")];
                   PyDict [("media", PyStr "https://i.pinimg.com/originals/b.jpg")];
                   PyDict [("url", PyStr "https://i.pinimg.com/originals/c.jpg")]]))
       (Validator.scripted_session ["https://i.pinimg.com/originals/b.jpg"]))
  = Ret [PyDict [("media", PyStr "https://i.pinimg.com/originals/a.jpg")];
         PyDict [("url", PyStr "https://i.pinimg.com/originals/c.jpg")]].
Proof.
  apply (validate_cache_keeps_input_order
           (Validator.scripted_session ["https://i.pinimg.com/originals/b.jpg"])).
  - by repeat constructor.
  - apply scripted_session_exceptions.
Defined.


Example twenty_five_entries_three_batches :
  let entry := PyDict [("media", PyStr "https://i.pinimg.com/originals/a.jpg")] in
  let run :=
    Validator.validate_cache (Validator.Holds (PyList (replicate 25 entry)))
      Validator.dead_session in
  length <$> Validator.issued (Io.trace run) = [10; 10; 5]%nat ∧
  Validator.issued (Io.trace run) = [seq 0 10; seq 10 10; seq 20 5] ∧
  Io.result run = Ret [].
Proof. by vm_compute. Qed.

(** C1, as stated, fails: an empty JSON object is no sequence of
    records, and the run on it returns the empty list without raising. *)
Lemma run_on_empty_object_returns :
  Validator.validate_cache (Validator.Holds (PyDict [])) Validator.dead_session
    = ([SessionOpened; SessionClosed], Ret []) ∧
  ¬ (∀ (f : Validator.file_state) (s : Validator.session),
       Validator.raises_exceptions_only s →
       (Io.raises (Validator.validate_cache f s) ↔
        f = Validator.Unreadable ∨ f = Validator.NotJson ∨
        ∃ v, f = Validator.Holds v ∧ ¬ Cache.well_formed v)).
Proof.
  split; [by vm_compute|]. intros H.
  destruct (H (Validator.Holds (PyDict [])) Validator.dead_session
              dead_session_exceptions) as [_ Hraises].
  destruct Hraises as [e He].
  - right. right. exists (PyDict []). split; [done|].
    by intros (entries & Heq & _).
  - vm_compute in He. discriminate.
Qed.

(** C1, amended.  A request that raises an [Exception] never makes
    [check_url] raise: it answers [False], be it the lightweight probe
    that raises or the full fetch it falls back to, and it always answers
    over a session whose requests raise nothing else.  The run raises on
    every [fatal] input, whatever the session: a file that exists and
    cannot be read or parsed, a value without a length, a value whose
    iteration meets something that is not a record.  Over a session whose
    requests raise nothing but [Exception]s it raises on these inputs
    only; so, over such a session, it raises only if the file cannot be
    read or does not hold a well-formed sequence of records, and never on
    a well-formed one; a missing file, an empty string and an empty
    object give the empty list.  The proviso is needed: an interruption that
    arrives during a batch makes the run raise on a well-formed cache.
    Whenever the run raises, whatever the session and the reason, [main]
    is left with nothing renamed and nothing written. *)
Theorem per_url_failures_contained_and_fatal_inputs :
  (∀ (s : Validator.session) task u e,
     Validator.head s task u = Raise e → Py.is_Exception e = true →
     Validator.check_url s task (PyStr u) = Ret false) ∧
  (∀ (s : Validator.session) task u r e,
     Validator.head s task u = Ret r →
     (Validator.status r <? 400)
     && Str.contains "image" (Str.lower (Validator.header_content_type r))
     = false →
     Validator.get s task u = Raise e → Py.is_Exception e = true →
     Validator.check_url s task (PyStr u) = Ret false) ∧
  (∀ s, Validator.raises_exceptions_only s →
        ∀ task url, ∃ b, Validator.check_url s task url = Ret b) ∧
  (∀ s f, Validator.fatal f → Io.raises (Validator.validate_cache f s)) ∧
  (∀ s f, Validator.raises_exceptions_only s →
          (Io.raises (Validator.validate_cache f s) ↔ Validator.fatal f)) ∧
  (∀ s f, Validator.raises_exceptions_only s →
          Io.raises (Validator.validate_cache f s) →
          f = Validator.Unreadable ∨ f = Validator.NotJson ∨
          ∃ v, f = Validator.Holds v ∧ ¬ Cache.well_formed v) ∧
  (∀ s v, Validator.raises_exceptions_only s → Cache.well_formed v →
          ¬ Io.raises (Validator.validate_cache (Validator.Holds v) s)) ∧
  (∀ s, Validator.validate_cache Validator.Missing s = ([], Ret []) ∧
        Validator.validate_cache (Validator.Holds (PyStr "")) s
          = ([SessionOpened; SessionClosed], Ret []) ∧
        Validator.validate_cache (Validator.Holds (PyDict [])) s
          = ([SessionOpened; SessionClosed], Ret [])) ∧
  (∃ s v, Cache.well_formed v ∧
          Io.raises (Validator.validate_cache (Validator.Holds v) s)) ∧
  (∀ (fs : string → Validator.file_state) (net : string → Validator.session)
     (cache_file : string) (rest : list string),
     Io.raises (Validator.validate_cache (fs cache_file) (net cache_file)) →
     Io.raises (Validator.main_loop fs net (cache_file :: rest)) ∧
     Forall (λ ev, Validator.is_file_event ev = false)
       (Io.trace (Validator.main_loop fs net (cache_file :: rest)))).
Proof.
  split_and!.
  - intros s task u e. apply check_url_head_raises.
  - intros s task u r e. apply check_url_get_raises.
  - intros s Hexc task url. apply check_url_returns. intros u e. apply Hexc.
  - intros s f. apply fatal_raises.
  - intros s f Hexc. split; [by apply raises_fatal | apply fatal_raises].
  - intros s f Hexc Hr. apply raises_fatal in Hr; [|done].
    destruct f as [| | |v]; [inversion Hr | by left | by right; left |].
    right. right. exists v. split; [done|].
    intros Hwf. by apply (well_formed_not_fatal v).
  - intros s v Hexc Hwf Hr. by apply raises_fatal, well_formed_not_fatal in Hr.
  - intros s. by split_and!.
  - exists Validator.interrupted_session,
      (PyList [PyDict [("media", PyStr "https://i.pinimg.com/originals/a.jpg")]]).
    split.
    + eexists. split; [reflexivity|]. by repeat constructor.
    + exists KeyboardInterrupt. by vm_compute.
  - intros fs net cache_file rest.
    by apply (main_loop_run_raises (net cache_file)).
Qed.

Lemma per_url_failures_contained_and_fatal_inputs_witness :
  Validator.check_url Validator.dead_session 0
    (PyStr "https://i.pinimg.com/originals/a.jpg") = Ret false ∧
  ¬ Io.raises
      (Validator.validate_cache
         (Validator.Holds
            (PyList [PyDict [("media",
                              PyStr "https://i.pinimg.com/originals/a.jpg")]]))
         Validator.dead_session).
Proof.
  destruct per_url_failures_contained_and_fatal_inputs
    as (Hhead & _ & _ & _ & _ & _ & Hwf & _ & _).
  split.
  - apply (Hhead Validator.dead_session 0%nat _ TimeoutError); reflexivity.
  - apply Hwf.
    + intros task u e [H | H]; injection H as <-; reflexivity.
    + eexists. split; [reflexivity|]. by repeat constructor.
Defined.

(** C9.  A run that raises after the session has been opened leaves it
    open, be it on an interruption that escapes the awaited batch or on
    an entry that is not a record: [session.close()] is reached on the
    returning path only.  So it is not on every exit path that a run has
    either opened no session or opened and closed one. *)
Theorem session_left_open_when_run_raises :
  Validator.validate_cache
    (Validator.Holds
       (PyList [PyDict [("media", PyStr "https://i.pinimg.com/originals/a.jpg")]]))
    Validator.interrupted_session
    = ([SessionOpened; BatchIssued [0%nat]], Raise KeyboardInterrupt) ∧
  Validator.validate_cache (Validator.Holds (PyList [PyInt 5]))
    Validator.dead_session
    = ([SessionOpened], Raise AttributeError) ∧
  ¬ (∀ (f : Validator.file_state) (s : Validator.session),
       let tr := Io.trace (Validator.validate_cache f s) in
       Validator.session_events tr = [] ∨
       Validator.session_events tr = [SessionOpened; SessionClosed]).
Proof.
  split_and!; [by vm_compute | by vm_compute |]. intros H.
  specialize (H (Validator.Holds (PyList [PyInt 5])) Validator.dead_session).
  vm_compute in H. by destruct H.
Qed.

(** ** What a search returns *)

Section SearchFacts.
Import Scraper.
Variable urlparse_path : string → outcome string.

Lemma extract_pin_valid (c : candidate) (p : pin) :
extract_pin urlparse_path c = Ret (Some p) →
is_valid_image_url urlparse_path (PyStr (media p)) = Ret true ∧
∃ src, img_src c = Some src ∧ media p = convert_to_original_url src.
Proof.
unfold extract_pin. intros [H | (e & _ & _ & H)]%try_except_Ret_inv; [|done].
destruct (img_src c) as [src|]; [|done].
destruct (String.eqb src ""); [done|].
apply bind_Ret_inv in H as (ok & Hok & H).
destruct ok; [|done]. simpl in H. injection H as <-. simpl.
split; [done | by exists src].
Qed.

Lemma extract_pins_from_page_valid (cs : list candidate) :
∀ pins, extract_pins_from_page urlparse_path cs = Ret pins →
  Forall (λ p, is_valid_image_url urlparse_path (PyStr (media p)) = Ret true)
    pins.
Proof.
induction cs as [|c rest IH]; intros pins H.
- by injection H as <-.
- cbn [extract_pins_from_page] in H.
  apply bind_Ret_inv in H as (o & Ho & H).
  apply bind_Ret_inv in H as (ps & Hps & H).
  injection H as <-. specialize (IH ps Hps).
  destruct o as [p|]; [|done].
  constructor; [by apply (extract_pin_valid c) | done].
Qed.

Lemma scrape_search_Ret_inv (cs : list candidate) (max_pins : Z) (out : list pin) :
scrape_search urlparse_path cs max_pins = Ret out →
out = [] ∨
∃ pins, extract_pins_from_page urlparse_path cs = Ret pins ∧
        out = unique_pins max_pins pins.
Proof.
unfold scrape_search.
intros [H | (e & _ & _ & H)]%try_except_Ret_inv.
- apply bind_Ret_inv in H as (pins & Hpins & [= <-]). right. by exists pins.
- injection H as <-. by left.
Qed.

Lemma scrape_search_length (cs : list candidate) (max_pins : Z) (out : list pin) :
scrape_search urlparse_path cs max_pins = Ret out →
NoDup (media <$> out) ∧ Z.of_nat (length out) ≤ Z.max 1 max_pins.
Proof.
intros [-> | (pins & _ & ->)]%scrape_search_Ret_inv.
- split; [constructor | simpl; lia].
- rewrite unique_pins_spec. split.
  + eapply sublist_NoDup; [apply first_occurrences_NoDup|].
    apply fmap_sublist, sublist_take.
  + rewrite length_take. lia.
Qed.

End SearchFacts.

(** Every pin a search returns carries a media URL the validity check
    accepts. *)
Theorem scrape_search_pins_valid
    (urlparse_path : string → outcome string) (cs : list Scraper.candidate)
    (max_pins : Z) (out : list Scraper.pin) :
  Scraper.scrape_search urlparse_path cs max_pins = Ret out →
  ∀ p, p ∈ out →
    Scraper.is_valid_image_url urlparse_path (PyStr (Scraper.media p)) = Ret true.
Proof.
  intros [-> | (pins & Hpins & ->)]%scrape_search_Ret_inv p Hp.
  - by apply elem_of_nil in Hp.
  - apply extract_pins_from_page_valid in Hpins.
    rewrite Forall_forall in Hpins. apply Hpins.
    eapply elem_of_sublist; [exact Hp | apply unique_pins_sublist].
Qed.

Lemma scrape_search_pins_valid_witness :
  Scraper.is_valid_image_url Urllib.urlparse_path
    (PyStr "https://i.pinimg.com/originals/ab/a.jpg") = Ret true.
Proof.
  apply (scrape_search_pins_valid Urllib.urlparse_path
           [Scraper.Candidate (Some "https://i.pinimg.com/236x/ab/a.jpg") "A" ""]
           50
           [Scraper.Pin "A" "" "https://i.pinimg.com/originals/ab/a.jpg"
              "hd-original"]
           eq_refl
           (Scraper.Pin "A" "" "https://i.pinimg.com/originals/ab/a.jpg"
              "hd-original")).
  apply list_elem_of_here.
Defined.

(** The pins a search returns have pairwise different media URLs, and
    there are at most [max_pins] of them, or one when [max_pins] is not
    positive. *)
Theorem scrape_search_distinct_and_capped
    (urlparse_path : string → outcome string) (cs : list Scraper.candidate)
    (max_pins : Z) (out : list Scraper.pin) :
  Scraper.scrape_search urlparse_path cs max_pins = Ret out →
  NoDup (Scraper.media <$> out) ∧ Z.of_nat (length out) ≤ Z.max 1 max_pins.
Proof.
  apply scrape_search_length.
Qed.

Lemma scrape_search_distinct_and_capped_witness :
  NoDup (Scraper.media <$>
           [Scraper.Pin "A" "" "https://i.pinimg.com/originals/ab/a.jpg"
              "hd-original"]) ∧
  Z.of_nat 1 ≤ Z.max 1 1.
Proof.
  apply (scrape_search_distinct_and_capped Urllib.urlparse_path
           [Scraper.Candidate (Some "https://i.pinimg.com/236x/ab/a.jpg") "A" "";
            Scraper.Candidate (Some "https://i.pinimg.com/474x/ab/a.jpg") "A2" "";
            Scraper.Candidate (Some "https://i.pinimg.com/474x/ab/b.jpg") "B" ""]
           1).
  reflexivity.
Defined.


Section ExtractFacts.
Import Scraper.
Variable urlparse_path : string → outcome string.

(** A turn of the extraction loop lets no [Exception] out. *)
Lemma extract_pin_cases (c : candidate) :
(∃ o, extract_pin urlparse_path c = Ret o) ∨
(∃ e, extract_pin urlparse_path c = Raise e ∧ Py.is_Exception e = false).
Proof.
unfold extract_pin, Py.try_except.
destruct (match img_src c with Some _ => _ | None => _ end) as [o|e].
- left. by exists o.
- destruct (Py.is_Exception e) eqn:He.
  + left. by eexists.
  + right. by exists e.
Qed.

Lemma extract_pins_from_page_app (cs1 cs2 : list candidate) :
extract_pins_from_page urlparse_path (cs1 ++ cs2) =
pins1 ← extract_pins_from_page urlparse_path cs1;
pins2 ← extract_pins_from_page urlparse_path cs2;
mret (pins1 ++ pins2).
Proof.
induction cs1 as [|c cs1 IH].
- change ([] ++ cs2) with cs2.
  by destruct (extract_pins_from_page urlparse_path cs2).
- rewrite <- app_comm_cons. cbn [extract_pins_from_page]. rewrite IH.
  destruct (extract_pin urlparse_path c) as [o|e]; [|done].
  rewrite !bind_ret.
  destruct (extract_pins_from_page urlparse_path cs1) as [p1|e]; [|done].
  rewrite !bind_ret.
  destruct (extract_pins_from_page urlparse_path cs2) as [p2|e]; [|done].
  rewrite !bind_ret. by destruct o.
Qed.

End ExtractFacts.

(** A pin element that yields no pin (no image source, a URL the
    validity check refuses, or a check that raises an [Exception]) is
    skipped, and the extraction of the other elements is what it would
    be without it. *)
Theorem extract_pins_from_page_skips
    (urlparse_path : string → outcome string)
    (c : Scraper.candidate) (cs1 cs2 : list Scraper.candidate) :
  match Scraper.img_src c with
  | None => True
  | Some src =>
      src = "" ∨
      Scraper.is_valid_image_url urlparse_path
        (PyStr (Scraper.convert_to_original_url src)) = Ret false ∨
      ∃ e, Scraper.is_valid_image_url urlparse_path
             (PyStr (Scraper.convert_to_original_url src)) = Raise e ∧
           Py.is_Exception e = true
  end →
  Scraper.extract_pins_from_page urlparse_path (cs1 ++ c :: cs2)
  = Scraper.extract_pins_from_page urlparse_path (cs1 ++ cs2).
Proof.
  intros Hc.
  assert (Scraper.extract_pin urlparse_path c = Ret None) as Hskip.
  { unfold Scraper.extract_pin. destruct (Scraper.img_src c) as [src|]; [|done].
    destruct Hc as [-> | [Hr | (e & Hr & He)]]; [done | |].
    - destruct (String.eqb src ""); [done|]. by rewrite Hr.
    - destruct (String.eqb src ""); [done|]. rewrite Hr. simpl. by rewrite He. }
  rewrite !extract_pins_from_page_app.
  destruct (Scraper.extract_pins_from_page urlparse_path cs1) as [p1|e]; [|done].
  rewrite !bind_ret. cbn [Scraper.extract_pins_from_page].
  rewrite Hskip, bind_ret.
  by destruct (Scraper.extract_pins_from_page urlparse_path cs2).
Qed.

Lemma extract_pins_from_page_skips_witness :
  Scraper.extract_pins_from_page Urllib.urlparse_path
    ([Scraper.Candidate (Some "https://i.pinimg.com/236x/ab/a.jpg") "A" ""]
     ++ Scraper.Candidate (Some "https://[i.pinimg.com/564x/ab/b.jpg") "bad" ""
     :: [Scraper.Candidate (Some "https://i.pinimg.com/564x/ab/c.png") "C" ""])
  = Scraper.extract_pins_from_page Urllib.urlparse_path
      ([Scraper.Candidate (Some "https://i.pinimg.com/236x/ab/a.jpg") "A" ""]
       ++ [Scraper.Candidate (Some "https://i.pinimg.com/564x/ab/c.png") "C" ""]).
Proof.
  apply (extract_pins_from_page_skips Urllib.urlparse_path
           (Scraper.Candidate (Some "https://[i.pinimg.com/564x/ab/b.jpg") "bad" "")).
  simpl. right. right. exists ValueError. split; [by vm_compute | reflexivity].
Defined.



Section DedupeAgain.
Import Scraper.

(** A list without repeated keys is its own list of first occurrences. *)
Lemma first_occurrences_NoDup_id (pins : list pin) :
NoDup (media <$> pins) → first_occurrences pins = pins.
Proof.
induction pins as [|p rest IH]; [done|].
rewrite fmap_cons. intros [Hp Hrest]%NoDup_cons.
cbn [first_occurrences]. rewrite IH by done. f_equal.
apply filter_all. apply Forall_forall. intros q Hq Heq.
apply Hp. rewrite <- Heq. by apply list_elem_of_fmap_2.
Qed.

Lemma first_occurrences_idempotent (pins : list pin) :
first_occurrences (first_occurrences pins) = first_occurrences pins.
Proof. apply first_occurrences_NoDup_id, first_occurrences_NoDup. Qed.

End DedupeAgain.

(** De-duplicating what has been de-duplicated changes nothing, whatever
    the cap. *)
Theorem unique_pins_idempotent (max_pins : Z) (pins : list Scraper.pin) :
  Scraper.unique_pins max_pins (Scraper.unique_pins max_pins pins)
  = Scraper.unique_pins max_pins pins.
Proof.
  rewrite !unique_pins_spec.
  rewrite first_occurrences_NoDup_id.
  - rewrite take_take. f_equal. lia.
  - eapply sublist_NoDup; [apply first_occurrences_NoDup|].
    apply fmap_sublist, sublist_take.
Qed.

(** When the loop stops short of the cap, nothing was cut: every media
    URL of the input is the media URL of a pin of the result. *)
Theorem unique_pins_below_cap_covers (max_pins : Z) (pins : list Scraper.pin) :
  Z.of_nat (length (Scraper.unique_pins max_pins pins)) < max_pins →
  ∀ p, p ∈ pins →
    Scraper.media p ∈ Scraper.media <$> Scraper.unique_pins max_pins pins.
Proof.
  rewrite unique_pins_spec, length_take. intros Hlen p Hp.
  rewrite take_ge by lia.
  apply first_occurrences_keys. by apply list_elem_of_fmap_2.
Qed.

Lemma unique_pins_below_cap_covers_witness :
  "https://i.pinimg.com/originals/b.jpg"
  ∈ Scraper.media <$>
      Scraper.unique_pins 30
        [Scraper.Pin "A" "" "https://i.pinimg.com/originals/a.jpg" "hd-original";
         Scraper.Pin "A" "" "https://i.pinimg.com/originals/a.jpg" "hd-original";
         Scraper.Pin "B" "" "https://i.pinimg.com/originals/b.jpg" "hd-original"].
Proof.
  refine (unique_pins_below_cap_covers 30
            [Scraper.Pin "A" "" "https://i.pinimg.com/originals/a.jpg" "hd-original";
             Scraper.Pin "A" "" "https://i.pinimg.com/originals/a.jpg" "hd-original";
             Scraper.Pin "B" "" "https://i.pinimg.com/originals/b.jpg" "hd-original"]
            _
            (Scraper.Pin "B" "" "https://i.pinimg.com/originals/b.jpg" "hd-original")
            _).
  - vm_compute. reflexivity.
  - do 2 apply list_elem_of_further. apply list_elem_of_here.
Defined.


(** ** What the normaliser keeps *)

Section ReplaceBoundary.
Import Str.

Lemma sapp_eq_sapp (a t p r : string) :
a +:+ t = p +:+ r →
(∃ k, a = p +:+ k ∧ r = k +:+ t) ∨ (∃ k, p = a +:+ k ∧ t = k +:+ r).
Proof.
revert p. induction a as [|x a IH]; intros p H.
- right. by exists p.
- destruct p as [|y p].
  + left. by exists (String x a).
  + rewrite !sapp_cons in H. injection H as -> H.
    destruct (IH p H) as [(k & -> & ->) | (k & -> & ->)].
    * left. by exists k.
    * right. by exists k.
Qed.

Lemma sapp_nil_inv (a b : string) : a +:+ b = "" → a = "" ∧ b = "".
Proof. destruct a; [intros H; split; [done | exact H] | discriminate]. Qed.

Lemma no_straddle_tail (old : string) (x : ascii) (a t : string) :
Chars.no_straddle old (String x a) t → Chars.no_straddle old a t.
Proof.
intros H a1 k1 k2 r -> Ht Ho.
apply (H (String x a1) k1 k2 r); by rewrite ?sapp_cons.
Qed.

Lemma no_straddle_drop (old p a t : string) :
Chars.no_straddle old (p +:+ a) t → Chars.no_straddle old a t.
Proof.
induction p as [|x p IH]; [done|].
rewrite sapp_cons. intros H. by apply IH, (no_straddle_tail old x).
Qed.

Lemma replace_exact (old new : string) : old ≠ "" → replace old new old = new.
Proof.
intros Hold. pose proof (replace_match old new "" Hold) as H.
rewrite sapp_nil_r in H. rewrite H. apply sapp_nil_r.
Qed.

(** Where no occurrence lies across the cut, the scan of the whole is
  the scan of the parts. *)
Lemma replace_app (old new : string) :
old ≠ "" →
∀ n a t,
  (String.length a ≤ n)%nat → Chars.no_straddle old a t →
  replace old new (a +:+ t) = replace old new a +:+ replace old new t.
Proof.
intros Hold. induction n as [|n IH]; intros a t Hn Hns.
- destruct a; [done | simpl in Hn; lia].
- destruct a as [|x a]; [done|].
  destruct (startswith (String x a +:+ t) old) eqn:Hs.
  + apply startswith_spec in Hs as [r Hr].
    apply sapp_eq_sapp in Hr as [(k & Ha & ->) | (k & Ho & Ht)].
    * rewrite Ha, sapp_assoc, !replace_match, sapp_assoc by done. f_equal.
      apply IH.
      -- destruct old as [|y old]; [done|].
         apply (f_equal String.length) in Ha.
         rewrite sapp_length in Ha. simpl in Ha, Hn. lia.
      -- rewrite Ha in Hns. by apply (no_straddle_drop old old).
    * destruct (Hns "" (String x a) k r eq_refl Ht Ho) as [? | ->]; [done|].
      rewrite sapp_nil_r in Ho. rewrite sapp_nil_l in Ht.
      rewrite <- Ho, Ht. by rewrite replace_match, replace_exact.
  + assert (startswith (String x a) old = false) as Hs'.
    { destruct (startswith (String x a) old) eqn:E; [|done].
      apply startswith_spec in E as [k Hk].
      assert (startswith (String x a +:+ t) old = true); [|congruence].
      apply startswith_spec. exists (k +:+ t). by rewrite Hk, sapp_assoc. }
    rewrite sapp_cons in Hs |- *.
    rewrite !replace_no_match by done. rewrite sapp_cons. f_equal.
    apply IH; [simpl in Hn; lia | by apply (no_straddle_tail old x)].
Qed.

(** A character foreign to the pattern passes the scan as it is. *)
Lemma replace_foreign_char (old new : string) (c : ascii) (t : string) :
old ≠ "" → contains (String c "") old = false →
replace old new (String c t) = String c (replace old new t).
Proof.
intros Hold Hc. apply replace_no_match.
destruct (startswith (String c t) old) eqn:E; [|done].
apply startswith_spec in E as [r Hr].
destruct old as [|y old].
- done.
- rewrite sapp_cons in Hr. injection Hr as -> _.
  simpl in Hc. by rewrite Ascii.eqb_refl in Hc.
Qed.

(** A word made of characters foreign to the pattern survives the scan. *)
Lemma replace_keeps_foreign_word (old new w : string) :
old ≠ "" → w ≠ "" → Chars.foreign w old = true →
∀ s, occurs w s → occurs w (replace old new s).
Proof.
intros Hold Hw Hf s (a & b & ->).
assert (∀ w', Chars.foreign w' old = true →
              replace old new (w' +:+ b) = w' +:+ replace old new b) as Hword.
{ induction w' as [|c w' IH]; [done|]. simpl. intros [Hc Hw']%andb_true_iff.
  rewrite !sapp_cons, replace_foreign_char, IH; [done | done | done |].
  by apply negb_true_iff. }
assert (Chars.no_straddle old a (w +:+ b)) as Hns; last first.
- rewrite (replace_app old new Hold (String.length a) a _ (le_n _) Hns).
  rewrite Hword by done. by exists (replace old new a), (replace old new b).
- intros a1 k1 k2 r -> Ht Ho.
  destruct k2 as [|c k2]; [by right|]. left.
  destruct w as [|c' w]; [done|].
  rewrite !sapp_cons in Ht. injection Ht as <- _.
  simpl in Hf. apply andb_true_iff in Hf as [Hc _].
  apply negb_true_iff in Hc.
  assert (contains (String c' "") old = true); [|congruence].
  apply contains_spec. exists k1, k2. by rewrite Ho.
Qed.

(** A tail without the last character of the pattern is left as it is. *)
Lemma replace_keeps_tail (old' new : string) (c : ascii) (a t : string) :
contains (String c "") t = false →
replace (old' +:+ String c "") new (a +:+ t)
= replace (old' +:+ String c "") new a +:+ t.
Proof.
intros Ht. set (old := old' +:+ String c "").
assert (old ≠ "") as Hold.
{ unfold old. intros [_ ?]%sapp_nil_inv. done. }
assert (Chars.no_straddle old a t) as Hns; last first.
- rewrite (replace_app old new Hold (String.length a) a _ (le_n _) Hns).
  f_equal. apply replace_absent.
  destruct (contains old t) eqn:E; [|done].
  apply contains_spec in E as (x & y & ->).
  assert (contains (String c "") (x +:+ old +:+ y) = true); [|congruence].
  apply contains_spec. exists (x +:+ old'), y.
  unfold old. by rewrite !sapp_assoc.
- intros a1 k1 k2 r -> -> Ho.
  destruct (decide (k2 = "")) as [? | Hk2]; [by right|]. exfalso.
  assert (∃ k2', k2 = k2' +:+ String c "") as [k2' ->].
  { unfold old in Ho. symmetry in Ho.
    apply sapp_eq_sapp in Ho as [(k & Hk & Hc) | (k & Hk & Hc)].
    - destruct k as [|z k].
      + exists "". rewrite sapp_nil_l in Hc |- *. done.
      + rewrite sapp_cons in Hc. injection Hc as _ Hc.
        symmetry in Hc. by apply sapp_nil_inv in Hc as [_ ?].
    - by exists k. }
  assert (contains (String c "") ((k2' +:+ String c "") +:+ r) = true);
    [|congruence].
  apply contains_spec. exists k2', r. by rewrite sapp_assoc.
Qed.

End ReplaceBoundary.

Section NormaliserKeeps.
Import Str Scraper DevTools.

Lemma contains_char_cons (c x : ascii) (s : string) :
contains (String c "") (String x s)
= Ascii.eqb c x || contains (String c "") s.
Proof. simpl. by rewrite andb_true_r. Qed.

Lemma contains_char_app (c : ascii) (a b : string) :
contains (String c "") (a +:+ b)
= contains (String c "") a || contains (String c "") b.
Proof.
induction a as [|x a IH]; [done|].
rewrite sapp_cons, !contains_char_cons, IH. by rewrite orb_assoc.
Qed.

(** Replacing a character by a text without it leaves none behind. *)
Lemma replace_char_gone (c : ascii) (new s : string) :
contains (String c "") new = false →
contains (String c "") (replace (String c "") new s) = false.
Proof.
intros Hnew. induction s as [|x s IH]; [done|].
destruct (Ascii.eqb c x) eqn:E.
- apply Ascii.eqb_eq in E as <-.
  change (String c s) with (String c "" +:+ s).
  rewrite replace_match by done.
  by rewrite contains_char_app, Hnew, IH.
- rewrite replace_no_match.
  + by rewrite contains_char_cons, E, IH.
  + simpl. by rewrite E.
Qed.

Lemma convert_to_original_url_keeps_cdn (u : string) :
contains "pinimg.com" u = true →
contains "pinimg.com" (convert_to_original_url u) = true.
Proof.
intros H. rewrite convert_to_original_url_cdn by done.
rewrite replace_same by done.
apply contains_spec.
do 4 (apply replace_keeps_foreign_word; [done | done | by vm_compute |]).
by apply contains_spec.
Qed.

End NormaliserKeeps.

(** Normalisation does not move a URL to another domain tier. *)
Theorem convert_to_original_url_keeps_domain (u : string) :
  DevTools.classify_domain (Scraper.convert_to_original_url u)
  = DevTools.classify_domain u.
Proof.
  destruct (Str.contains "pinimg.com" u) eqn:H.
  - unfold DevTools.classify_domain.
    by rewrite convert_to_original_url_keeps_cdn, H.
  - by rewrite convert_to_original_url_other.
Qed.

(** Normalisation leaves what follows the last slash of a URL, the file
    name with its extension, as it is. *)
Theorem convert_to_original_url_keeps_file_name (a name : string) :
  Str.contains "/" name = false →
  ∃ a', Scraper.convert_to_original_url (a +:+ name) = a' +:+ name.
Proof.
  intros Hname.
  destruct (Str.contains "pinimg.com" (a +:+ name)) eqn:H.
  - rewrite convert_to_original_url_cdn by done.
    change "/236x/" with ("/236x" +:+ "/").
    change "/474x/" with ("/474x" +:+ "/").
    change "/564x/" with ("/564x" +:+ "/").
    change "/736x/" with ("/736x" +:+ "/").
    change "/originals/" with ("/originals" +:+ "/").
    rewrite !replace_keeps_tail by done. by eexists.
  - rewrite convert_to_original_url_other by done. by exists a.
Qed.

Lemma convert_to_original_url_keeps_file_name_witness :
  ∃ a', Scraper.convert_to_original_url
          ("https://i.pinimg.com/236x/ab/cd/" +:+ "236x_photo.JPG")
        = a' +:+ "236x_photo.JPG".
Proof.
  apply convert_to_original_url_keeps_file_name. vm_compute. reflexivity.
Defined.

(** A URL without any thumbnail segment is returned as it is, an
    [/originals/] segment included. *)
Theorem convert_to_original_url_unchanged (u : string) :
  (∀ size, size ∈ DevTools.thumbnail_sizes → ¬ Str.occurs size u) →
  Scraper.convert_to_original_url u = u.
Proof.
  intros Hnone.
  assert (∀ size, size ∈ DevTools.thumbnail_sizes → Str.contains size u = false)
    as Hb.
  { intros size Hin. destruct (Str.contains size u) eqn:E; [|done].
    apply contains_spec in E. by destruct (Hnone size Hin). }
  destruct (Str.contains "pinimg.com" u) eqn:H.
  - rewrite convert_to_original_url_cdn by done.
    rewrite (replace_absent "/236x/") by (apply Hb; set_solver).
    rewrite (replace_absent "/474x/") by (apply Hb; set_solver).
    rewrite (replace_absent "/564x/") by (apply Hb; set_solver).
    rewrite (replace_absent "/736x/") by (apply Hb; set_solver).
    by apply replace_same.
  - by apply convert_to_original_url_other.
Qed.

Lemma convert_to_original_url_unchanged_witness :
  Scraper.convert_to_original_url "https://i.pinimg.com/originals/ab/cd/photo.jpg"
  = "https://i.pinimg.com/originals/ab/cd/photo.jpg".
Proof.
  apply convert_to_original_url_unchanged.
  intros size Hin Hocc. apply contains_spec in Hocc.
  unfold DevTools.thumbnail_sizes in Hin.
  repeat (apply elem_of_cons in Hin as [-> | Hin]; [by vm_compute in Hocc|]).
  by apply elem_of_nil in Hin.
Defined.


(** ** The search request *)

Lemma replace_space (s : string) :
  Str.replace " " "%20" s = Crawl.escape_spaces s.
Proof.
  induction s as [|c s IH]; [done|].
  unfold Str.replace in *. rewrite replace_from_0.
  cbn [Str.startswith Crawl.escape_spaces String.length Nat.sub].
  rewrite andb_true_r, Ascii.eqb_sym, IH.
  by destruct (Ascii.eqb c " ").
Qed.

(** The search URL is the fixed prefix followed by the keyword in which
    every space has become [%20] and every other character stands where
    it stood: spaces are the only characters escaped.  So the URL holds
    no space, and a keyword without spaces enters it as it is. *)
Theorem search_url_escapes_spaces_only (keyword : string) :
  Crawl.search_url keyword
  = "https://www.pinterest.com/search/pins/?q=" +:+ Crawl.escape_spaces keyword ∧
  Str.contains " " (Crawl.search_url keyword) = false ∧
  (Str.contains " " keyword = false →
   Crawl.search_url keyword
   = "https://www.pinterest.com/search/pins/?q=" +:+ keyword).
Proof.
  unfold Crawl.search_url. split_and!.
  - by rewrite replace_space.
  - by rewrite contains_char_app, replace_char_gone.
  - intros H. by rewrite replace_absent.
Qed.

Example search_url_keeps_ampersand :
  Crawl.search_url "dark aesthetic & moody #1 100%"
  = "https://www.pinterest.com/search/pins/?q=dark%20aesthetic%20&%20moody%20#1%20100%".
Proof. vm_compute. reflexivity. Qed.

Lemma bind_const_replicate {A B : Type} (l : list A) (k : list B) :
  (_ ← l; k) = mjoin (replicate (length l) k).
Proof.
  induction l as [|x l IH]; [done|].
  by rewrite bind_cons, IH.
Qed.

(** A search scrolls [min(5, max_pins // 10 + 1)] times, each scroll
    followed by a wait of a second and a half: not at all when [max_pins]
    is negative, [k + 1] times when [max_pins] lies between [10 k] and
    [10 k + 9] for [k] from 0 to 3, and five times from 40 pins on; so
    four times for the thirty pins [main] asks for. *)
Theorem scroll_page_bounds (max_pins : Z) :
  ∃ scrolls : nat,
    Crawl.scroll_page (Crawl.num_scrolls max_pins)
    = mjoin (replicate scrolls [Crawl.Scrolled; Crawl.Waited (3 # 2)]) ∧
    Z.of_nat scrolls = Z.max 0 (Z.min 5 (max_pins / 10 + 1)) ∧
    (max_pins < 0 → scrolls = 0%nat) ∧
    (∀ k, 0 ≤ k < 4 → 10 * k ≤ max_pins < 10 * (k + 1) →
          Z.of_nat scrolls = k + 1) ∧
    (40 ≤ max_pins → scrolls = 5%nat) ∧
    (max_pins = Crawl.PINS_PER_KEYWORD → scrolls = 4%nat).
Proof.
  exists (Z.to_nat (Crawl.num_scrolls max_pins)).
  unfold Crawl.scroll_page. rewrite bind_const_replicate, length_seq.
  split; [done|]. unfold Crawl.num_scrolls, Crawl.PINS_PER_KEYWORD.
  pose proof (Z.div_mod max_pins 10 ltac:(lia)).
  pose proof (Z.mod_pos_bound max_pins 10 ltac:(lia)).
  split_and!; lia.
Qed.

(** ** The results of a run over several keywords *)

Lemma scrape_search_results_inv (urlparse_path : string → outcome string)
    (results : list Scraper.pin) (cs : list Scraper.candidate) (max_pins : Z)
    (r : list Scraper.pin * list Scraper.pin) :
  Crawl.scrape_search_results urlparse_path results cs max_pins = Ret r →
  Scraper.scrape_search urlparse_path cs max_pins = Ret r.1 ∧
  r.2 = results ++ r.1.
Proof.
  unfold Crawl.scrape_search_results, Scraper.scrape_search, Py.try_except.
  destruct (Scraper.extract_pins_from_page urlparse_path cs) as [pins|e].
  - rewrite !bind_ret. by intros [= <-].
  - rewrite !bind_raise. destruct (Py.is_Exception e); [|done].
    intros [= <-]. simpl. by rewrite app_nil_r.
Qed.

Lemma scrape_keywords_from (urlparse_path : string → outcome string)
    (pages : list (list Scraper.candidate)) :
  ∀ results0 results,
    Crawl.scrape_keywords urlparse_path results0 pages = Ret results →
    ∃ outs,
      Forall2 (λ cs out,
                 Scraper.scrape_search urlparse_path cs Crawl.PINS_PER_KEYWORD
                 = Ret out) pages outs ∧
      results = results0 ++ mjoin outs.
Proof.
  induction pages as [|cs rest IH]; intros results0 results H.
  - injection H as <-. exists []. split; [constructor | by rewrite app_nil_r].
  - cbn [Crawl.scrape_keywords] in H.
    apply bind_Ret_inv in H as (r & Hr & H).
    apply scrape_search_results_inv in Hr as [Hout Hr2].
    apply IH in H as (outs & Houts & ->).
    exists (r.1 :: outs). split; [by constructor|].
    rewrite Hr2. simpl. by rewrite app_assoc.
Qed.

(** The results of a run are what the searches returned, one after the
    other: nothing is de-duplicated from one search to the next, and the
    results hold at most thirty pins per keyword. *)
Theorem scrape_keywords_accumulates
    (urlparse_path : string → outcome string)
    (pages : list (list Scraper.candidate)) (results : list Scraper.pin) :
  Crawl.scrape_keywords urlparse_path [] pages = Ret results →
  (∃ outs,
     Forall2 (λ cs out,
                Scraper.scrape_search urlparse_path cs Crawl.PINS_PER_KEYWORD
                = Ret out) pages outs ∧
     results = mjoin outs) ∧
  (length results ≤ 30 * length pages)%nat.
Proof.
  intros (outs & Houts & ->)%scrape_keywords_from. split; [by exists outs|].
  simpl. induction Houts as [|cs out pages outs Hout _ IH]; [done|].
  simpl. rewrite length_app.
  apply scrape_search_length in Hout as [_ Hlen].
  unfold Crawl.PINS_PER_KEYWORD in Hlen. lia.
Qed.

Lemma scrape_keywords_accumulates_witness :
  let page :=
    [Scraper.Candidate (Some "https://i.pinimg.com/236x/ab/a.jpg") "A" ""] in
  let a :=
    Scraper.Pin "A" "" "https://i.pinimg.com/originals/ab/a.jpg" "hd-original" in
  (∃ outs,
     Forall2 (λ cs out,
                Scraper.scrape_search Urllib.urlparse_path cs
                  Crawl.PINS_PER_KEYWORD = Ret out) [page; page] outs ∧
     [a; a] = mjoin outs) ∧
  (length [a; a] ≤ 30 * length [page; page])%nat.
Proof.
  intros page a.
  apply (scrape_keywords_accumulates Urllib.urlparse_path [page; page] [a; a]).
  vm_compute. reflexivity.
Defined.


(** ** Equality of keys *)

Section KeyEquality.

Lemma Qeq_bool_sym (x y : Q) : Qeq_bool x y = Qeq_bool y x.
Proof.
destruct (Qeq_bool x y) eqn:E1, (Qeq_bool y x) eqn:E2; try done.
- apply Qeq_bool_iff in E1. symmetry in E1. apply Qeq_bool_iff in E1. congruence.
- apply Qeq_bool_iff in E2. symmetry in E2. apply Qeq_bool_iff in E2. congruence.
Qed.

Lemma py_eqb_sym (a b : pyval) : Py.eqb a b = Py.eqb b a.
Proof.
unfold Py.eqb.
destruct (Py.as_number a) as [x|] eqn:Ha, (Py.as_number b) as [y|] eqn:Hb;
  try done.
- apply Qeq_bool_sym.
- destruct a, b; try done. apply String.eqb_sym.
Qed.

Lemma py_eqb_trans (a b c : pyval) :
Py.eqb a b = true → Py.eqb b c = true → Py.eqb a c = true.
Proof.
unfold Py.eqb.
destruct (Py.as_number a) as [x|] eqn:Ha, (Py.as_number b) as [y|] eqn:Hb,
  (Py.as_number c) as [z|] eqn:Hc; try done.
- intros H1%Qeq_bool_iff H2%Qeq_bool_iff. apply Qeq_bool_iff. by rewrite H1.
- destruct a, b; try done; destruct c; try done.
  intros ->%String.eqb_eq ->%String.eqb_eq. apply String.eqb_refl.
Qed.

Lemma py_eqb_refl (a : pyval) : Py.hashable a = true → Py.eqb a a = true.
Proof.
unfold Py.eqb. destruct a; try done; simpl; intros _.
- by destruct b.
- apply Qeq_bool_iff. reflexivity.
- apply Qeq_bool_iff. reflexivity.
- apply String.eqb_refl.
Qed.

End KeyEquality.

(** ** [remove_duplicates] in closed form *)

Section RemoveDuplicatesFacts.
Import Dedup.

Lemma filter_ext_in {A : Type} (P Q : A → Prop)
  `{!∀ x, Decision (P x)} `{!∀ x, Decision (Q x)} (l : list A) :
(∀ x, x ∈ l → (P x ↔ Q x)) → filter P l = filter Q l.
Proof.
induction l as [|x l IH]; intros Hext; [done|].
rewrite !filter_cons.
rewrite IH by (intros y Hy; apply Hext; by apply list_elem_of_further).
destruct (decide (P x)) as [HP | HP], (decide (Q x)) as [HQ | HQ]; try done.
- destruct HQ. apply Hext; [apply list_elem_of_here | done].
- destruct HP. apply Hext; [apply list_elem_of_here | done].
Qed.

Lemma keyable_url (entry : pyval) :
keyable entry = true →
∃ url, Cache.entry_url entry = Ret url ∧
       (Py.truthy url = true → Py.hashable url = true).
Proof.
unfold keyable. destruct (Cache.entry_url entry) as [url|]; [|done].
intros H. exists url. split; [done|]. intros Ht. by rewrite Ht in H.
Qed.

Lemma same_url_sym (x y : pyval) : same_url x y = same_url y x.
Proof.
unfold same_url.
destruct (Cache.entry_url x), (Cache.entry_url y); try done. apply py_eqb_sym.
Qed.

Lemma same_url_trans (x y z : pyval) :
same_url x y = true → same_url y z = true → same_url x z = true.
Proof.
unfold same_url.
destruct (Cache.entry_url x), (Cache.entry_url y), (Cache.entry_url z);
  try done. apply py_eqb_trans.
Qed.

Lemma same_url_refl (x : pyval) :
keyable x = true → Cache.with_url x = true → same_url x x = true.
Proof.
intros (url & Hurl & Hh)%keyable_url. unfold Cache.with_url, same_url.
rewrite Hurl. intros Ht. by apply py_eqb_refl, Hh.
Qed.

Lemma seen_same (seen_urls : list pyval) (x y : pyval) :
same_url x y = true → seen seen_urls x = true → seen seen_urls y = true.
Proof.
unfold same_url, seen.
destruct (Cache.entry_url x) as [u|], (Cache.entry_url y) as [v|]; try done.
intros Huv (w & Hw & Huw)%existsb_exists. apply existsb_exists.
exists w. split; [done|].
apply (py_eqb_trans v u w); [by rewrite py_eqb_sym | done].
Qed.

Lemma first_by_url_sublist (data : list pyval) :
first_by_url data `sublist_of` data.
Proof.
induction data as [|item rest IH]; [done|]. simpl.
destruct (Cache.with_url item).
- apply sublist_skip. etrans; [apply sublist_filter | exact IH].
- by apply sublist_cons.
Qed.

Lemma first_by_url_with_url (data : list pyval) :
Forall (λ x, Cache.with_url x = true) (first_by_url data).
Proof.
induction data as [|item rest IH]; [constructor|]. simpl.
destruct (Cache.with_url item) eqn:E; [|done].
constructor; [done|].
apply Forall_forall. intros x [_ Hx]%list_elem_of_filter.
by apply (proj1 (Forall_forall _ _) IH).
Qed.

(** The loop, from any state it can be in. *)
Lemma dedup_loop_spec (data : list pyval) :
Forall (λ e, keyable e = true) data →
∀ seen_urls unique_data,
  DevTools.dedup_loop data seen_urls unique_data
  = Ret (unique_data
         ++ filter (λ x, seen seen_urls x = false) (first_by_url data)).
Proof.
induction 1 as [|item rest Hitem _ IH]; intros seen_urls unique_data.
- simpl. by rewrite app_nil_r.
- cbn [DevTools.dedup_loop first_by_url].
  destruct (keyable_url item Hitem) as (url & Hurl & Hhash).
  assert (Cache.with_url item = Py.truthy url) as Hw.
  { unfold Cache.with_url. by rewrite Hurl. }
  assert (seen seen_urls item = existsb (Py.eqb url) seen_urls) as Hs.
  { unfold seen. by rewrite Hurl. }
  rewrite Hurl, bind_ret, Hw.
  destruct (Py.truthy url) eqn:Ht; [|apply IH].
  unfold Py.set_contains. rewrite (Hhash eq_refl), bind_ret.
  destruct (existsb (Py.eqb url) seen_urls) eqn:Hdup; simpl.
  + rewrite IH. f_equal. f_equal.
    rewrite filter_cons_False by (rewrite Hs; congruence).
    rewrite list_filter_filter. apply list_filter_iff.
    intros x. split; [|tauto]. intros Hx. split; [done|].
    destruct (same_url item x) eqn:E; [|done].
    rewrite (seen_same seen_urls item x) in Hx; [done | done | by rewrite Hs].
  + rewrite IH, <- app_assoc. f_equal. f_equal.
    rewrite filter_cons_True by (by rewrite Hs).
    simpl. f_equal.
    rewrite list_filter_filter. apply filter_ext_in.
    intros x Hx.
    assert (Cache.with_url x = true) as Hxw.
    { revert x Hx. apply Forall_forall, first_by_url_with_url. }
    unfold seen, same_url, Cache.with_url in *. rewrite Hurl.
    destruct (Cache.entry_url x) as [v|]; [|done]. simpl.
    rewrite (py_eqb_sym v url).
    destruct (Py.eqb url v), (existsb (Py.eqb v) seen_urls); simpl; tauto.
Qed.

Lemma remove_duplicates_spec (l : list pyval) :
Forall (λ e, keyable e = true) l →
DevTools.remove_duplicates (PyList l) = Ret (first_by_url l).
Proof.
intros H. unfold DevTools.remove_duplicates. simpl Py.len. simpl Py.iter.
rewrite !bind_ret, dedup_loop_spec by done. simpl. f_equal.
apply filter_all. apply Forall_forall. intros x _.
unfold seen. by destruct (Cache.entry_url x).
Qed.

(** An entry that no set can hold, or that is no record, stops the loop. *)
Lemma dedup_loop_not_keyable (data : list pyval) :
¬ Forall (λ e, keyable e = true) data →
∀ seen_urls unique_data,
  ∃ e, DevTools.dedup_loop data seen_urls unique_data = Raise e.
Proof.
induction data as [|item rest IH]; intros Hnot seen_urls unique_data.
- destruct Hnot. constructor.
- cbn [DevTools.dedup_loop].
  destruct (keyable item) eqn:Hk.
  + assert (¬ Forall (λ e, keyable e = true) rest) as Hrest.
    { intros Hrest. apply Hnot. by constructor. }
    destruct (keyable_url item Hk) as (url & Hurl & Hhash).
    rewrite Hurl, bind_ret.
    destruct (Py.truthy url) eqn:Ht; [|by apply IH].
    unfold Py.set_contains. rewrite (Hhash eq_refl), bind_ret.
    destruct (negb _); by apply IH.
  + unfold keyable in Hk.
    destruct (Cache.entry_url item) as [url|e]; [|by exists e].
    rewrite bind_ret. apply orb_false_iff in Hk as [Ht Hh].
    apply negb_false_iff in Ht. rewrite Ht.
    unfold Py.set_contains. rewrite Hh. by eexists.
Qed.

End RemoveDuplicatesFacts.

Section FirstByUrlFacts.
Import Dedup.

Lemma ForallOrdPairs_sublist {A : Type} (R : A → A → Prop) (l1 l2 : list A) :
l1 `sublist_of` l2 → ForallOrdPairs R l2 → ForallOrdPairs R l1.
Proof.
induction 1 as [|x l1 l2 Hsub IH|x l1 l2 Hsub IH]; intros H2.
- constructor.
- inversion H2 as [|? ? Hx Hrest]; subst. constructor; [|by apply IH].
  apply Forall_forall. intros y Hy.
  apply (proj1 (Forall_forall _ _) Hx). by eapply elem_of_sublist.
- inversion H2; subst. by apply IH.
Qed.

Lemma first_by_url_distinct (data : list pyval) :
ForallOrdPairs (λ x y, same_url x y = false) (first_by_url data).
Proof.
induction data as [|item rest IH]; [constructor|]. simpl.
destruct (Cache.with_url item); [|done].
constructor.
- apply Forall_forall. by intros x [Hx _]%list_elem_of_filter.
- eapply ForallOrdPairs_sublist; [apply sublist_filter | exact IH].
Qed.

Lemma first_by_url_covers (data : list pyval) (e : pyval) :
Forall (λ x, keyable x = true) data →
e ∈ data → Cache.with_url e = true →
∃ x, x ∈ first_by_url data ∧ same_url x e = true.
Proof.
induction 1 as [|item rest Hitem _ IH]; intros He Hw.
- by apply elem_of_nil in He.
- apply elem_of_cons in He as [-> | He].
  + exists item. simpl. rewrite Hw. split; [apply list_elem_of_here|].
    by apply same_url_refl.
  + destruct (IH He Hw) as (x & Hx & Hxe). simpl.
    destruct (Cache.with_url item) eqn:Hiw; [|by exists x].
    destruct (same_url item x) eqn:Hix.
    * exists item. split; [apply list_elem_of_here|].
      by apply (same_url_trans item x e).
    * exists x. split; [|done]. apply list_elem_of_further.
      by apply list_elem_of_filter.
Qed.

Lemma first_by_url_first (pre post : list pyval) (e : pyval) :
Cache.with_url e = true →
Forall (λ x, same_url x e = false) pre →
e ∈ first_by_url (pre ++ e :: post).
Proof.
intros Hw. induction 1 as [|p pre Hp _ IH]; simpl.
- rewrite Hw. apply list_elem_of_here.
- destruct (Cache.with_url p).
  + apply list_elem_of_further. by apply list_elem_of_filter.
  + done.
Qed.

Lemma first_by_url_fixed (m : list pyval) :
Forall (λ x, Cache.with_url x = true) m →
ForallOrdPairs (λ x y, same_url x y = false) m →
first_by_url m = m.
Proof.
induction 1 as [|x m Hx _ IH]; intros Hd; [done|].
inversion Hd as [|? ? Hxm Hm]; subst. simpl.
rewrite Hx, IH by done. f_equal. by apply filter_all.
Qed.

Lemma remove_duplicates_list_inv (l out : list pyval) :
DevTools.remove_duplicates (PyList l) = Ret out →
Forall (λ e, keyable e = true) l ∧ out = first_by_url l.
Proof.
intros H.
destruct (decide (Forall (λ e, keyable e = true) l)) as [Hk | Hk].
- split; [done|]. rewrite remove_duplicates_spec in H by done. by injection H.
- unfold DevTools.remove_duplicates in H.
  simpl Py.len in H. simpl Py.iter in H. rewrite !bind_ret in H.
  destruct (dedup_loop_not_keyable l Hk [] []) as [e He]. congruence.
Qed.

End FirstByUrlFacts.

(** [remove_duplicates] returns on exactly the arrays whose entries are
    records with a URL that is falsy or can be a member of a set: an
    entry that is no record, or whose URL is a non-empty list or object,
    makes it raise. *)
Theorem remove_duplicates_returns_iff (l : list pyval) :
  (∃ out, DevTools.remove_duplicates (PyList l) = Ret out) ↔
  Forall (λ e, Dedup.keyable e = true) l.
Proof.
  split.
  - intros [out H]. by apply remove_duplicates_list_inv in H as [? _].
  - intros H. exists (Dedup.first_by_url l). by apply remove_duplicates_spec.
Qed.

(** What [remove_duplicates] keeps is a subsequence of the cache, in the
    order of the cache, in which no two entries have equal URLs. *)
Theorem remove_duplicates_stable_and_distinct (l out : list pyval) :
  DevTools.remove_duplicates (PyList l) = Ret out →
  out `sublist_of` l ∧
  ForallOrdPairs (λ x y, Dedup.same_url x y = false) out.
Proof.
  intros [_ ->]%remove_duplicates_list_inv. split.
  - apply first_by_url_sublist.
  - apply first_by_url_distinct.
Qed.

Lemma remove_duplicates_stable_and_distinct_witness :
  [PyDict [("media", PyStr "A")]; PyDict [("url", PyStr "B")]]
  `sublist_of`
  [PyDict [("media", PyStr "A")]; PyDict [("url", PyStr "B")];
   PyDict [("media", PyStr "A"); ("title", PyStr "again")]] ∧
  ForallOrdPairs (λ x y, Dedup.same_url x y = false)
    [PyDict [("media", PyStr "A")]; PyDict [("url", PyStr "B")]].
Proof.
  apply remove_duplicates_stable_and_distinct. vm_compute. reflexivity.
Defined.

(** No URL is lost: every entry with a URL has its URL on an entry that
    is kept, and the first entry with a given URL is itself kept. *)
Theorem remove_duplicates_keeps_every_url (l out : list pyval) :
  DevTools.remove_duplicates (PyList l) = Ret out →
  (∀ e, e ∈ l → Cache.with_url e = true →
        ∃ x, x ∈ out ∧ Dedup.same_url x e = true) ∧
  (∀ pre e post,
     l = pre ++ e :: post → Cache.with_url e = true →
     Forall (λ x, Dedup.same_url x e = false) pre →
     e ∈ out).
Proof.
  intros [Hk ->]%remove_duplicates_list_inv. split.
  - intros e. by apply first_by_url_covers.
  - intros pre e post -> Hw Hpre. by apply first_by_url_first.
Qed.

Lemma remove_duplicates_keeps_every_url_witness :
  PyDict [("url", PyStr "B")]
  ∈ [PyDict [("media", PyStr "A")]; PyDict [("url", PyStr "B")]].
Proof.
  refine (proj2 (remove_duplicates_keeps_every_url
           [PyDict [("media", PyStr "A")]; PyDict [("url", PyStr "B")];
            PyDict [("media", PyStr "A"); ("title", PyStr "again")]]
           [PyDict [("media", PyStr "A")]; PyDict [("url", PyStr "B")]] _)
           [PyDict [("media", PyStr "A")]] (PyDict [("url", PyStr "B")])
           [PyDict [("media", PyStr "A"); ("title", PyStr "again")]]
           eq_refl eq_refl _).
  - vm_compute. reflexivity.
  - repeat constructor.
Defined.

(** A second pass removes nothing more. *)
Theorem remove_duplicates_idempotent (l out : list pyval) :
  DevTools.remove_duplicates (PyList l) = Ret out →
  DevTools.remove_duplicates (PyList out) = Ret out.
Proof.
  intros [Hk ->]%remove_duplicates_list_inv.
  rewrite remove_duplicates_spec.
  - f_equal. apply first_by_url_fixed.
    + apply first_by_url_with_url.
    + apply first_by_url_distinct.
  - apply Forall_forall. intros x Hx.
    apply (proj1 (Forall_forall _ _) Hk).
    eapply elem_of_sublist; [exact Hx | apply first_by_url_sublist].
Qed.

Lemma remove_duplicates_idempotent_witness :
  DevTools.remove_duplicates
    (PyList [PyDict [("media", PyStr "A")]; PyDict [("url", PyStr "B")]])
  = Ret [PyDict [("media", PyStr "A")]; PyDict [("url", PyStr "B")]].
Proof.
  apply (remove_duplicates_idempotent
           [PyDict [("media", PyStr "A")]; PyDict [("url", PyStr "B")];
            PyDict [("media", PyStr "A"); ("title", PyStr "again")];
            PyDict [("title", PyStr "no url")]]).
  vm_compute. reflexivity.
Defined.

(** ** The two de-duplications, side by side *)

Section DedupsAgree.
Import Dedup Scraper.

Lemma entry_url_to_entry (p : pin) :
media p ≠ "" → Cache.entry_url (Crawl.to_entry p) = Ret (PyStr (media p)).
Proof.
intros Hm. unfold Cache.entry_url, Crawl.to_entry. simpl.
destruct (String.eqb (media p) "") eqn:E; [|done].
by apply String.eqb_eq in E.
Qed.

Lemma with_url_to_entry (p : pin) :
media p ≠ "" → Cache.with_url (Crawl.to_entry p) = true.
Proof.
intros Hm. unfold Cache.with_url. rewrite entry_url_to_entry by done. simpl.
destruct (String.eqb (media p) "") eqn:E; [|done].
by apply String.eqb_eq in E.
Qed.

Lemma keyable_to_entry (p : pin) : keyable (Crawl.to_entry p) = true.
Proof.
unfold keyable, Cache.entry_url, Crawl.to_entry. simpl.
destruct (String.eqb (media p) ""); simpl; apply orb_true_r.
Qed.

Lemma same_url_to_entry (p q : pin) :
media p ≠ "" → media q ≠ "" →
same_url (Crawl.to_entry p) (Crawl.to_entry q) = String.eqb (media p) (media q).
Proof.
intros Hp Hq. unfold same_url. by rewrite !entry_url_to_entry.
Qed.

Lemma filter_fmap_in {A B : Type} (f : A → B) (P : B → Prop) (Q : A → Prop)
  `{!∀ x, Decision (P x)} `{!∀ x, Decision (Q x)} (l : list A) :
(∀ x, x ∈ l → (P (f x) ↔ Q x)) →
filter P (f <$> l) = f <$> filter Q l.
Proof.
induction l as [|x l IH]; intros Hext; [done|].
rewrite fmap_cons, !filter_cons.
rewrite IH by (intros y Hy; apply Hext; by apply list_elem_of_further).
pose proof (Hext x (list_elem_of_here x l)) as Hx.
destruct (decide (P (f x))), (decide (Q x)); try done; tauto.
Qed.

Lemma first_by_url_to_entry (pins : list pin) :
Forall (λ p, media p ≠ "") pins →
first_by_url (Crawl.to_entry <$> pins)
= Crawl.to_entry <$> first_occurrences pins.
Proof.
induction 1 as [|p rest Hp Hrest IH]; [done|].
rewrite fmap_cons. cbn [first_by_url first_occurrences].
rewrite with_url_to_entry, IH, fmap_cons by done. f_equal.
apply filter_fmap_in. intros q Hq.
assert (media q ≠ "") as Hqm.
{ apply (proj1 (Forall_forall _ _) Hrest).
  eapply elem_of_sublist; [exact Hq | apply first_occurrences_sublist]. }
rewrite same_url_to_entry by done.
destruct (String.eqb (media p) (media q)) eqn:E.
- apply String.eqb_eq in E. split; [done | congruence].
- apply String.eqb_neq in E. split; [congruence | done].
Qed.

End DedupsAgree.

(** On what the scraper saves, [remove_duplicates] keeps the entries of
    the pins that the de-duplication of [scrape_search] keeps when its
    cap does not bind: both keep the first pin of every media URL. *)
Theorem remove_duplicates_agrees_with_unique_pins
    (pins : list Scraper.pin) (max_pins : Z) :
  Forall (λ p, Scraper.media p ≠ "") pins →
  Z.of_nat (length pins) ≤ max_pins →
  DevTools.remove_duplicates (PyList (Crawl.to_entry <$> pins))
  = Ret (Crawl.to_entry <$> Scraper.unique_pins max_pins pins).
Proof.
  intros Hm Hcap. rewrite remove_duplicates_spec.
  - rewrite first_by_url_to_entry, unique_pins_spec by done.
    rewrite take_ge; [done|].
    pose proof (sublist_length _ _ (first_occurrences_sublist pins)). lia.
  - apply Forall_forall. intros x (p & -> & _)%list_elem_of_fmap.
    apply keyable_to_entry.
Qed.

Lemma remove_duplicates_agrees_with_unique_pins_witness :
  let a := Scraper.Pin "A" "" "https://i.pinimg.com/originals/a.jpg" "hd-original" in
  let b := Scraper.Pin "B" "" "https://i.pinimg.com/originals/b.jpg" "hd-original" in
  DevTools.remove_duplicates (PyList (Crawl.to_entry <$> [a; b; a]))
  = Ret (Crawl.to_entry <$> Scraper.unique_pins 30 [a; b; a]).
Proof.
  intros a b. apply remove_duplicates_agrees_with_unique_pins.
  - repeat constructor; discriminate.
  - simpl. lia.
Defined.

(** ** [remove_duplicates] and the file *)

Section FileFacts.
Import Dedup.

Lemma missing_or_not (f : Validator.file_state) :
  f = Validator.Missing ∨ f ≠ Validator.Missing.
Proof. destruct f; [by left | by right..]. Qed.

(** Only of an array is anything kept. *)
Lemma remove_duplicates_not_list (data : pyval) (out : list pyval) :
  DevTools.remove_duplicates data = Ret out →
  (∃ l, data = PyList l) ∨ out = [].
Proof.
  unfold DevTools.remove_duplicates.
  destruct data as [|b|n|q|u|l|items]; try discriminate.
  - destruct u as [|c u]; [|discriminate]. intros [= <-]. by right.
  - intros _. left. by exists l.
  - destruct items as [|[k v] items]; [|discriminate]. intros [= <-]. by right.
Qed.

Lemma remove_duplicates_again (data : pyval) (out : list pyval) :
  DevTools.remove_duplicates data = Ret out →
  DevTools.remove_duplicates (PyList out) = Ret out.
Proof.
  intros H. destruct (remove_duplicates_not_list data out H) as [[l ->] | ->];
    [|reflexivity].
  apply remove_duplicates_list_inv in H as [Hk ->].
  rewrite remove_duplicates_spec.
  - f_equal. apply first_by_url_fixed.
    + apply first_by_url_with_url.
    + apply first_by_url_distinct.
  - apply Forall_forall. intros x Hx.
    apply (proj1 (Forall_forall _ _) Hk).
    eapply elem_of_sublist; [exact Hx | apply first_by_url_sublist].
Qed.

(** The run on a file that exists, step by step. *)
Lemma remove_duplicates_file_steps (d : Os.disk) (filepath : string)
    (f : Validator.file_state) :
  f ≠ Validator.Missing →
  remove_duplicates_file d filepath f =
  match Os.with_suffix d filepath ".backup.json" with
  | Raise e => ([], Raise e)
  | Ret b =>
      match Os.rename d filepath b with
      | Raise e => ([], Raise e)
      | Ret _ =>
          match Validator.load f ≫= DevTools.remove_duplicates with
          | Raise e => ([Renamed filepath b], Raise e)
          | Ret out =>
              match Os.dump d filepath out with
              | Raise e => ([Renamed filepath b], Raise e)
              | Ret _ => ([Renamed filepath b; Written filepath out], Ret tt)
              end
          end
      end
  end.
Proof.
  intros Hf.
  assert (remove_duplicates_file d filepath f =
          (backup_path ← Io.lift (Os.with_suffix d filepath ".backup.json");
           _ ← Io.lift (Os.rename d filepath backup_path);
           _ ← Io.emit (Renamed filepath backup_path);
           data ← Io.lift (Validator.load f);
           unique_data ← Io.lift (DevTools.remove_duplicates data);
           _ ← Io.lift (Os.dump d filepath unique_data);
           Io.emit (Written filepath unique_data))) as ->
    by by destruct f.
  rewrite io_bind_lift.
  destruct (Os.with_suffix d filepath ".backup.json") as [b|e]; [|done].
  rewrite io_bind_lift. destruct (Os.rename d filepath b) as [[]|e]; [|done].
  rewrite io_bind_emit, io_bind_lift.
  destruct (Validator.load f) as [data|e]; [|done].
  rewrite bind_ret, io_bind_lift.
  destruct (DevTools.remove_duplicates data) as [out|e]; [|done].
  rewrite io_bind_lift. by destruct (Os.dump d filepath out) as [[]|e].
Qed.
End FileFacts.

(** [remove_duplicates] renames the cache to its backup before it reads
    it, and writes last.  So a run leaves one of three traces: nothing
    (the file is missing, the path has no name to put a suffix to, or the
    rename is refused); the rename alone, and then the run raises and
    the cache is at the backup path only (it could not be read, parsed or
    de-duplicated, or the write was refused); the rename and one write,
    and then the run returns.  What it writes is what the
    de-duplication makes of the content of the file, of an array the
    first entry of every URL; and a later run on what it wrote writes the
    same again. *)
Theorem remove_duplicates_file_protocol
    (d : Os.disk) (filepath : string) (f : Validator.file_state) :
  let run := Dedup.remove_duplicates_file d filepath f in
  (run = ([], Ret tt) ∧ f = Validator.Missing ∨
   Io.trace run = [] ∧ Io.raises run ∧
     ((∃ e, Os.with_suffix d filepath ".backup.json" = Raise e) ∨
      ∃ b e, Os.with_suffix d filepath ".backup.json" = Ret b ∧
             Os.rename d filepath b = Raise e) ∨
   ∃ b, Os.with_suffix d filepath ".backup.json" = Ret b ∧
        Os.rename d filepath b = Ret tt ∧
        (Io.trace run = [Renamed filepath b] ∧ Io.raises run ∨
         ∃ out, Io.trace run = [Renamed filepath b; Written filepath out] ∧
                Io.result run = Ret tt)) ∧
  (∀ p out, Written p out ∈ Io.trace run →
     p = filepath ∧ Io.result run = Ret tt ∧
     ∃ data, f = Validator.Holds data ∧
             DevTools.remove_duplicates data = Ret out ∧
             (∀ l, data = PyList l → out = Dedup.first_by_url l)) ∧
  (∀ p out (d' : Os.disk) b',
     Written p out ∈ Io.trace run → Os.reliable d' →
     Os.with_suffix d' filepath ".backup.json" = Ret b' →
     Dedup.remove_duplicates_file d' filepath (Validator.Holds (PyList out))
     = ([Renamed filepath b'; Written filepath out], Ret tt)).
Proof.
  cbv zeta.
  assert (∀ p out, Written p out ∈
                     Io.trace (Dedup.remove_duplicates_file d filepath f) →
            p = filepath ∧
            Io.result (Dedup.remove_duplicates_file d filepath f) = Ret tt ∧
            ∃ data, f = Validator.Holds data ∧
                    DevTools.remove_duplicates data = Ret out) as Hwritten.
  { intros p out. destruct (missing_or_not f) as [-> | Hf].
    { intros Hin. by apply elem_of_nil in Hin. }
    rewrite remove_duplicates_file_steps by done. unfold Io.trace, Io.result.
    destruct (Os.with_suffix d filepath ".backup.json") as [b|e];
      [|intros Hin; by apply elem_of_nil in Hin].
    destruct (Os.rename d filepath b) as [[]|e];
      [|intros Hin; by apply elem_of_nil in Hin].
    destruct (Validator.load f ≫= DevTools.remove_duplicates) as [out'|e]
      eqn:Hrun.
    2:{ cbn [fst]. rewrite elem_of_cons, elem_of_nil.
        intros [Hin | []]. discriminate Hin. }
    apply bind_Ret_inv in Hrun as (data & Hload & Hdata).
    assert (f = Validator.Holds data) as ->.
    { destruct f; try discriminate Hload. by injection Hload as ->. }
    destruct (Os.dump d filepath out') as [[]|e]; cbn [fst snd];
      rewrite ?elem_of_cons, elem_of_nil.
    - intros [Hin | [Hin | []]]; [discriminate Hin|].
      injection Hin as -> ->. split; [done|]. split; [done|]. by exists data.
    - intros [Hin | []]. discriminate Hin. }
  split_and!.
  - destruct (missing_or_not f) as [-> | Hf]; [by left|].
    right. rewrite remove_duplicates_file_steps by done.
    unfold Io.trace, Io.result, Io.raises.
    destruct (Os.with_suffix d filepath ".backup.json") as [b|e].
    2:{ left. split; [done|]. split; [by eexists|]. left. by eexists. }
    destruct (Os.rename d filepath b) as [[]|e] eqn:Hren.
    2:{ left. split; [done|]. split; [by eexists|]. right. by exists b, e. }
    right. exists b. split; [done|]. split; [done|].
    destruct (Validator.load f ≫= DevTools.remove_duplicates) as [out|e];
      [|left; split; [done|]; by eexists].
    destruct (Os.dump d filepath out) as [[]|e].
    + right. by exists out.
    + left. split; [done|]. by eexists.
  - intros p out Hin.
    destruct (Hwritten p out Hin) as (-> & Hres & data & -> & Hdata).
    split; [done|]. split; [done|]. exists data. split; [done|]. split; [done|].
    intros l ->. by apply remove_duplicates_list_inv in Hdata as [_ ->].
  - intros p out d' b' Hin [Hrename Hdump] Hsuffix.
    destruct (Hwritten p out Hin) as (_ & _ & data & _ & Hdata).
    rewrite remove_duplicates_file_steps by done.
    rewrite Hsuffix, Hrename. simpl Validator.load.
    by rewrite bind_ret, (remove_duplicates_again data out Hdata), Hdump.
Qed.

(** The path [.] has no file name: nothing is renamed, and the run
    raises.  A refused write leaves the cache at its backup. *)
Example remove_duplicates_file_failures :
  let entries := PyList [PyDict [("media", PyStr "A")];
                         PyDict [("media", PyStr "A")]] in
  let nameless := Os.Disk (λ _ _, Raise ValueError) (λ _ _, Ret tt) (λ _ _, Ret tt) in
  let full := Os.Disk (λ p sfx, Ret (p +:+ sfx)) (λ _ _, Ret tt)
                (λ _ _, Raise OSError) in
  Dedup.remove_duplicates_file nameless "." (Validator.Holds entries)
    = ([], Raise ValueError) ∧
  Dedup.remove_duplicates_file full "cache" (Validator.Holds entries)
    = ([Renamed "cache" "cache.backup.json"], Raise OSError).
Proof. split; by vm_compute. Qed.

(** ** [check_url], characterised *)

(** [check_url] answers [True] exactly when the URL is a non-empty string
    and either the lightweight request is answered with a status below
    400 and an image content type, or it is answered otherwise and the
    full request is answered so.  An answer of the lightweight request
    that is accepted settles the probe: the full request is not looked
    at. *)
Theorem check_url_true_iff (s : Validator.session) (task : nat) (url : pyval) :
  Validator.check_url s task url = Ret true ↔
  ∃ u r, url = PyStr u ∧ u ≠ "" ∧ Validator.head s task u = Ret r ∧
         (Probe.accepts r = true ∨
          ∃ r', Validator.get s task u = Ret r' ∧ Probe.accepts r' = true).
Proof.
  unfold Probe.accepts. split.
  - destruct (Py.isinstance_str url) eqn:Hstr;
      [|by rewrite check_url_not_str].
    destruct url as [|b|n|q|u|l|items]; try discriminate Hstr. clear Hstr.
    unfold Validator.check_url. simpl Py.truthy. simpl Py.isinstance_str.
    destruct (String.eqb u "") eqn:Hu; [discriminate|]. simpl negb. simpl orb.
    apply String.eqb_neq in Hu. cbv zeta.
    destruct (Validator.head s task u) as [r|e] eqn:Hh.
    + rewrite bind_ret. intros H. exists u, r. do 3 (split; [done|]).
      destruct (Validator.status r <? 400) eqn:Hs;
        [destruct (Str.contains "image" _) eqn:Hc; [by left|] |];
        right;
        (destruct (Validator.get s task u) as [r'|e'] eqn:Hg;
         [ rewrite bind_ret in H; exists r'; split; [done|];
           destruct (Validator.status r' <? 400); simpl in H |-*; congruence
         | rewrite bind_raise in H; unfold Py.try_except in H;
           destruct (Py.is_Exception e'); discriminate ]).
    + rewrite bind_raise. unfold Py.try_except.
      destruct (Py.is_Exception e); discriminate.
  - intros (u & r & -> & Hu & Hh & Hacc).
    unfold Validator.check_url. simpl Py.truthy. simpl Py.isinstance_str.
    apply String.eqb_neq in Hu. rewrite Hu. simpl negb. simpl orb. cbv zeta.
    rewrite Hh, bind_ret.
    destruct Hacc as [Hacc | (r' & Hg & Hacc)].
    + apply andb_true_iff in Hacc as [-> ->]. done.
    + assert (Validator.get s task u ≫=
              (λ response, if Validator.status response <? 400
                           then mret (Str.contains "image"
                                  (Str.lower (Validator.header_content_type response)))
                           else mret false) = Ret true) as Hfb.
      { rewrite Hg, bind_ret. apply andb_true_iff in Hacc as [-> ->]. done. }
      destruct (Validator.status r <? 400);
        [destruct (Str.contains "image"
                     (Str.lower (Validator.header_content_type r)))|];
        try done; by rewrite Hfb.
Qed.

(** ** Validating what a validation kept *)

Section Revalidation.
Import Validator.
Variable s : session.

Lemma validate_entry_stable (i j : nat) (entry : pyval) :
  Probe.stable s → validate_entry s i entry = validate_entry s j entry.
Proof.
  intros Hst. unfold validate_entry.
  destruct (Cache.entry_url entry) as [url|e]; [|done].
  rewrite !bind_ret. f_equal. unfold check_url.
  destruct (negb (Py.truthy url) || negb (Py.isinstance_str url)); [done|].
  destruct url as [|b|n|q|u|l|items]; try done.
  destruct (Hst i j u) as [-> ->]. done.
Qed.

Lemma probe_succeeded_stable (i j : nat) (entry : pyval) :
  Probe.stable s → probe_succeeded s i entry = probe_succeeded s j entry.
Proof.
  intros Hst. unfold probe_succeeded. by rewrite (validate_entry_stable i j).
Qed.

Lemma survivors_all (l : list pyval) :
  ∀ first,
    (∀ i entry, l !! i = Some entry →
                probe_succeeded s (first + i) entry = true) →
    survivors s first l = l.
Proof.
  induction l as [|x l IH]; intros first H; [done|].
  cbn [survivors]. pose proof (H 0%nat x eq_refl) as Hx.
  rewrite Nat.add_0_r in Hx. rewrite Hx. f_equal. apply IH.
  intros i entry Hi. replace (S first + i)%nat with (first + S i)%nat by lia.
  by apply H.
Qed.

Lemma survivors_with_url (l : list pyval) :
  ∀ first, Forall (λ e, Cache.with_url e = true) (survivors s first l).
Proof.
  induction l as [|x l IH]; intros first; cbn [survivors]; [done|].
  destruct (probe_succeeded s first x) eqn:Hp; [|apply IH].
  constructor; [|apply IH].
  unfold probe_succeeded, validate_entry in Hp. unfold Cache.with_url.
  destruct (Cache.entry_url x) as [url|e]; [|done].
  rewrite bind_ret in Hp.
  destruct (Py.truthy url) eqn:Ht; [done|].
  unfold check_url in Hp. by rewrite Ht in Hp.
Qed.

Lemma survivors_fixed (l : list pyval) (first : nat) :
  Probe.stable s →
  survivors s 0 (survivors s first l) = survivors s first l.
Proof.
  intros Hst. apply survivors_all. intros i entry Hi.
  assert (entry ∈ survivors s first l) as Hin
    by (by eapply list_elem_of_lookup_2).
  apply elem_of_survivors in Hin as (k & _ & Hk).
  by rewrite (probe_succeeded_stable _ (first + k)).
Qed.
End Revalidation.

(** While the remote side answers each URL the same way, running the
    validation on what a validation returned returns it unchanged: no
    entry is lost in a second run. *)
Theorem validate_cache_twice
    (s : Validator.session) (l : list pyval) :
  Forall (λ e, Cache.is_record e = true) l →
  Validator.raises_exceptions_only s →
  Probe.stable s →
  ∃ out,
    Io.result (Validator.validate_cache (Validator.Holds (PyList l)) s) = Ret out ∧
    Io.result (Validator.validate_cache (Validator.Holds (PyList out)) s) = Ret out.
Proof.
  intros Hrec Hexc Hst.
  exists (Validator.survivors s 0 (filter (λ e, Cache.with_url e = true) l)).
  split; [by rewrite validate_cache_records|].
  set (tasks := filter (λ e, Cache.with_url e = true) l).
  rewrite validate_cache_records; [|
    | done].
  - unfold Io.result. cbn [snd]. f_equal.
    rewrite filter_all by apply survivors_with_url.
    by apply survivors_fixed.
  - apply Forall_forall. intros x Hx.
    assert (x ∈ l) as Hl.
    { eapply elem_of_sublist; [exact Hx|].
      etrans; [apply survivors_sublist | apply sublist_filter]. }
    by apply (proj1 (Forall_forall _ _) Hrec).
Qed.

Lemma validate_cache_twice_witness :
  let a := PyDict [("media", PyStr "https://i.pinimg.com/originals/a.jpg")] in
  let b := PyDict [("media", PyStr "https://i.pinimg.com/originals/b.jpg")] in
  let s := Validator.scripted_session ["https://i.pinimg.com/originals/b.jpg"] in
  ∃ out,
    Io.result (Validator.validate_cache (Validator.Holds (PyList [a; b; a])) s)
      = Ret out ∧
    Io.result (Validator.validate_cache (Validator.Holds (PyList out)) s) = Ret out.
Proof.
  intros a b s. apply validate_cache_twice.
  - by repeat constructor.
  - apply scripted_session_exceptions.
  - by intros i j u.
Defined.

(** ** Every task is probed once *)

Section Issued.
Import Validator.



End Issued.



(** ** What [main] does to the cache files *)

Section MainFacts.
Import Validator.
Variable fs : string → file_state.
Variable net : string → session.

(** One turn of the loop of [main]. *)
Lemma main_loop_cons (cache_file : string) (rest : list string) :
  main_loop fs net (cache_file :: rest) =
  match fs cache_file with
  | Missing => main_loop fs net rest
  | f =>
      let run := validate_cache f (net cache_file) in
      match run.2 with
      | Raise e => (run.1, Raise e)
      | Ret valid_entries =>
          (run.1 ++ Probe.saved cache_file valid_entries
             ++ (main_loop fs net rest).1,
           (main_loop fs net rest).2)
      end
  end.
Proof.
  cbn [main_loop].
  destruct (fs cache_file) as [| | |v]; [done| | |];
    rewrite io_bind_unfold; cbv zeta;
    destruct (validate_cache _ (net cache_file)) as [tr [valid|e]];
    cbn [fst snd]; try done;
    (destruct valid as [|x valid];
     [ change (mret tt ≫= λ _ : unit, main_loop fs net rest)
         with (Io.bind (Io.ret tt) (λ _ : unit, main_loop fs net rest));
       unfold Io.bind, Io.ret; by destruct (main_loop fs net rest)
     | rewrite io_bind_unfold, io_bind_emit; cbn [fst snd];
       unfold Io.emit; cbn [fst snd]; unfold Probe.saved, Probe.backup_file;
       done ]).
Qed.

Lemma file_events_app (a b : list event) :
  Probe.file_events (a ++ b) = Probe.file_events a ++ Probe.file_events b.
Proof. apply filter_app. Qed.

Lemma file_events_none (tr : list event) :
  Forall (λ ev, is_file_event ev = false) tr → Probe.file_events tr = [].
Proof.
  induction 1 as [|ev tr Hev _ IH]; [done|].
  unfold Probe.file_events. rewrite filter_cons_False by congruence. exact IH.
Qed.

Lemma file_events_saved (cache_file : string) (valid_entries : list pyval) :
  Probe.file_events (Probe.saved cache_file valid_entries)
  = Probe.saved cache_file valid_entries.
Proof. by destruct valid_entries. Qed.

Lemma file_events_validate_cache (f : file_state) (s : session) :
  Probe.file_events (validate_cache f s).1 = [].
Proof. apply file_events_none, validate_cache_no_file_event. Qed.

(** The loop on files that are missing or hold an array of records. *)
Lemma main_loop_records (files : list string) :
  (∀ f, f ∈ files →
        fs f = Missing ∨
        ∃ l, fs f = Holds (PyList l) ∧ Forall (λ e, Cache.is_record e = true) l) →
  (∀ f, raises_exceptions_only (net f)) →
  (main_loop fs net files).2 = Ret tt ∧
  Probe.file_events (main_loop fs net files).1
  = (f ← files;
     match fs f with
     | Holds (PyList l) =>
         Probe.saved f
           (survivors (net f) 0 (filter (λ e, Cache.with_url e = true) l))
     | _ => []
     end).
Proof.
  intros Hfs Hnet. induction files as [|f files IH]; [done|].
  destruct IH as [IHr IHt].
  { intros g Hg. apply Hfs. by apply list_elem_of_further. }
  rewrite main_loop_cons, bind_cons.
  destruct (Hfs f (list_elem_of_here f files)) as [Hm | (l & Hl & Hrec)].
  - by rewrite Hm.
  - assert (Probe.file_events (validate_cache (Holds (PyList l)) (net f)).1 = [])
      as Hv by apply file_events_validate_cache.
    rewrite Hl. cbv zeta.
    rewrite validate_cache_records in Hv |- * by done. cbn [fst snd] in Hv |- *.
    split; [done|].
    by rewrite !file_events_app, Hv, file_events_saved, IHt.
Qed.

(** With no answer to any request, no probe succeeds. *)
Lemma survivors_offline (s : session) (l : list pyval) :
  Probe.offline s → ∀ first, survivors s first l = [].
Proof.
  intros Hoff. induction l as [|x l IH]; intros first; [done|].
  cbn [survivors]. rewrite IH.
  assert (probe_succeeded s first x = false) as ->; [|done].
  unfold probe_succeeded, validate_entry.
  destruct (Cache.entry_url x) as [url|e]; [|done]. rewrite bind_ret.
  destruct (Py.isinstance_str url) eqn:Hstr;
    [|by rewrite check_url_not_str].
  destruct url as [|b|n|q|u|l'|items]; try discriminate Hstr.
  unfold check_url.
  destruct (negb (Py.truthy (PyStr u)) || negb (Py.isinstance_str (PyStr u)));
    [done|].
  destruct (Hoff first u) as [e ->]. cbv zeta. rewrite bind_raise.
  unfold Py.try_except. by destruct (Py.is_Exception e).
Qed.

Lemma validate_cache_offline (f : file_state) (s : session)
    (tr : list event) (out : list pyval) :
  Probe.offline s → validate_cache f s = (tr, Ret out) → out = [].
Proof.
  intros Hoff Hrun. destruct f as [| | |v]; try discriminate Hrun.
  - by injection Hrun as _ <-.
  - rewrite validate_cache_Holds in Hrun.
    destruct (Py.len v); [|discriminate].
    destruct (Py.iter v ≫= make_tasks) as [tasks|e]; [|discriminate].
    cbv zeta in Hrun.
    destruct (run_batches s tasks _ []) as [tr' [valid|e]] eqn:Hb;
      cbn [fst snd] in Hrun; [|discriminate].
    injection Hrun as _ <-.
    apply run_all_batches_Ret in Hb as [-> _]. by apply survivors_offline.
Qed.

Lemma main_loop_offline (files : list string) :
  (∀ f, Probe.offline (net f)) →
  Probe.file_events (main_loop fs net files).1 = [].
Proof.
  intros Hoff. induction files as [|f files IH]; [done|].
  rewrite main_loop_cons.
  assert (∀ st,
    Probe.file_events
      (let run := validate_cache st (net f) in
       match run.2 with
       | Raise e => (run.1, Raise e)
       | Ret valid_entries =>
           (run.1 ++ Probe.saved f valid_entries ++ (main_loop fs net files).1,
            (main_loop fs net files).2)
       end).1 = []) as Hturn.
  { intros st. cbv zeta.
    pose proof (file_events_validate_cache st (net f)) as Hv.
    destruct (validate_cache st (net f)) as [tr [valid|e]] eqn:Hrun;
      cbn [fst snd] in *; [|done].
    apply validate_cache_offline in Hrun as ->; [|done].
    by rewrite !file_events_app, Hv, IH. }
  destruct (fs f); [done| | |]; apply Hturn.
Qed.
End MainFacts.

Section StoreFacts.
Import Validator.
Variable d : Os.disk.
Variable fs : string → file_state.
Variable net : string → session.

(** The rename and the write of one file. *)
Lemma store_save_steps (cache_file : string) (valid_entries : list pyval) :
  (_ ← Io.lift (Os.rename d cache_file (Probe.backup_file cache_file));
   _ ← Io.emit (Renamed cache_file (Probe.backup_file cache_file));
   Store.save_validated_cache d valid_entries cache_file) =
  match Os.rename d cache_file (Probe.backup_file cache_file) with
  | Raise e => ([], Raise e)
  | Ret _ =>
      match Os.dump d cache_file valid_entries with
      | Raise e =>
          ([Renamed cache_file (Probe.backup_file cache_file)], Raise e)
      | Ret _ =>
          ([Renamed cache_file (Probe.backup_file cache_file);
            Written cache_file valid_entries], Ret tt)
      end
  end.
Proof.
  rewrite io_bind_lift.
  destruct (Os.rename d cache_file _) as [[]|e]; [|done].
  rewrite io_bind_emit. unfold Store.save_validated_cache.
  rewrite io_bind_lift.
  by destruct (Os.dump d cache_file valid_entries) as [[]|e].
Qed.

(** One turn of the loop on a file system that may fail. *)
Lemma store_main_loop_cons (cache_file : string) (rest : list string) :
  Store.main_loop d fs net (cache_file :: rest) =
  match fs cache_file with
  | Missing => Store.main_loop d fs net rest
  | f =>
      let run := validate_cache f (net cache_file) in
      let backup_file := Probe.backup_file cache_file in
      let next := Store.main_loop d fs net rest in
      match run.2 with
      | Raise e => (run.1, Raise e)
      | Ret [] => (run.1 ++ next.1, next.2)
      | Ret valid_entries =>
          match Os.rename d cache_file backup_file with
          | Raise e => (run.1, Raise e)
          | Ret _ =>
              match Os.dump d cache_file valid_entries with
              | Raise e => (run.1 ++ [Renamed cache_file backup_file], Raise e)
              | Ret _ =>
                  (run.1 ++ Probe.saved cache_file valid_entries ++ next.1,
                   next.2)
              end
          end
      end
  end.
Proof.
  cbn [Store.main_loop].
  assert (∀ f,
    (valid_entries ← validate_cache f (net cache_file);
     _ ← match valid_entries with
         | [] => mret tt
         | _ :: _ =>
             let backup_file := Str.replace ".json" "_backup.json" cache_file in
             _ ← Io.lift (Os.rename d cache_file backup_file);
             _ ← Io.emit (Renamed cache_file backup_file);
             Store.save_validated_cache d valid_entries cache_file
         end;
     Store.main_loop d fs net rest) =
    let run := validate_cache f (net cache_file) in
    let backup_file := Probe.backup_file cache_file in
    let next := Store.main_loop d fs net rest in
    match run.2 with
    | Raise e => (run.1, Raise e)
    | Ret [] => (run.1 ++ next.1, next.2)
    | Ret valid_entries =>
        match Os.rename d cache_file backup_file with
        | Raise e => (run.1, Raise e)
        | Ret _ =>
            match Os.dump d cache_file valid_entries with
            | Raise e => (run.1 ++ [Renamed cache_file backup_file], Raise e)
            | Ret _ =>
                (run.1 ++ Probe.saved cache_file valid_entries ++ next.1,
                 next.2)
            end
        end
    end) as Hturn.
  { intros f. rewrite io_bind_unfold. cbv zeta.
    destruct (validate_cache f (net cache_file)) as [tr [valid|e]];
      cbn [fst snd]; [|done].
    destruct valid as [|x valid].
    - change (mret tt ≫= λ _ : unit, Store.main_loop d fs net rest)
        with (Io.bind (Io.ret tt) (λ _ : unit, Store.main_loop d fs net rest)).
      unfold Io.bind, Io.ret. by destruct (Store.main_loop d fs net rest).
    - rewrite io_bind_unfold.
      change (Str.replace ".json" "_backup.json" cache_file)
        with (Probe.backup_file cache_file).
      rewrite store_save_steps.
      destruct (Os.rename d cache_file _) as [[]|e]; cbn [fst snd];
        [|by rewrite app_nil_r].
      destruct (Os.dump d cache_file (x :: valid)) as [[]|e]; by cbn [fst snd]. }
  destruct (fs cache_file); [done|..]; apply Hturn.
Qed.

(** On a reliable file system the loop is the loop of [Validator]. *)
Lemma store_main_loop_reliable (files : list string) :
  Os.reliable d → Store.main_loop d fs net files = main_loop fs net files.
Proof.
  intros [Hrename Hdump]. induction files as [|f files IH]; [done|].
  rewrite store_main_loop_cons, main_loop_cons, IH. cbv zeta.
  destruct (fs f); [done| | |];
    (destruct (validate_cache _ (net f)) as [tr [[|x valid]|e]];
     cbn [fst snd Probe.saved]; [done| |done];
     by rewrite Hrename, Hdump).
Qed.

Lemma written_nonempty_app (a b : list event) :
  Forall (λ ev, ∀ p, ev ≠ Written p []) a →
  Forall (λ ev, ∀ p, ev ≠ Written p []) b →
  Forall (λ ev, ∀ p, ev ≠ Written p []) (a ++ b).
Proof. intros. by apply Forall_app. Qed.

Lemma validate_cache_writes_nothing (f : file_state) (s : session) :
  Forall (λ ev, ∀ p, ev ≠ Written p []) (validate_cache f s).1.
Proof.
  eapply Forall_impl; [apply validate_cache_no_file_event|].
  intros ev Hev p ->. discriminate Hev.
Qed.

(** The loop on files that are missing or hold an array of records. *)
Lemma store_main_loop_records (files : list string) :
  (∀ f, f ∈ files →
        fs f = Missing ∨
        ∃ l, fs f = Holds (PyList l) ∧ Forall (λ e, Cache.is_record e = true) l) →
  (∀ f, raises_exceptions_only (net f)) →
  let run := Store.main_loop d fs net files in
  Probe.file_events run.1 `prefix_of` Store.file_plan fs net files ∧
  (run.2 = Ret tt → Probe.file_events run.1 = Store.file_plan fs net files) ∧
  Forall (λ ev, ∀ p, ev ≠ Written p []) run.1.
Proof.
  intros Hfs Hnet. cbv zeta. induction files as [|f files IH].
  { split; [done|]. split; [done|]. constructor. }
  destruct IH as (IHp & IHr & IHw).
  { intros g Hg. apply Hfs. by apply list_elem_of_further. }
  rewrite store_main_loop_cons. unfold Store.file_plan. rewrite bind_cons.
  fold (Store.file_plan fs net files).
  destruct (Hfs f (list_elem_of_here f files)) as [Hm | (l & Hl & Hrec)].
  { rewrite Hm. by split_and!. }
  rewrite Hl. cbv zeta.
  set (run := validate_cache (Holds (PyList l)) (net f)).
  assert (Probe.file_events run.1 = []) as Hv
    by apply file_events_validate_cache.
  pose proof (validate_cache_writes_nothing (Holds (PyList l)) (net f)) as Hw.
  fold run in Hw.
  assert (run.2 = Ret (survivors (net f) 0
                         (filter (λ e, Cache.with_url e = true) l))) as ->
    by (unfold run; by rewrite validate_cache_records).
  destruct (survivors (net f) 0 (filter (λ e, Cache.with_url e = true) l))
    as [|x valid] eqn:Hout.
  { cbn [fst snd Probe.saved]. rewrite file_events_app, Hv.
    split; [done|]. split; [done|]. by apply Forall_app. }
  destruct (Os.rename d f (Probe.backup_file f)) as [[]|e].
  2:{ cbn [fst snd]. rewrite Hv. split; [apply prefix_nil|].
      split; [discriminate | done]. }
  destruct (Os.dump d f (x :: valid)) as [[]|e]; cbn [fst snd].
  - rewrite !file_events_app, Hv, file_events_saved, app_nil_l.
    split; [by apply prefix_app|]. split; [by intros ->%IHr|].
    apply Forall_app. split; [done|]. apply Forall_app. split; [|done].
    cbn [Probe.saved]. repeat constructor; intros p; discriminate.
  - rewrite file_events_app, Hv, app_nil_l. cbn [Probe.saved].
    split; [|split; [discriminate|]].
    + exists (Written f (x :: valid) :: Store.file_plan fs net files).
      reflexivity.
    + apply Forall_app. split; [done|].
      repeat constructor; intros p; discriminate.
Qed.
End StoreFacts.

(** When every cache file is missing or holds an array of records and
    nothing but an ordinary failure interrupts a request, what [main]
    does to the files is the beginning of this plan: a file of which some
    entry survived is renamed to its backup and then written anew with
    the survivors; a file of which no entry survived, or that is
    missing, is neither renamed nor written.  [main] carries the plan
    out to its end whenever it returns, and it returns when the file
    system refuses no rename and no write; a refusal ends it there, after
    the rename when it is the write that is refused.  On no run is a
    cache written with an empty list. *)
Theorem main_saves_survivors
    (d : Os.disk) (fs : string → Validator.file_state)
    (net : string → Validator.session) :
  (∀ f, f ∈ Validator.FILES_TO_VALIDATE →
        fs f = Validator.Missing ∨
        ∃ l, fs f = Validator.Holds (PyList l) ∧
             Forall (λ e, Cache.is_record e = true) l) →
  (∀ f, Validator.raises_exceptions_only (net f)) →
  let run := Store.main d fs net in
  let plan := Store.file_plan fs net Validator.FILES_TO_VALIDATE in
  Probe.file_events (Io.trace run) `prefix_of` plan ∧
  (Io.result run = Ret tt → Probe.file_events (Io.trace run) = plan) ∧
  (Os.reliable d →
   Io.result run = Ret tt ∧ Probe.file_events (Io.trace run) = plan) ∧
  Forall (λ ev, ∀ p, ev ≠ Written p []) (Io.trace run).
Proof.
  intros Hfs Hnet. cbv zeta.
  destruct (store_main_loop_records d fs net Validator.FILES_TO_VALIDATE
              Hfs Hnet) as (Hp & Hr & Hw).
  split; [done|]. split; [done|]. split; [|done].
  intros Hd. unfold Store.main, Io.result, Io.trace.
  rewrite store_main_loop_reliable by done.
  by apply main_loop_records.
Qed.

Lemma main_saves_survivors_witness :
  let a := PyDict [("media", PyStr "https://i.pinimg.com/originals/a.jpg")] in
  let b := PyDict [("media", PyStr "https://i.pinimg.com/originals/b.jpg")] in
  let fs := λ f : string,
    if String.eqb f "pinterest_cache.json"
    then Validator.Holds (PyList [a; b]) else Validator.Missing in
  let net := λ _ : string,
    Validator.scripted_session ["https://i.pinimg.com/originals/b.jpg"] in
  let full := Os.Disk (λ p sfx, Ret (p +:+ sfx)) (λ _ _, Ret tt)
                (λ _ _, Raise OSError) in
  let run := Store.main full fs net in
  let plan := [Renamed "pinterest_cache.json" "pinterest_cache_backup.json";
               Written "pinterest_cache.json" [a]] in
  Probe.file_events (Io.trace run) `prefix_of` plan ∧
  (Io.result run = Ret tt → Probe.file_events (Io.trace run) = plan) ∧
  (Os.reliable full →
   Io.result run = Ret tt ∧ Probe.file_events (Io.trace run) = plan) ∧
  Forall (λ ev, ∀ p, ev ≠ Written p []) (Io.trace run).
Proof.
  intros a b fs net full.
  refine (main_saves_survivors full fs net _ _).
  - intros f Hf. unfold fs.
    destruct (String.eqb f "pinterest_cache.json"); [right|by left].
    eexists. split; [reflexivity|]. by repeat constructor.
  - intros f. apply scripted_session_exceptions.
Defined.

(** A write that the file system refuses leaves the cache at its backup:
    the rename is done and [main] raises. *)
Example main_refused_write :
  let a := PyDict [("media", PyStr "https://i.pinimg.com/originals/a.jpg")] in
  let full := Os.Disk (λ p sfx, Ret (p +:+ sfx)) (λ _ _, Ret tt)
                (λ _ _, Raise OSError) in
  let run := Store.main full (λ _, Validator.Holds (PyList [a]))
               (λ _, Validator.scripted_session []) in
  Probe.file_events (Io.trace run)
    = [Renamed "pinterest_cache.json" "pinterest_cache_backup.json"] ∧
  Io.result run = Raise OSError.
Proof. split; by vm_compute. Qed.

(** While no request gets an answer, [main] renames and writes nothing,
    whatever the cache files hold: a run without a network leaves every
    cache as it is. *)
Theorem main_offline_touches_no_file
    (fs : string → Validator.file_state) (net : string → Validator.session) :
  (∀ f, Probe.offline (net f)) →
  Probe.file_events (Io.trace (Validator.main fs net)) = [].
Proof. apply main_loop_offline. Qed.

Lemma main_offline_touches_no_file_witness :
  let a := PyDict [("media", PyStr "https://i.pinimg.com/originals/a.jpg")] in
  Probe.file_events
    (Io.trace (Validator.main (λ _, Validator.Holds (PyList [a; PyInt 5]))
                 (λ _, Validator.dead_session))) = [].
Proof.
  intros a. apply main_offline_touches_no_file.
  intros f task u. by exists TimeoutError.
Defined.

(** ** [dev_tools.py]: the structure test *)

Section StructureTest.
Import CacheTools.

Lemma str_in_container (needle : string) (v : pyval) :
  is_container v = true → ∃ b, str_in needle v = Ret b.
Proof. destruct v; try discriminate; intros _; by eexists. Qed.

Lemma str_in_not_container (needle : string) (v : pyval) :
  is_container v = false → str_in needle v = Raise TypeError.
Proof. by destruct v. Qed.

Lemma str_in_Ret_container (needle : string) (v : pyval) (b : bool) :
  str_in needle v = Ret b → is_container v = true.
Proof. by destruct v. Qed.

Lemma all_in_container (fields : list string) (v : pyval) :
  is_container v = true → ∃ b, all_in fields v = Ret b.
Proof.
  intros Hc. induction fields as [|k fields IH]; [by eexists|].
  cbn [all_in]. destruct (str_in_container k v Hc) as [b ->].
  rewrite bind_ret. destruct b; [exact IH | by eexists].
Qed.

Lemma any_in_container (fields : list string) (v : pyval) :
  is_container v = true → ∃ b, any_in fields v = Ret b.
Proof.
  intros Hc. induction fields as [|k fields IH]; [by eexists|].
  cbn [any_in]. destruct (str_in_container k v Hc) as [b ->].
  rewrite bind_ret. destruct b; [by eexists | exact IH].
Qed.

Lemma all_in_not_container (k : string) (fields : list string) (v : pyval) :
  is_container v = false → all_in (k :: fields) v = Raise TypeError.
Proof. intros Hc. cbn [all_in]. by rewrite str_in_not_container. Qed.

(** The test on a non-empty array, by what its first entry is. *)
Lemma test_cache_structure_first (first : pyval) (rest : list pyval) :
  test_cache_structure (Validator.Holds (PyList (first :: rest))) =
  match first with
  | PyDict _ =>
      match Cache.entry_url first with
      | Ret url =>
          if Py.truthy url then
            match str_in "blob:" url with
            | Ret blob => Ret (negb blob)
            | Raise e => Raise e
            end
          else Ret true
      | Raise e => Raise e
      end
  | PyStr _ | PyList _ => Raise AttributeError
  | _ => Raise TypeError
  end.
Proof.
  unfold test_cache_structure. cbn [Validator.load].
  destruct first as [|b|n|q|u|l|items]; try reflexivity.
  - destruct (all_in_container ["media"; "title"] (PyStr u) eq_refl) as [b1 ->].
    destruct (all_in_container ["url"; "type"] (PyStr u) eq_refl) as [b2 ->].
    by rewrite !bind_ret.
  - destruct (all_in_container ["media"; "title"] (PyList l) eq_refl) as [b1 ->].
    destruct (all_in_container ["url"; "type"] (PyList l) eq_refl) as [b2 ->].
    by rewrite !bind_ret.
  - destruct (all_in_container ["media"; "title"] (PyDict items) eq_refl)
      as [b1 ->].
    destruct (all_in_container ["url"; "type"] (PyDict items) eq_refl)
      as [b2 ->].
    rewrite !bind_ret.
    destruct (Cache.entry_url (PyDict items)) as [url|e]; [|done].
    rewrite bind_ret. destruct (Py.truthy url); [|done].
    destruct (is_container url) eqn:Hc.
    + destruct (str_in_container "pinimg.com" url Hc) as [b3 ->].
      destruct (str_in_container "blob:" url Hc) as [b4 ->].
      destruct (str_in_container "/originals/" url Hc) as [b5 Hb5].
      rewrite !bind_ret. destruct b4; [done|]. simpl negb. cbv iota.
      by rewrite Hb5, bind_ret.
    + by rewrite !(str_in_not_container _ url Hc).
Qed.
End StructureTest.

(** [test_cache_structure] answers [True] exactly when the file holds a
    non-empty array whose first entry is a record with no URL, or with a
    URL in which [blob:] does not occur.  Nothing after the first entry
    is looked at. *)
Theorem test_cache_structure_true_iff (f : Validator.file_state) :
  CacheTools.test_cache_structure f = Ret true ↔
  ∃ first rest url,
    f = Validator.Holds (PyList (first :: rest)) ∧
    Cache.entry_url first = Ret url ∧
    (Py.truthy url = false ∨ CacheTools.str_in "blob:" url = Ret false).
Proof.
  split.
  - destruct f as [| | |v]; try discriminate.
    destruct v as [|b|n|q|u|l|items]; try discriminate.
    destruct l as [|first rest]; [discriminate|].
    rewrite test_cache_structure_first. intros H.
    exists first, rest.
    destruct first as [|b|n|q|u|l|items]; try discriminate.
    destruct (Cache.entry_url (PyDict items)) as [url|e]; [|discriminate].
    exists url. do 2 (split; [done|]).
    destruct (Py.truthy url); [right | by left].
    destruct (CacheTools.str_in "blob:" url) as [[]|]; by try discriminate.
  - intros (first & rest & url & -> & Hurl & Hok).
    rewrite test_cache_structure_first.
    destruct first as [|b|n|q|u|l|items]; try discriminate Hurl.
    rewrite Hurl. destruct Hok as [-> | ->]; [done|]. by destruct (Py.truthy url).
Qed.

(** [test_cache_structure] raises, instead of answering, exactly when the
    file cannot be read, or when the first entry of the array is not a
    record, or is a record whose URL is a number or [true]. *)
Theorem test_cache_structure_raises_iff (f : Validator.file_state) :
  (∃ e, CacheTools.test_cache_structure f = Raise e) ↔
  f = Validator.Unreadable ∨
  ∃ first rest,
    f = Validator.Holds (PyList (first :: rest)) ∧
    (Cache.is_record first = false ∨
     ∃ url, Cache.entry_url first = Ret url ∧ Py.truthy url = true ∧
            CacheTools.is_container url = false).
Proof.
  split.
  - intros [e H]. destruct f as [| | |v]; try discriminate; [by left|right].
    destruct v as [|b|n|q|u|l|items]; try discriminate.
    destruct l as [|first rest]; [discriminate|].
    exists first, rest. split; [done|].
    rewrite test_cache_structure_first in H.
    destruct first as [|b|n|q|u|l|items]; try (by left). right.
    destruct (entry_url_record (PyDict items) eq_refl) as [url Hurl].
    rewrite Hurl in H. exists url. split; [done|].
    destruct (Py.truthy url); [|discriminate]. split; [done|].
    destruct (CacheTools.is_container url) eqn:Hc; [|done].
    destruct (str_in_container "blob:" url Hc) as [b Hb].
    rewrite Hb in H. discriminate.
  - intros [-> | (first & rest & -> & Hbad)]; [by exists OSError|].
    rewrite test_cache_structure_first.
    destruct Hbad as [Hrec | (url & Hurl & Ht & Hc)].
    + destruct first as [|b|n|q|u|l|items]; try discriminate Hrec; by eexists.
    + destruct first as [|b|n|q|u|l|items]; try discriminate Hurl.
      rewrite Hurl, Ht, (str_in_not_container _ url Hc). by eexists.
Qed.

(** ** [dev_tools.py]: the analysis *)

Section AnalysisFacts.
Import CacheTools.

Lemma classify_domain_str (u : string) :
  classify_domain (PyStr u) = Ret (DevTools.classify_domain u).
Proof.
  unfold classify_domain, DevTools.classify_domain. cbn [str_in].
  rewrite bind_ret. destruct (Str.contains "pinimg.com" u); [done|].
  simpl negb. cbv iota. rewrite bind_ret.
  by destruct (Str.contains "pinterest.com" u).
Qed.

Lemma any_in_str (fields : list string) (u : string) :
  any_in fields (PyStr u) = Ret (existsb (λ size, Str.contains size u) fields).
Proof.
  induction fields as [|k fields IH]; [done|].
  cbn [any_in str_in existsb]. rewrite bind_ret.
  by destruct (Str.contains k u).
Qed.

Lemma classify_type_str (u : string) :
  classify_type (PyStr u) = Ret (DevTools.classify_type u).
Proof.
  unfold classify_type, DevTools.classify_type. cbn [str_in].
  rewrite bind_ret. destruct (Str.contains "/originals/" u); [done|].
  simpl negb. cbv iota. rewrite any_in_str, bind_ret.
  by destruct (existsb _ DevTools.thumbnail_sizes).
Qed.

Lemma classify_domain_returns_iff (url : pyval) :
  (∃ d, classify_domain url = Ret d) ↔ is_container url = true.
Proof.
  split.
  - intros [d H]. destruct (is_container url) eqn:Hc; [done|].
    unfold classify_domain in H.
    rewrite (str_in_not_container "pinimg.com"), bind_raise in H by done.
    discriminate H.
  - intros Hc. unfold classify_domain.
    destruct (str_in_container "pinimg.com" url Hc) as [a ->].
    rewrite bind_ret. destruct a; [by eexists|]. simpl negb. cbv iota.
    destruct (str_in_container "pinterest.com" url Hc) as [b ->].
    rewrite bind_ret. by eexists.
Qed.

Lemma classify_type_returns (url : pyval) :
  is_container url = true → ∃ ty, classify_type url = Ret ty.
Proof.
  intros Hc. unfold classify_type.
  destruct (str_in_container "/originals/" url Hc) as [a ->].
  rewrite bind_ret. destruct a; [by eexists|]. simpl negb. cbv iota.
  destruct (any_in_container DevTools.thumbnail_sizes url Hc) as [b ->].
  rewrite bind_ret. by eexists.
Qed.

Lemma dict_get_default_present (k : string) (d : pyval)
    (items : list (string * pyval)) :
  has_key k items = true → dict_get_default k d items = Py.dict_get k items.
Proof.
  induction items as [|[k' v] items IH]; [done|].
  cbn [has_key existsb dict_get_default Py.dict_get fst].
  destruct (String.eqb k k'); [done|]. exact IH.
Qed.

(** The URL the loop picks in a record goes by the keys present, not by
    what they hold. *)
Lemma picked_url_record (items : list (string * pyval)) :
  picked_url (PyDict items) =
  Ret (if has_key "media" items
       then Some (true, Py.dict_get "media" items)
       else if has_key "url" items
            then Some (false, Py.dict_get "url" items)
            else None).
Proof.
  unfold picked_url. cbn [str_in subscript get_default]. rewrite bind_ret.
  fold (has_key "media" items). destruct (has_key "media" items); [done|].
  simpl negb. cbv iota. rewrite bind_ret. fold (has_key "url" items).
  destruct (has_key "url" items) eqn:Hu; [|done].
  simpl negb. cbv iota. by rewrite bind_ret, dict_get_default_present.
Qed.

Lemma analyze_loop_balanced (data : list pyval) :
  ∀ t t',
    balanced t → analyze_loop data t = Ret t' →
    balanced t' ∧
    (length (url_types t') ≤ length (url_types t) + length data)%nat.
Proof.
  induction data as [|item data IH]; intros t t' Hb H.
  - injection H as <-. split; [done|lia].
  - cbn [analyze_loop] in H.
    apply bind_Ret_inv in H as (o & _ & H).
    destruct o as [[from_media url]|].
    + apply bind_Ret_inv in H as (d & _ & H).
      apply bind_Ret_inv in H as (ty & _ & H).
      apply IH in H as [Hb' Hlen].
      * split; [done|]. cbn [url_types] in Hlen.
        rewrite length_app in Hlen. cbn [length] in *. lia.
      * destruct Hb as (H1 & H2 & H3 & H4). unfold balanced.
        cbn [has_media has_url_field url_domains url_types].
        rewrite !length_app. cbn [length]. destruct from_media; lia.
    + apply IH in H as [Hb' Hlen]; [|done]. split; [done|].
      cbn [length]. lia.
Qed.

Lemma count_thumbnails_bounds (types : list DevTools.url_type) :
  0 ≤ count_thumbnails types ≤ Z.of_nat (length types).
Proof.
  induction types as [|ty types IH]; [done|].
  destruct ty; cbn [count_thumbnails length]; lia.
Qed.

Lemma len_iter (v : pyval) (n : nat) (items : list pyval) :
  Py.len v = Ret n → Py.iter v = Ret items → length items = n.
Proof.
  destruct v as [|b|k|q|u|l|kvs]; try discriminate; intros [= <-] [= <-].
  - induction u as [|c u IH]; [done|]. cbn [Py.chars length String.length].
    by rewrite IH.
  - done.
  - by rewrite length_fmap.
Qed.

Section Mentions.
Variable py_str : pyval → string.

Lemma count_mentions_bounds (word : string) (data : list pyval) :
  ∀ n, count_mentions py_str word data = Ret n →
       0 ≤ n ≤ Z.of_nat (length data).
Proof.
  induction data as [|item data IH]; intros n H.
  - injection H as <-. done.
  - cbn [count_mentions] in H.
    apply bind_Ret_inv in H as (m & _ & H).
    apply bind_Ret_inv in H as (u & _ & H).
    apply bind_Ret_inv in H as (k & Hk & H).
    apply IH in Hk. injection H as <-. cbn [length].
    destruct (Str.contains word (py_str u)); lia.
Qed.

Lemma count_mentions_returns_iff (word : string) (data : list pyval) :
  (∃ n, count_mentions py_str word data = Ret n) ↔
  Forall (λ item, Cache.is_record item = true) data.
Proof.
  induction data as [|item data IH].
  - split; [done | by eexists].
  - cbn [count_mentions]. split.
    + intros [n H].
      apply bind_Ret_inv in H as (m & Hm & H).
      apply bind_Ret_inv in H as (u & _ & H).
      apply bind_Ret_inv in H as (k & Hk & _).
      constructor; [by destruct item | apply IH; by eexists].
    + intros Hall. apply Forall_cons in Hall as [Hrec Hall].
      apply IH in Hall as [k Hk].
      destruct item as [|b|z|q|u|l|kvs]; try discriminate Hrec.
      cbn [get_default]. rewrite bind_ret.
      destruct (Py.truthy _); rewrite !bind_ret, Hk, bind_ret; by eexists.
Qed.
End Mentions.

Lemma analyzable_record (item : pyval) :
  analyzable item = true → Cache.is_record item = true.
Proof. by destruct item. Qed.

Lemma analyze_loop_returns_iff (data : list pyval) :
  Forall (λ item, Cache.is_record item = true) data →
  ∀ t, (∃ t', analyze_loop data t = Ret t') ↔
       Forall (λ item, analyzable item = true) data.
Proof.
  induction 1 as [|item data Hrec Hall IH]; intros t.
  - split; [done | by eexists].
  - destruct item as [|b|z|q|u|l|kvs]; try discriminate Hrec.
    cbn [analyze_loop]. rewrite picked_url_record, bind_ret.
    rewrite Forall_cons. unfold analyzable at 1.
    destruct (has_key "media" kvs);
      [|destruct (has_key "url" kvs); [|rewrite IH; tauto]].
    all: match goal with |- context [classify_domain ?url] =>
           destruct (is_container url) eqn:Hc;
           [ destruct (proj2 (classify_domain_returns_iff url) Hc) as [d ->];
             destruct (classify_type_returns url Hc) as [ty ->];
             rewrite !bind_ret, IH; tauto
           | unfold classify_domain;
             rewrite (str_in_not_container "pinimg.com"), !bind_raise by done;
             split; [intros [? ?]; discriminate | intros [? _]; discriminate] ]
         end.
Qed.

Lemma picked_url_to_entry (p : Scraper.pin) :
  picked_url (Crawl.to_entry p) = Ret (Some (true, PyStr (Scraper.media p))).
Proof. unfold Crawl.to_entry. by rewrite picked_url_record. Qed.

(** The loop on entries as the scraper writes them. *)
Lemma analyze_loop_to_entry (pins : list Scraper.pin) :
  ∀ t,
    analyze_loop (Crawl.to_entry <$> pins) t
    = Ret (Tally (has_media t + Z.of_nat (length pins)) (has_url_field t)
             (url_domains t
                ++ ((λ p, DevTools.classify_domain (Scraper.media p)) <$> pins))
             (url_types t
                ++ ((λ p, DevTools.classify_type (Scraper.media p)) <$> pins))).
Proof.
  induction pins as [|p pins IH]; intros t.
  - cbn [fmap list_fmap length analyze_loop]. rewrite !app_nil_r, Z.add_0_r.
    by destruct t.
  - rewrite fmap_cons. cbn [analyze_loop].
    rewrite picked_url_to_entry, bind_ret, classify_domain_str, classify_type_str, !bind_ret, IH.
    cbn [has_media has_url_field url_domains url_types length].
    rewrite <- !app_assoc. cbn [app fmap list_fmap].
    f_equal. f_equal. lia.
Qed.
End AnalysisFacts.

(** Whatever [analyze_cache] reports adds up: every entry it classifies
    is counted under exactly one of the two fields, in both lists; no
    count is negative or exceeds the number of entries, and the
    thumbnails are among the classified URLs. *)
Theorem analyze_cache_counts
    (py_str : pyval → string) (f : Validator.file_state)
    (r : CacheTools.report) :
  CacheTools.analyze_cache py_str f = Ret (Some r) →
  let t := CacheTools.counted r in
  0 ≤ CacheTools.has_media t ∧ 0 ≤ CacheTools.has_url_field t ∧
  CacheTools.has_media t + CacheTools.has_url_field t
    = Z.of_nat (length (CacheTools.url_domains t)) ∧
  length (CacheTools.url_domains t) = length (CacheTools.url_types t) ∧
  (length (CacheTools.url_types t) ≤ CacheTools.total r)%nat ∧
  0 ≤ CacheTools.thumbnails r ≤ Z.of_nat (length (CacheTools.url_types t)) ∧
  0 ≤ CacheTools.blob_urls r ≤ Z.of_nat (CacheTools.total r) ∧
  0 ≤ CacheTools.video_urls r ≤ Z.of_nat (CacheTools.total r).
Proof.
  intros H t.
  assert (∃ data, Validator.load f = Ret data ∧
            (n ← Py.len data; items ← Py.iter data;
             t ← CacheTools.analyze_loop items CacheTools.empty_tally;
             blob ← CacheTools.count_mentions py_str "blob:" items;
             video ← CacheTools.count_mentions py_str "video" items;
             mret (Some (CacheTools.Report n t blob video
                     (CacheTools.count_thumbnails (CacheTools.url_types t)))))
            = Ret (Some r)) as (data & _ & Hrun).
  { destruct f as [| | |v]; try discriminate H. by exists v. }
  clear H.
  apply bind_Ret_inv in Hrun as (n & Hn & Hrun).
  apply bind_Ret_inv in Hrun as (items & Hitems & Hrun).
  apply bind_Ret_inv in Hrun as (t' & Ht & Hrun).
  apply bind_Ret_inv in Hrun as (blob & Hblob & Hrun).
  apply bind_Ret_inv in Hrun as (video & Hvideo & Hrun).
  injection Hrun as <-. subst t. cbn [CacheTools.counted CacheTools.total
    CacheTools.thumbnails CacheTools.blob_urls CacheTools.video_urls].
  pose proof (len_iter _ _ _ Hn Hitems) as Hlen.
  apply analyze_loop_balanced in Ht as [(H1 & H2 & H3 & H4) H5];
    [|by unfold CacheTools.balanced].
  apply count_mentions_bounds in Hblob, Hvideo.
  pose proof (count_thumbnails_bounds (CacheTools.url_types t')).
  cbn [CacheTools.url_types CacheTools.empty_tally length] in H5.
  repeat split; try lia; try done.
Qed.

Lemma analyze_cache_counts_witness :
  let py_str := λ v : pyval, match v with PyStr s => s | _ => "" end in
  let r := CacheTools.Report 3
    (CacheTools.Tally 1 1 [DevTools.Pinimg; DevTools.OtherDomain]
       [DevTools.Thumbnail; DevTools.Unknown]) 1 0 1 in
  let t := CacheTools.counted r in
  0 ≤ CacheTools.has_media t ∧ 0 ≤ CacheTools.has_url_field t ∧
  CacheTools.has_media t + CacheTools.has_url_field t
    = Z.of_nat (length (CacheTools.url_domains t)) ∧
  length (CacheTools.url_domains t) = length (CacheTools.url_types t) ∧
  (length (CacheTools.url_types t) ≤ CacheTools.total r)%nat ∧
  0 ≤ CacheTools.thumbnails r ≤ Z.of_nat (length (CacheTools.url_types t)) ∧
  0 ≤ CacheTools.blob_urls r ≤ Z.of_nat (CacheTools.total r) ∧
  0 ≤ CacheTools.video_urls r ≤ Z.of_nat (CacheTools.total r).
Proof.
  intros py_str r.
  apply (analyze_cache_counts py_str
    (Validator.Holds (PyList
       [PyDict [("media", PyStr "https://i.pinimg.com/236x/a.jpg")];
        PyDict [("url", PyStr "blob:https://example.com/b")];
        PyDict [("title", PyStr "no image")]])) r).
  reflexivity.
Defined.

(** On an array, [analyze_cache] runs to its end exactly when every item
    is a record whose [media] value, or else whose [url] value, where
    the record has the key, is a string, a list or a dict.  A record with
    the key [media] bound to [null] makes it raise, though the validator
    and the de-duplication fall back on its [url]. *)
Theorem analyze_cache_returns_iff
    (py_str : pyval → string) (l : list pyval) :
  (∃ r, CacheTools.analyze_cache py_str (Validator.Holds (PyList l)) = Ret (Some r)) ↔
  Forall (λ item, CacheTools.analyzable item = true) l.
Proof.
  unfold CacheTools.analyze_cache.
  simpl Validator.load. rewrite bind_ret. simpl Py.len. rewrite bind_ret.
  simpl Py.iter. rewrite bind_ret. split.
  - intros [r H].
    apply bind_Ret_inv in H as (t & Ht & H).
    apply bind_Ret_inv in H as (blob & Hblob & _).
    assert (Forall (λ item, Cache.is_record item = true) l) as Hrec
      by (apply (count_mentions_returns_iff py_str "blob:"); by exists blob).
    apply (analyze_loop_returns_iff l Hrec CacheTools.empty_tally). by exists t.
  - intros Hall.
    assert (Forall (λ item, Cache.is_record item = true) l) as Hrec.
    { eapply Forall_impl; [exact Hall|]. apply analyzable_record. }
    destruct (proj2 (analyze_loop_returns_iff l Hrec CacheTools.empty_tally) Hall)
      as [t ->].
    destruct (proj2 (count_mentions_returns_iff py_str "blob:" l) Hrec) as [b ->].
    destruct (proj2 (count_mentions_returns_iff py_str "video" l) Hrec) as [v ->].
    rewrite !bind_ret. by eexists.
Qed.

(** On a cache as the scraper writes it, the loop of [analyze_cache]
    counts every entry under [media] and none under [url], and files each
    under the domain and the resolution tier of its [media] URL. *)
Theorem analyze_loop_on_scraper_output (pins : list Scraper.pin) :
  CacheTools.analyze_loop (Crawl.to_entry <$> pins) CacheTools.empty_tally
  = Ret (CacheTools.Tally (Z.of_nat (length pins)) 0
           ((λ p, DevTools.classify_domain (Scraper.media p)) <$> pins)
           ((λ p, DevTools.classify_type (Scraper.media p)) <$> pins)).
Proof. by rewrite analyze_loop_to_entry. Qed.

(** ** [test_extension.py]: the tester *)

Lemma Ret_inj {A : Type} (a b : A) : Ret a = Ret b → a = b.
Proof. by intros [= ->]. Qed.

Section TesterFacts.
Import Tester.

Lemma test_errors (name : string) (c : bool) (e w : option message) (t : tester) :
  errors (test name c e w t).1
  = errors t ++ (if c then [] else if given e then [the e] else []).
Proof.
  unfold test. destruct c, (given e), (given w); cbn [fst errors];
    by rewrite ?app_nil_r.
Qed.

Lemma test_total (name : string) (c : bool) (e w : option message) (t : tester) :
  tests_total (test name c e w t).1 = tests_total t + 1.
Proof. unfold test. by destruct c, (given e), (given w). Qed.

Lemma test_passed (name : string) (c : bool) (e w : option message) (t : tester) :
  tests_passed (test name c e w t).1
  = if c then tests_passed t + 1 else tests_passed t.
Proof. unfold test. by destruct c, (given e), (given w). Qed.

Lemma test_sound (name : string) (c : bool) (e w : option message) (t : tester) :
  sound t → sound (test name c e w t).1.
Proof.
  intros [Hr Hall]. unfold sound.
  rewrite test_total, test_passed. destruct c.
  - split; [lia|]. intros Heq.
    assert (tests_passed t = tests_total t) as Ht by lia.
    destruct (Hall Ht) as [He Hw]. unfold test. by cbn [fst errors warnings].
  - split; [lia|]. intros Heq. lia.
Qed.

(** After a failed test the passes are fewer than the tests. *)
Lemma test_failed (name : string) (e w : option message) (t : tester) :
  sound t →
  tests_passed (test name false e w t).1 < tests_total (test name false e w t).1.
Proof. intros [Hr _]. rewrite test_total, test_passed. lia. Qed.

Section OneWorld.
Variable fs : string → Validator.file_state.

Lemma test_file_exists_sound (p : string) (required : bool) (t : tester) :
  sound t → sound (test_file_exists fs p required t).1.
Proof.
  intros Hs. unfold test_file_exists. cbn [fst].
  destruct required; by apply test_sound.
Qed.

Lemma test_files_sound (paths : list string) (required : bool) :
  ∀ t, sound t → sound (test_files fs paths required t).
Proof.
  induction paths as [|p paths IH]; intros t Hs; [done|].
  cbn [test_files]. by apply IH, test_file_exists_sound.
Qed.

Lemma test_fields_sound (fields : list string) (manifest : pyval) :
  ∀ t t', sound t → test_fields fields manifest t = Ret t' → sound t'.
Proof.
  induction fields as [|k fields IH]; intros t t' Hs H.
  - by injection H as <-.
  - cbn [test_fields] in H. apply bind_Ret_inv in H as (b & _ & H).
    eapply IH; [|exact H]. by apply test_sound.
Qed.

Lemma test_perms_sound (required_perms : list string) (perms : pyval) :
  ∀ t t', sound t → test_perms required_perms perms t = Ret t' → sound t'.
Proof.
  induction required_perms as [|k ps IH]; intros t t' Hs H.
  - by injection H as <-.
  - cbn [test_perms] in H. apply bind_Ret_inv in H as (b & _ & H).
    eapply IH; [|exact H]. by apply test_sound.
Qed.

Lemma test_manifest_sound (t t' : tester) :
  sound t → test_manifest fs t = Ret t' → sound t'.
Proof.
  intros Hs H. unfold test_manifest in H.
  pose proof (test_file_exists_sound manifest_path true t Hs) as Hs1.
  destruct (test_file_exists fs manifest_path true t) as [t1 found].
  cbn [fst] in Hs1. destruct found; simpl negb in H; cbv iota in H;
    [|by apply Ret_inj in H; subst t'].
  destruct (Validator.load (fs manifest_path)) as [manifest|e].
  - apply bind_Ret_inv in H as (t2 & H2 & H).
    apply test_fields_sound in H2; [|done].
    apply bind_Ret_inv in H as (version & _ & H). cbv zeta in H.
    apply bind_Ret_inv in H as (csp & _ & H).
    apply bind_Ret_inv in H as (t3 & H3 & H).
    apply bind_Ret_inv in H as (perms & _ & H).
    eapply test_perms_sound; [|exact H].
    set (t2' := (test _ _ _ _ t2).1) in *.
    assert (sound t2') as Hs2 by by apply test_sound.
    destruct csp as [|b|n|q|u|l|items]; try (by apply Ret_inj in H3; subst t3).
    apply bind_Ret_inv in H3 as (ext_pages & _ & H3).
    apply bind_Ret_inv in H3 as (allowed & _ & H3).
    apply Ret_inj in H3; subst t3. by apply test_sound.
  - destruct e; try discriminate H. apply Ret_inj in H; subst t'. by apply test_sound.
Qed.

Lemma test_cache_sound (t t' : tester) :
  sound t → test_cache fs t = Ret t' → sound t'.
Proof.
  intros Hs H. unfold test_cache in H.
  unfold test_file_exists in H. cbv zeta in H. cbn [fst] in H.
  destruct (path_exists fs cache_path).
  - simpl negb in H. cbv iota in H.
    set (t1 := (test _ true _ _ t).1) in *.
    assert (sound t1) as Hs1 by by apply test_sound.
    destruct (Validator.load (fs cache_path)) as [cache|e].
    + destruct cache as [|b|n|q|u|l|items];
        try (apply Ret_inj in H; subst t'; by apply test_sound).
      destruct l as [|first rest];
        [apply Ret_inj in H; subst t'; by do 2 apply test_sound|].
      apply bind_Ret_inv in H as (has_media & _ & H).
      apply bind_Ret_inv in H as (has_url & _ & H).
      apply bind_Ret_inv in H as (url & _ & H).
      destruct (Py.truthy url).
      * apply bind_Ret_inv in H as (from_pinterest & _ & H).
        apply bind_Ret_inv in H as (blob & _ & H).
        apply bind_Ret_inv in H as (original & _ & H).
        apply Ret_inj in H; subst t'. by do 7 apply test_sound.
      * apply Ret_inj in H; subst t'. by do 4 apply test_sound.
    + destruct e; try discriminate H. apply Ret_inj in H; subst t'. by apply test_sound.
  - simpl negb in H. cbv iota in H. apply Ret_inj in H; subst t'.
    pose proof (test_failed ("File exists: " +:+ cache_path)
      (Some (Text ("Required file missing: " +:+ cache_path))) None t Hs) as Hlt.
    pose proof (test_sound ("File exists: " +:+ cache_path) false
      (Some (Text ("Required file missing: " +:+ cache_path))) None t Hs)
      as [Hr _].
    unfold sound. cbn [tests_passed tests_total errors warnings].
    split; [done|]. lia.
Qed.

(** The optional files add no error. *)
Lemma test_files_optional_errors (paths : list string) :
  ∀ t, errors (test_files fs paths false t) = errors t.
Proof.
  induction paths as [|p paths IH]; intros t; [done|].
  cbn [test_files]. rewrite IH. unfold test_file_exists. cbn [fst].
  rewrite test_errors. destruct (path_exists fs p); by rewrite app_nil_r.
Qed.
End OneWorld.

Section TwoWorlds.
Variables fs fs' : string → Validator.file_state.

Lemma test_file_exists_ext (p : string) (required : bool) (t : tester) :
  fs p = fs' p → test_file_exists fs p required t = test_file_exists fs' p required t.
Proof. intros H. unfold test_file_exists, path_exists. by rewrite H. Qed.

Lemma test_files_ext (paths : list string) (required : bool) :
  (∀ p, p ∈ paths → fs p = fs' p) →
  ∀ t, test_files fs paths required t = test_files fs' paths required t.
Proof.
  induction paths as [|p paths IH]; intros H t; [done|].
  cbn [test_files]. rewrite test_file_exists_ext by apply H, list_elem_of_here.
  apply IH. intros q Hq. by apply H, list_elem_of_further.
Qed.

Lemma test_manifest_ext (t : tester) :
  fs manifest_path = fs' manifest_path → test_manifest fs t = test_manifest fs' t.
Proof.
  intros H. unfold test_manifest. by rewrite (test_file_exists_ext _ _ _ H), H.
Qed.

Lemma test_cache_ext (t : tester) :
  fs cache_path = fs' cache_path → test_cache fs t = test_cache fs' t.
Proof.
  intros H. unfold test_cache. by rewrite (test_file_exists_ext _ _ _ H), H.
Qed.
End TwoWorlds.
End TesterFacts.

(** Whenever the run of all tests comes to its end, the tester has
    counted no more passes than tests, it exits with status 1 exactly when
    it has recorded an error, and where every test passed it has no
    error and no warning to report and does not exit with a failure. *)
Theorem run_all_tests_sound
    (fs : string → Validator.file_state) (t : Tester.tester) (failed : bool) :
  Tester.run_all_tests fs Tester.init = Ret (t, failed) →
  0 ≤ Tester.tests_passed t ≤ Tester.tests_total t ∧
  (failed = true ↔ Tester.errors t ≠ []) ∧
  (Tester.tests_passed t = Tester.tests_total t →
   Tester.errors t = [] ∧ Tester.warnings t = [] ∧ failed = false).
Proof.
  intros H. unfold Tester.run_all_tests in H.
  apply bind_Ret_inv in H as (t1 & H1 & H). cbv zeta in H.
  apply bind_Ret_inv in H as (t2 & H2 & H).
  injection H as <- <-.
  assert (Tester.sound Tester.init) as Hs0 by (split; [done|by intros _]).
  apply test_manifest_sound in H1; [|done].
  apply test_cache_sound in H2;
    [|by apply test_files_sound].
  set (t3 := Tester.test_python_tools fs (Tester.test_icons fs t2)).
  assert (Tester.sound t3) as [Hr Hall] by by do 2 apply test_files_sound.
  split; [done|]. split.
  - by destruct (Tester.errors t3).
  - intros Heq. destruct (Hall Heq) as [He Hw]. by rewrite He.
Qed.

Lemma run_all_tests_sound_witness :
  let t := Tester.Tester
    [Tester.Text "Required file missing: extension/manifest.json";
     Tester.Text "Required file missing: extension/background.js";
     Tester.Text "Required file missing: extension/newtab.html";
     Tester.Text "Required file missing: extension/newtab.js";
     Tester.Text "Required file missing: extension/popup.html";
     Tester.Text "Required file missing: extension/popup.js";
     Tester.Text "Required file missing: extension/styles.css";
     Tester.Text "Required file missing: extension/data/pinterest_cache.json";
     Tester.Text "Run: python pinterest_scraper.py"]
    [Tester.Text "Optional file missing: extension/icons/icon16.png";
     Tester.Text "Optional file missing: extension/icons/icon48.png";
     Tester.Text "Optional file missing: extension/icons/icon128.png";
     Tester.Text "Optional file missing: quick_fix.py"]
    4 16 in
  0 ≤ Tester.tests_passed t ≤ Tester.tests_total t ∧
  (true = true ↔ Tester.errors t ≠ []) ∧
  (Tester.tests_passed t = Tester.tests_total t →
   Tester.errors t = [] ∧ Tester.warnings t = [] ∧ true = false).
Proof.
  intros t.
  apply (run_all_tests_sound
    (λ p, if bool_decide (p ∈ ["pinterest_scraper.py"; "validate_images.py";
                                "dev_tools.py"; "requirements.txt"])
          then Validator.Holds PyNone else Validator.Missing) t true).
  vm_compute. reflexivity.
Defined.

(** The icons and the Python tools are optional: whether they are there
    changes neither the errors the run records, nor whether it raises,
    nor whether it exits with a failure. *)
Theorem optional_files_never_fail_the_run
    (fs fs' : string → Validator.file_state) :
  (∀ p, p ∉ Tester.optional_paths → fs p = fs' p) →
  match Tester.run_all_tests fs Tester.init,
        Tester.run_all_tests fs' Tester.init with
  | Ret (t, failed), Ret (t', failed') =>
      Tester.errors t = Tester.errors t' ∧ failed = failed'
  | Raise e, Raise e' => e = e'
  | _, _ => False
  end.
Proof.
  intros Hsame. unfold Tester.run_all_tests.
  rewrite (test_manifest_ext fs fs')
    by (apply Hsame, (bool_decide_unpack _); vm_compute; exact I).
  destruct (Tester.test_manifest fs' Tester.init) as [t1|e]; [|done].
  rewrite !bind_ret. cbv zeta. unfold Tester.test_extension_files.
  rewrite (test_files_ext fs fs').
  2:{ intros p Hp. apply Hsame. revert p Hp.
      apply (proj1 (Forall_forall (λ p, p ∉ Tester.optional_paths)
                      Tester.required_files)).
      repeat constructor; apply (bool_decide_unpack _); vm_compute; exact I. }
  rewrite (test_cache_ext fs fs')
    by (apply Hsame, (bool_decide_unpack _); vm_compute; exact I).
  destruct (Tester.test_cache fs' _) as [t2|e]; [|done].
  rewrite !bind_ret.
  unfold Tester.test_python_tools, Tester.test_icons, mret, outcome_ret.
  cbv beta iota. by rewrite !test_files_optional_errors.
Qed.

Lemma optional_files_never_fail_the_run_witness :
  let fs := λ _ : string, Validator.Missing in
  let fs' := λ p : string,
    if String.eqb p "quick_fix.py" then Validator.Holds PyNone
    else Validator.Missing in
  match Tester.run_all_tests fs Tester.init,
        Tester.run_all_tests fs' Tester.init with
  | Ret (t, failed), Ret (t', failed') =>
      Tester.errors t = Tester.errors t' ∧ failed = failed'
  | Raise e, Raise e' => e = e'
  | _, _ => False
  end.
Proof.
  intros fs fs'. apply optional_files_never_fail_the_run.
  intros p Hp. unfold fs, fs'.
  destruct (String.eqb p "quick_fix.py") eqn:E; [|done].
  apply String.eqb_eq in E. subst p. exfalso. apply Hp.
  apply (bool_decide_unpack _). vm_compute. exact I.
Defined.

(** ** The tester and the structure test on the same cache *)

Section CacheTests.
Import Tester CacheTools.
Variable fs : string → Validator.file_state.

Lemma or_else_container (needle1 needle2 : string) (v : pyval) :
  is_container v = true →
  ∃ b, or_else (str_in needle1 v) (str_in needle2 v) = Ret b.
Proof.
  intros Hc. unfold or_else.
  destruct (str_in_container needle1 v Hc) as [a ->]. rewrite bind_ret.
  destruct a; [by eexists|]. apply (str_in_container needle2 v Hc).
Qed.

(** [test_cache] on a non-empty array, by what its first entry is. *)
Lemma test_cache_first (t : tester) (first : pyval) (rest : list pyval) :
  fs cache_path = Validator.Holds (PyList (first :: rest)) →
  match first with
  | PyDict items =>
      let missing :=
        if has_key "media" items || has_key "url" items then []
        else [Text "Entries missing 'media' or 'url' field"] in
      match Cache.entry_url first with
      | Ret url =>
          if Py.truthy url then
            match str_in "blob:" url with
            | Ret blob =>
                ∃ t', test_cache fs t = Ret t' ∧
                      errors t' = errors t ++ missing ++
                        (if blob
                         then [Text "Cache contains blob URLs (won't work)"]
                         else [])
            | Raise e => test_cache fs t = Raise e
            end
          else ∃ t', test_cache fs t = Ret t' ∧ errors t' = errors t ++ missing
      | Raise e => test_cache fs t = Raise e
      end
  | PyStr _ | PyList _ => test_cache fs t = Raise AttributeError
  | _ => test_cache fs t = Raise TypeError
  end.
Proof.
  intros Hf. unfold test_cache, test_file_exists, path_exists.
  rewrite Hf. cbv zeta. cbn [fst snd negb Validator.load].
  destruct first as [|b|n|q|u|l|items]; try reflexivity.
  change (str_in "media" (PyDict items)) with (Ret (has_key "media" items)).
  change (str_in "url" (PyDict items)) with (Ret (has_key "url" items)).
  rewrite !bind_ret.
  destruct (entry_url_record (PyDict items) eq_refl) as [url Hurl].
  rewrite Hurl, bind_ret.
  destruct (Py.truthy url).
  + destruct (is_container url) eqn:Hc.
    * destruct (or_else_container "pinimg.com" "pinterest.com" url Hc)
        as [b1 ->].
      destruct (str_in_container "blob:" url Hc) as [b2 Hb2].
      destruct (str_in_container "/originals/" url Hc) as [b3 Hb3].
      rewrite Hb2, Hb3, !bind_ret. eexists. split; [reflexivity|].
      rewrite !test_errors. cbn [given the default negb String.eqb].
      destruct (10 <=? _)%nat,
        (has_key "media" items || has_key "url" items), b1, b2, b3;
        cbn [negb]; unfold id; by rewrite ?app_nil_r, <- ?app_assoc.
    * unfold or_else.
      by rewrite !(str_in_not_container _ url Hc), !bind_raise.
  + eexists. split; [reflexivity|].
    rewrite !test_errors. cbn [given the default negb String.eqb].
    destruct (10 <=? _)%nat,
      (has_key "media" items || has_key "url" items);
      unfold id; by rewrite ?app_nil_r, <- ?app_assoc.
Qed.

(** [test_cache] on everything else. *)
Lemma test_cache_other (t : tester) :
  match fs cache_path with
  | Validator.Holds (PyList (_ :: _)) => True
  | Validator.Unreadable => test_cache fs t = Raise OSError
  | _ => ∃ t' m, test_cache fs t = Ret t' ∧ errors t' = errors t ++ m ∧ m ≠ []
  end.
Proof.
  unfold test_cache, test_file_exists, path_exists.
  destruct (fs cache_path) as [| | |v]; cbv zeta; cbn [fst snd negb Validator.load].
  - eexists _, [_; _]. split; [reflexivity|]. split; [|done].
    cbn [errors]. rewrite test_errors. cbn [given the default negb].
    by rewrite <- app_assoc.
  - done.
  - eexists _, [_]. split; [reflexivity|]. split; [|done].
    rewrite !test_errors. cbn [given the default negb]. by rewrite ?app_nil_r.
  - destruct v as [|b|n|q|u|l|items];
      try (eexists _, [_]; split; [reflexivity|]; split; [|done];
           rewrite !test_errors; cbn [given the default negb];
           by rewrite ?app_nil_r).
    destruct l as [|first rest]; [|done].
    eexists _, [_]. split; [reflexivity|]. split; [|done].
    rewrite !test_errors. cbn [given the default negb]. by rewrite ?app_nil_r.
Qed.
End CacheTests.

Lemma app_eq_self {A : Type} (l m : list A) : l ++ m = l ↔ m = [].
Proof.
  split; [|intros ->; apply app_nil_r].
  intros H. apply (app_inv_head l). by rewrite app_nil_r.
Qed.

Lemma raise_eq_iff {A B : Type} (e' e : exn) :
  @Raise A e' = Raise e ↔ @Raise B e' = Raise e.
Proof. split; intros [= <-]; reflexivity. Qed.

(** The tester's [test_cache] and the developer tool's
    [test_cache_structure] raise on the same caches, with the same
    exception. *)
Theorem cache_tests_raise_alike
    (fs : string → Validator.file_state) (t : Tester.tester) (e : exn) :
  Tester.test_cache fs t = Raise e ↔
  CacheTools.test_cache_structure (fs Tester.cache_path) = Raise e.
Proof.
  pose proof (test_cache_other fs t) as Hother.
  assert (∀ f,
            (∃ t' m, Tester.test_cache fs t = Ret t' ∧
               Tester.errors t' = Tester.errors t ++ m ∧ m ≠ []) →
            CacheTools.test_cache_structure f = Ret false →
            Tester.test_cache fs t = Raise e ↔
            CacheTools.test_cache_structure f = Raise e) as Hret.
  { intros f (t' & m & -> & _) ->. split; discriminate. }
  revert Hother.
  destruct (fs Tester.cache_path) as [| | |v] eqn:Hf; intros Hother.
  - by apply Hret.
  - rewrite Hother. apply raise_eq_iff.
  - by apply Hret.
  - destruct v as [|b|n|q|u|l|items]; try (by apply Hret).
    destruct l as [|first rest]; [by apply Hret|].
    clear Hother Hret. pose proof (test_cache_first fs t first rest Hf) as H.
    rewrite test_cache_structure_first.
    destruct first as [|b|n|q|u|l|items]; try (rewrite H; apply raise_eq_iff).
    cbv zeta in H.
    destruct (Cache.entry_url (PyDict items)) as [url|e'];
      [|rewrite H; apply raise_eq_iff].
    destruct (Py.truthy url);
      [|destruct H as (t' & -> & _); split; discriminate].
    destruct (CacheTools.str_in "blob:" url) as [blob|e''];
      [|rewrite H; apply raise_eq_iff].
    destruct H as (t' & -> & _). split; discriminate.
Qed.

(** The tester has no error to add for the cache exactly when
    [test_cache_structure] answers [True] and the first entry has one of
    the keys [media] and [url]: the tester is the stricter of the two,
    and differs on a first entry with neither key. *)
Theorem tester_stricter_than_structure_test
    (fs : string → Validator.file_state) (t t' : Tester.tester) :
  Tester.test_cache fs t = Ret t' →
  (Tester.errors t' = Tester.errors t ↔
   CacheTools.test_cache_structure (fs Tester.cache_path) = Ret true ∧
   ∃ items rest,
     fs Tester.cache_path = Validator.Holds (PyList (PyDict items :: rest)) ∧
     CacheTools.has_key "media" items || CacheTools.has_key "url" items = true).
Proof.
  intros Hrun. pose proof (test_cache_other fs t) as Hother.
  assert (∀ m : list Tester.message,
            (∃ t'', Tester.test_cache fs t = Ret t'' ∧
                    Tester.errors t'' = Tester.errors t ++ m) →
            Tester.errors t' = Tester.errors t ↔ m = []) as Herr.
  { intros m (t'' & Ht'' & He). rewrite Hrun in Ht''. apply Ret_inj in Ht''.
    subst t''. rewrite He. apply app_eq_self. }
  revert Hother.
  assert (∀ f, fs Tester.cache_path = f →
            (∃ t'' m, Tester.test_cache fs t = Ret t'' ∧
               Tester.errors t'' = Tester.errors t ++ m ∧ m ≠ []) →
            CacheTools.test_cache_structure f = Ret false →
            (∀ items rest, f ≠ Validator.Holds (PyList (PyDict items :: rest))) →
            Tester.errors t' = Tester.errors t ↔
            CacheTools.test_cache_structure f = Ret true ∧
            ∃ items rest,
              f = Validator.Holds (PyList (PyDict items :: rest)) ∧
              CacheTools.has_key "media" items || CacheTools.has_key "url" items
                = true) as Hbad.
  { intros f Hf (t'' & m & Ht'' & He & Hm) Hst Hshape.
    rewrite (Herr m) by (by exists t''). rewrite Hst. split; [done|].
    intros [? _]. discriminate. }
  destruct (fs Tester.cache_path) as [| | |v] eqn:Hf; intros Hother.
  - by apply Hbad.
  - rewrite Hother in Hrun. discriminate.
  - by apply Hbad.
  - destruct v as [|b|n|q|u|l|items]; try (by apply Hbad).
    destruct l as [|first rest]; [by apply Hbad|]. clear Hother Hbad.
    pose proof (test_cache_first fs t first rest Hf) as H.
    rewrite test_cache_structure_first.
    destruct first as [|b|n|q|u|l|items];
      try (rewrite H in Hrun; discriminate Hrun).
    cbv zeta in H.
    destruct (Cache.entry_url (PyDict items)) as [url|e'];
      [|rewrite H in Hrun; discriminate Hrun].
    destruct (Py.truthy url).
    + destruct (CacheTools.str_in "blob:" url) as [blob|e''];
        [|rewrite H in Hrun; discriminate Hrun].
      rewrite (Herr _ H).
      destruct (CacheTools.has_key "media" items || CacheTools.has_key "url" items)
        eqn:Hk, blob; cbn [app negb]; split; try done;
        try (intros [? _]; discriminate);
        try (intros [_ (i & r & [= <- <-] & Hk')]; congruence).
      intros _. split; [done|]. by exists items, rest.
    + rewrite (Herr _ H).
      destruct (CacheTools.has_key "media" items || CacheTools.has_key "url" items)
        eqn:Hk; split; try done.
      * intros _. split; [done|]. by exists items, rest.
      * intros [_ (i & r & [= <- <-] & Hk')]. congruence.
Qed.

Lemma tester_stricter_than_structure_test_witness :
  let fs := λ _ : string, Validator.Holds (PyList [PyDict [("title", PyStr "x")]]) in
  let t' := Tester.Tester [Tester.Text "Entries missing 'media' or 'url' field"]
              [Tester.OnlyEntries 1] 3 5 in
  (Tester.errors t' = Tester.errors Tester.init ↔
   CacheTools.test_cache_structure (fs Tester.cache_path) = Ret true ∧
   ∃ items rest,
     fs Tester.cache_path = Validator.Holds (PyList (PyDict items :: rest)) ∧
     CacheTools.has_key "media" items || CacheTools.has_key "url" items = true).
Proof.
  intros fs t'.
  apply (tester_stricter_than_structure_test fs Tester.init t'). reflexivity.
Defined.

(** ** [setup.py] *)

Section SetupFacts.
Import Setup.

Lemma check_extension_structure_spec (w : world) :
  check_extension_structure w = forallb (file_exists w) required_files.
Proof.
  unfold check_extension_structure.
  induction required_files as [|f fs IH]; [done|].
  cbn [forallb]. rewrite filter_cons.
  destruct (file_exists w f); [|done].
  rewrite decide_False by done. exact IH.
Qed.

Lemma main_ready (w : world) :
  ready w = true →
  main w = ([Ran PipInstall; Ran PlaywrightInstall; MadeDataDir]
              ++ run_scraper w, None).
Proof.
  unfold ready, main, install. rewrite check_extension_structure_spec.
  intros H. apply andb_true_iff in H as [H H4].
  apply andb_true_iff in H as [H H3]. apply andb_true_iff in H as [H1 H2].
  apply negb_true_iff in H1. by rewrite H1, H2, H3, H4.
Qed.

Lemma main_not_ready (w : world) :
  ready w = false →
  (main w).2 = Some 1 ∧
  ∃ n, (n ≤ 2)%nat ∧
       (main w).1 = take n [Ran PipInstall; Ran PlaywrightInstall].
Proof.
  unfold ready, main, install. rewrite check_extension_structure_spec.
  destruct (too_old w); [intros _; split; [done|]; exists 0%nat; split; [lia|reflexivity]|].
  destruct (succeeds w PipInstall);
    [|intros _; split; [done|]; exists 1%nat; split; [lia|reflexivity]].
  destruct (succeeds w PlaywrightInstall);
    [|intros _; split; [done|]; exists 2%nat; split; [lia|reflexivity]].
  cbn [negb andb]. intros ->. split; [done|]. exists 2%nat; split; [lia|reflexivity].
Qed.
End SetupFacts.

(** [main] of the set-up ends with status 1 exactly when the interpreter
    is too old, an installation fails or an extension file is missing;
    it has then created nothing and started neither the scraper nor the
    validator.  Otherwise it installs both, creates the data directory,
    and starts the scraper exactly when the user agrees, and the
    validator exactly when moreover the scraper succeeds and the user
    agrees again. *)
Theorem setup_main_gates (w : Setup.world) :
  let run := Setup.main w in
  (run.2 = Some 1 ↔ Setup.ready w = false) ∧
  (run.2 = None ↔ Setup.ready w = true) ∧
  (Setup.MadeDataDir ∈ run.1 ↔ Setup.ready w = true) ∧
  (Setup.Ran Setup.RunScraper ∈ run.1 ↔
   Setup.ready w = true ∧ Setup.agreed (Setup.scrape_answer w) = true) ∧
  (Setup.Ran Setup.RunValidator ∈ run.1 ↔
   Setup.ready w = true ∧ Setup.agreed (Setup.scrape_answer w) = true ∧
   Setup.succeeds w Setup.RunScraper = true ∧
   Setup.agreed (Setup.validate_answer w) = true).
Proof.
  cbv zeta. destruct (Setup.ready w) eqn:Hr.
  - rewrite (main_ready w Hr). cbn [fst snd app]. unfold Setup.run_scraper.
    split; [done|]. split; [done|].
    split; [split; [done|]; intros _; rewrite !elem_of_cons; tauto|].
    destruct (Setup.agreed (Setup.scrape_answer w)),
      (Setup.succeeds w Setup.RunScraper),
      (Setup.agreed (Setup.validate_answer w)),
      (Setup.succeeds w Setup.RunValidator);
      cbn [app]; rewrite ?elem_of_cons, ?elem_of_nil; intuition congruence.
  - destruct (main_not_ready w Hr) as (Hexit & n & Hn & Htr).
    rewrite Hexit, Htr.
    destruct n as [|[|[|n]]]; try lia; cbn [take];
      rewrite ?elem_of_cons, ?elem_of_nil; intuition congruence.
Qed.

(** The commands [main] starts are, in this order, the two installations,
    the scraper and the validator, up to the first that is not started. *)
Theorem setup_commands_in_order (w : Setup.world) :
  Setup.commands (Setup.main w).1 `prefix_of`
  [Setup.PipInstall; Setup.PlaywrightInstall; Setup.RunScraper;
   Setup.RunValidator].
Proof.
  destruct (Setup.ready w) eqn:Hr.
  - rewrite (main_ready w Hr). cbn [fst]. unfold Setup.run_scraper.
    destruct (Setup.agreed (Setup.scrape_answer w)),
      (Setup.succeeds w Setup.RunScraper),
      (Setup.agreed (Setup.validate_answer w)),
      (Setup.succeeds w Setup.RunValidator);
      cbn [app Setup.commands]; by eexists.
  - destruct (main_not_ready w Hr) as (_ & n & Hn & ->).
    destruct n as [|[|[|n]]]; try lia; cbn [take Setup.commands]; by eexists.
Qed.

(** A validator that fails after a scrape that succeeded is reported as
    a failed scrape: the run then tells the user both that the scraping
    completed and that it failed, and still ends normally. *)
Theorem failed_validation_reported_as_failed_scrape (w : Setup.world) :
  Setup.ready w = true →
  Setup.agreed (Setup.scrape_answer w) = true →
  Setup.succeeds w Setup.RunScraper = true →
  Setup.agreed (Setup.validate_answer w) = true →
  Setup.succeeds w Setup.RunValidator = false →
  Setup.main w =
  ([Setup.Ran Setup.PipInstall; Setup.Ran Setup.PlaywrightInstall;
    Setup.MadeDataDir; Setup.Asked; Setup.Ran Setup.RunScraper;
    Setup.Reported Setup.ScrapingCompleted; Setup.Asked;
    Setup.Ran Setup.RunValidator; Setup.Reported Setup.ScrapingFailed], None).
Proof.
  intros Hr H1 H2 H3 H4. rewrite (main_ready w Hr). unfold Setup.run_scraper.
  by rewrite H1, H2, H3, H4.
Qed.

Lemma failed_validation_reported_as_failed_scrape_witness :
  let w := Setup.World 3 12
    (λ c, match c with Setup.RunValidator => false | _ => true end)
    (λ _, true) "Y" "yes" in
  Setup.main w =
  ([Setup.Ran Setup.PipInstall; Setup.Ran Setup.PlaywrightInstall;
    Setup.MadeDataDir; Setup.Asked; Setup.Ran Setup.RunScraper;
    Setup.Reported Setup.ScrapingCompleted; Setup.Asked;
    Setup.Ran Setup.RunValidator; Setup.Reported Setup.ScrapingFailed], None).
Proof.
  intros w.
  apply (failed_validation_reported_as_failed_scrape w); reflexivity.
Defined.
